(** * LULC tile classification engine of tile-bbox-exporter

    A shallow embedding of the pure core of the tile selector and of the
    standalone batch classifier:
    - [LULCClassifier.classify_tile] (src/src/tile_selector/lulc_classifier.py),
      identical in its decision logic to [LULCTileClassifier.classify_tile]
      (src/lulc_dataset.py);
    - [LULCClassifier.analyze_image_bands] and its batch twin;
    - [TileManager.apply_tile_size] / [validate_tile_size] and the batch
      [LULCTileClassifier.extract_tiles];
    - [TileSelector.save_mask_only];
    - [TileSelector.compute_accuracy_matrix], the value-mapping step of
      [_show_value_mapping_dialog] and [_compute_and_show_matrix];
    - the session of the tile selector around them: tiling the current image,
      image navigation, canvas selection, zoom and grid display, drop-data
      parsing, the three exports, classification and relabelling;
    - the batch loop of [LULCTileClassifier] ([process_image],
      [process_all_images]).

    Scalar image features (means, standard deviations, densities) are
    finite real numbers; they are modelled exactly as rationals [Q]. *)

From Stdlib Require Import QArith Qabs Qround ZArith Arith Lia Ascii String List Bool.
Import ListNotations.

Open Scope Q_scope.

(** Strict and non-strict comparison of rationals as booleans, as the
    Python comparisons [a < b] and [a <= b] on finite floats. *)
Definition qlt (a b : Q) : bool := negb (Qle_bool b a).
Definition qle (a b : Q) : bool := Qle_bool a b.

(** ** Categories *)

Definition CATEGORIES : list string :=
  [ "AnnualCrop"; "Forest"; "HerbaceousVegetation"; "Highway"; "Industrial";
    "Pasture"; "PermanentCrop"; "Residential"; "River"; "SeaLake" ]%string.

(** ** Tile classifier *)

(** The features [classify_tile] computes from the tile array before its
    decision logic: [mean_color = (b, g, r)], [mean_hsv = (h, s, v)],
    [edge_density], [texture_variance] and [color_variance]. *)
Record TileFeatures := mkFeatures {
  mean_b : Q; mean_g : Q; mean_r : Q;
  mean_h : Q; mean_s : Q; mean_v : Q;
  edge_density : Q;
  texture_variance : Q;
  color_variance : Q
}.

(** [if (nir_proxy + red) > 0: ndvi = (nir_proxy - red) / (nir_proxy + red)
    else: ndvi = 0], with [nir_proxy = g] and [red = r]. *)
Definition ndvi (f : TileFeatures) : Q :=
  let nir_proxy := mean_g f in
  let red := mean_r f in
  if qlt 0 (nir_proxy + red) then (nir_proxy - red) / (nir_proxy + red) else 0.

(** Normalized RGB ratios [(b_ratio, g_ratio, r_ratio)], [0.33] each when
    [total_rgb <= 0]. *)
Definition rgb_ratios (f : TileFeatures) : Q * Q * Q :=
  let total_rgb := mean_b f + mean_g f + mean_r f in
  if qlt 0 total_rgb
  then (mean_b f / total_rgb, mean_g f / total_rgb, mean_r f / total_rgb)
  else (33 # 100, 33 # 100, 33 # 100).

Definition b_ratio (f : TileFeatures) : Q := fst (fst (rgb_ratios f)).
Definition g_ratio (f : TileFeatures) : Q := snd (fst (rgb_ratios f)).

Definition brightness (f : TileFeatures) : Q := mean_v f.
Definition saturation (f : TileFeatures) : Q := mean_s f.

(** Python's [if cond: return x] sequence: the first rule that returns. *)
Definition or_else {A} (o1 o2 : option A) : option A :=
  match o1 with Some x => Some x | None => o2 end.
Infix "<|>" := or_else (at level 50, left associativity).

(** WATER DETECTION *)
Definition water_rule (f : TileFeatures) : option string :=
  let b := mean_b f in let g := mean_g f in let r := mean_r f in
  if (qlt g b && qlt r b && qlt 80 b) || (qlt (38 # 100) (b_ratio f) && qlt (brightness f) 150) then
    if qlt (edge_density f) (8 # 100) && qlt (color_variance f) 25 then Some "SeaLake"%string
    else if qle (8 # 100) (edge_density f) || qle 25 (color_variance f) then Some "River"%string
    else None
  else None.

(** RESIDENTIAL DETECTION *)
Definition residential_rule (f : TileFeatures) : option string :=
  if qlt (10 # 100) (edge_density f) && qlt 22 (color_variance f) && qlt 60 (texture_variance f) then
    if qlt (g_ratio f) (40 # 100) || qlt (saturation f) 70 then Some "Residential"%string
    else None
  else None.

(** HIGHWAY DETECTION *)
Definition highway_rule (f : TileFeatures) : option string :=
  if qlt (saturation f) 35 && qlt (8 # 100) (edge_density f) && qlt (edge_density f) (20 # 100) then
    if qlt (color_variance f) 28 && qlt (brightness f) 130 then Some "Highway"%string
    else None
  else None.

(** FOREST DETECTION *)
Definition forest_rule (f : TileFeatures) : option string :=
  let b := mean_b f in let g := mean_g f in let r := mean_r f in
  if qlt r g && qlt b g && qlt (brightness f) 140 && qlt (1 # 10) (ndvi f) &&
     (qlt (12 # 100) (edge_density f) || qlt 100 (texture_variance f))
  then Some "Forest"%string
  else None.

(** ANNUAL CROP DETECTION *)
Definition annual_crop_rule (f : TileFeatures) : option string :=
  let b := mean_b f in let g := mean_g f in let r := mean_r f in
  if qlt r g && qlt b g && qlt (8 # 100) (edge_density f) then
    if qlt 35 (saturation f) && qlt 12 (color_variance f) && qlt 90 (brightness f)
    then Some "AnnualCrop"%string else None
  else None.

(** PERMANENT CROP DETECTION *)
Definition permanent_crop_rule (f : TileFeatures) : option string :=
  let b := mean_b f in let g := mean_g f in let r := mean_r f in
  if qlt r g && qlt b g && qlt 30 (saturation f) then
    if qlt (edge_density f) (10 # 100) && qlt 100 (brightness f) && qlt (color_variance f) 25
    then Some "PermanentCrop"%string else None
  else None.

(** VEGETATION (Pasture, Herbaceous) *)
Definition vegetation_rule (f : TileFeatures) : option string :=
  if qlt (35 # 100) (g_ratio f) && qlt (5 # 100) (ndvi f) then
    if qlt (color_variance f) 20 && qlt (saturation f) 60 then Some "Pasture"%string
    else if qle 20 (color_variance f) || qle 60 (saturation f) then Some "HerbaceousVegetation"%string
    else None
  else None.

(** INDUSTRIAL DETECTION *)
Definition industrial_rule (f : TileFeatures) : option string :=
  if qlt (color_variance f) 30 && qlt (saturation f) 50 && qlt (edge_density f) (10 # 100)
  then Some "Industrial"%string else None.

(** The rule cascade in source order; [None] means control reaches the
    "DEFAULT CLASSIFICATION" scoring stage. *)
Definition classify_rules (f : TileFeatures) : option string :=
  water_rule f <|> residential_rule f <|> highway_rule f <|> forest_rule f
  <|> annual_crop_rule f <|> permanent_crop_rule f <|> vegetation_rule f
  <|> industrial_rule f.

(** A Python dict with string keys and int values, in insertion order. *)
Definition dict := list (string * Z).

(** [d[k] += n] on a key that is present: updated in place. *)
Fixpoint dict_add (k : string) (n : Z) (d : dict) : dict :=
  match d with
  | [] => []
  | (k', v) :: t => if String.eqb k k' then (k', (v + n)%Z) :: t else (k', v) :: dict_add k n t
  end.

(** [scores] after the three scoring steps of the fallback. *)
Definition fallback_scores (f : TileFeatures) : dict :=
  let scores : dict :=
    [("Pasture", 0%Z); ("HerbaceousVegetation", 0%Z); ("Industrial", 0%Z);
     ("Forest", 0%Z); ("AnnualCrop", 0%Z)]%string in
  let scores :=
    if qlt (34 # 100) (g_ratio f)
    then dict_add "HerbaceousVegetation" 1 (dict_add "Pasture" 2 scores) else scores in
  let scores :=
    if qlt (10 # 100) (edge_density f)
    then dict_add "Forest" 1 (dict_add "AnnualCrop" 1 scores)
    else dict_add "Industrial" 1 (dict_add "Pasture" 1 scores) in
  let scores :=
    if qlt 120 (brightness f)
    then dict_add "HerbaceousVegetation" 1 (dict_add "Pasture" 1 scores)
    else dict_add "Industrial" 1 (dict_add "Forest" 1 scores) in
  scores%string.

(** Python's [max(d, key=d.get)]: iterate over the keys in order and
    replace the current best only on a strictly larger value; an empty
    dict raises [ValueError], modelled as [None]. *)
Fixpoint max_key_from (best : string * Z) (rest : dict) : string :=
  match rest with
  | [] => fst best
  | (k, v) :: t => if (snd best <? v)%Z then max_key_from (k, v) t else max_key_from best t
  end.

Definition dict_max_key (d : dict) : option string :=
  match d with
  | [] => None
  | kv :: t => Some (max_key_from kv t)
  end.

(** [classify_tile]: [Some c] is a returned category, [None] an exception. *)
Definition classify_tile (f : TileFeatures) : option string :=
  match classify_rules f with
  | Some c => Some c
  | None => dict_max_key (fallback_scores f)
  end.

(** The fallback scores depend on three tests only: [g_ratio > 0.34],
    [edge_density > 0.10] and [brightness > 120]. *)
Definition scores_of (greener textured bright : bool) : dict :=
  let scores : dict :=
    [("Pasture", 0%Z); ("HerbaceousVegetation", 0%Z); ("Industrial", 0%Z);
     ("Forest", 0%Z); ("AnnualCrop", 0%Z)]%string in
  let scores :=
    if greener then dict_add "HerbaceousVegetation" 1 (dict_add "Pasture" 2 scores) else scores in
  let scores :=
    if textured then dict_add "Forest" 1 (dict_add "AnnualCrop" 1 scores)
    else dict_add "Industrial" 1 (dict_add "Pasture" 1 scores) in
  let scores :=
    if bright then dict_add "HerbaceousVegetation" 1 (dict_add "Pasture" 1 scores)
    else dict_add "Industrial" 1 (dict_add "Forest" 1 scores) in
  scores%string.

(** ** Band statistics analyzer *)

(** numpy [float64] values as the band analyzer produces them: finite
    values (exact rationals), the two infinities and NaN.  Means of
    [uint8] channels are never negative, so the sign of a zero divisor
    never matters here and is not modelled. *)
Inductive f64 := Fin (q : Q) | PInf | NInf | NaN.

(** IEEE addition. *)
Definition fadd (x y : f64) : f64 :=
  match x, y with
  | NaN, _ | _, NaN => NaN
  | Fin a, Fin b => Fin (a + b)
  | PInf, NInf | NInf, PInf => NaN
  | PInf, _ | _, PInf => PInf
  | NInf, _ | _, NInf => NInf
  end.

(** IEEE division: [0/0] is NaN, a non-zero number over zero an infinity;
    numpy only warns on these, it raises nothing. *)
Definition fdiv (x y : f64) : f64 :=
  match x, y with
  | NaN, _ | _, NaN => NaN
  | Fin a, Fin b =>
      if Qeq_bool b 0 then
        (if Qeq_bool a 0 then NaN else if qlt 0 a then PInf else NInf)
      else Fin (a / b)
  | Fin _, (PInf | NInf) => Fin 0
  | (PInf | NInf), (PInf | NInf) => NaN
  | PInf, Fin b => if qle 0 b then PInf else NInf
  | NInf, Fin b => if qle 0 b then NInf else PInf
  end.

(** [x > c] for a Python float constant [c]: false on NaN. *)
Definition fgt (x : f64) (c : Q) : bool :=
  match x with
  | Fin q => qlt c q
  | PInf => true
  | NInf | NaN => false
  end.

(** A BGR [uint8] image as its pixels [(b, g, r)] in row-major order. *)
Definition bgr_image := list (Z * Z * Z).

Definition channel_b (p : Z * Z * Z) : Z := fst (fst p).
Definition channel_g (p : Z * Z * Z) : Z := snd (fst p).
Definition channel_r (p : Z * Z * Z) : Z := snd p.

(** [np.mean] of one channel (NaN on an empty channel). *)
Definition np_mean (ch : Z * Z * Z -> Z) (img : bgr_image) : f64 :=
  fdiv (Fin (inject_Z (fold_right Z.add 0%Z (map ch img))))
       (Fin (inject_Z (Z.of_nat (length img)))).

(** The part of [stats] that the ratios and [green_bias] come from; the
    standard deviations (and, in the batch copy, the medians) feed nothing
    else in [analyze_image_bands]. *)
Record BandStats := mkBandStats {
  blue_mean : f64; green_mean : f64; red_mean : f64;
  blue_ratio : f64; green_ratio : f64; red_ratio : f64;
  green_bias : bool
}.

(** [analyze_image_bands]: identical ratio and bias logic in
    [LULCClassifier] and [LULCTileClassifier]. *)
Definition analyze_image_bands (img : bgr_image) : BandStats :=
  let mb := np_mean channel_b img in
  let mg := np_mean channel_g img in
  let mr := np_mean channel_r img in
  let total_mean := fadd (fadd mb mg) mr in
  let rb := fdiv mb total_mean in
  let rg := fdiv mg total_mean in
  let rr := fdiv mr total_mean in
  mkBandStats mb mg mr rb rg rr (fgt rg (40 # 100)).

(** ** Tiling engine *)

Open Scope nat_scope.

(** A PIL RGB image: its size and its pixels, indexed by [(x, y)]. *)
Record Image := mkImage {
  img_width : nat;
  img_height : nat;
  img_px : nat -> nat -> Z * Z * Z
}.

Definition black : Z * Z * Z := (0%Z, 0%Z, 0%Z).

(** [math.ceil(a / b)] for a positive [b] (exact integer ceiling). *)
Definition ceil_div (a b : nat) : nat := (a + b - 1) / b.

(** [Image.new('RGB', (w, h), (0, 0, 0))] followed by
    [paste(im, (0, 0))]. *)
Definition new_and_paste (w h : nat) (im : Image) : Image :=
  mkImage w h (fun x y =>
    if (x <? img_width im) && (y <? img_height im) && (x <? w) && (y <? h)
    then img_px im x y else black).

(** [im.crop((x1, y1, x2, y2))]: pixels outside [im] are black. *)
Definition crop (im : Image) (x1 y1 x2 y2 : nat) : Image :=
  mkImage (x2 - x1) (y2 - y1) (fun i j =>
    if (x1 + i <? img_width im) && (y1 + j <? img_height im)
    then img_px im (x1 + i) (y1 + j) else black).

(** The entries of [self.app.tiles] that the claims use; [image_name] and
    [selected] are left out. *)
Record Tile := mkTile {
  tile_row : nat; tile_col : nat;
  tile_x : nat; tile_y : nat;
  tile_img : Image
}.

(** The padded canvas built by [apply_tile_size]. *)
Definition padded_image (current_image : Image) (tile_size : nat) : Image :=
  let tiles_x := ceil_div (img_width current_image) tile_size in
  let tiles_y := ceil_div (img_height current_image) tile_size in
  new_and_paste (tiles_x * tile_size) (tiles_y * tile_size) current_image.

(** The tile at [(row, col)]: [x = col * tile_size], [y = row * tile_size]
    and [padded_image.crop((x, y, x + tile_size, y + tile_size))]. *)
Definition tile_at (padded : Image) (tile_size row col : nat) : Tile :=
  let x := col * tile_size in
  let y := row * tile_size in
  mkTile row col x y (crop padded x y (x + tile_size) (y + tile_size)).

(** The nested [for row in range(tiles_y): for col in range(tiles_x)] loop. *)
Definition generate_tiles (padded : Image) (tiles_x tiles_y tile_size : nat) : list Tile :=
  flat_map (fun row => map (tile_at padded tile_size row) (seq 0 tiles_x)) (seq 0 tiles_y).

(** Tiles of [current_image] for a tile size. *)
Definition tiles_of (current_image : Image) (tile_size : nat) : list Tile :=
  generate_tiles (padded_image current_image tile_size)
    (ceil_div (img_width current_image) tile_size)
    (ceil_div (img_height current_image) tile_size) tile_size.

(** [validate_tile_size]: [entry] is [int(self.app.tile_size_var.get())],
    [None] when [int] raises [ValueError]; a rejected entry shows an error
    and keeps [self.app.tile_size]. *)
Definition validate_tile_size (entry : option Z) (tile_size : nat) : nat :=
  match entry with
  | Some size => if (size <=? 0)%Z then tile_size else Z.to_nat size
  | None => tile_size
  end.

(** [apply_tile_size] with an image loaded: the tile size in effect, the
    padded canvas [current_padded_image] and the tile list. *)
Definition apply_tile_size (tile_size : nat) (entry : option Z) (current_image : Image)
  : nat * Image * list Tile :=
  let tile_size := validate_tile_size entry tile_size in
  (tile_size, padded_image current_image tile_size, tiles_of current_image tile_size).

(** A tile's footprint contains pixel [(x, y)]. *)
Definition covers (x y : nat) (t : Tile) : bool :=
  (tile_x t <=? x) && (x <? tile_x t + img_width (tile_img t)) &&
  (tile_y t <=? y) && (y <? tile_y t + img_height (tile_img t)).

(** Exceptions of the Python code that the claims meet. *)
Inductive PyError := ZeroDivisionError | OverflowError.

(** Python's [a // b]. *)
Definition py_floordiv (a b : Z) : PyError + Z :=
  if (b =? 0)%Z then inl ZeroDivisionError else inr (a / b)%Z.

(** [range(n)]. *)
Definition py_range (n : Z) : list nat := seq 0 (Z.to_nat n).

(** The batch [LULCTileClassifier.extract_tiles] on an image of
    [width x height] pixels ([None]: [cv2.imread] failed).  It returns the
    files written to the analysis folder and either an exception or the
    tiles, each as [(row_index, col_index, y_start, x_start)] of its slice
    [img[y_start:y_start+tile_size, x_start:x_start+tile_size]]. *)
Definition extract_tiles (tile_size : Z) (apply_color_correction : bool)
  (image_name : string) (img : option (nat * nat))
  : list string * (PyError + list (nat * nat * nat * nat)) :=
  match img with
  | None => ([], inr [])
  | Some (width, height) =>
      let written :=
        if apply_color_correction then [(image_name ++ "_corrected.tif")%string] else [] in
      match py_floordiv (Z.of_nat height) tile_size with
      | inl e => (written, inl e)
      | inr rows =>
          match py_floordiv (Z.of_nat width) tile_size with
          | inl e => (written, inl e)
          | inr cols =>
              (written, inr (flat_map (fun i =>
                 map (fun j => (i, j, i * Z.to_nat tile_size, j * Z.to_nat tile_size))
                   (py_range cols)) (py_range rows)))
          end
      end
  end.

(** Pixel [(x, y)] of the image lies in the slice
    [img[y_start:y_start+tile_size, x_start:x_start+tile_size]] of a tile
    [(row_index, col_index, y_start, x_start)] of [extract_tiles]. *)
Definition slice_covers (tile_size x y : nat) (tile : nat * nat * nat * nat) : bool :=
  let '(_, _, y_start, x_start) := tile in
  (x_start <=? x) && (x <? x_start + tile_size) && (y_start <=? y) && (y <? y_start + tile_size).

(** ** Mask exporter *)

(** [d.get(k)] on a dict with string keys. *)
Fixpoint dict_get (d : dict) (k : string) : option Z :=
  match d with
  | [] => None
  | (k', v) :: t => if String.eqb k k' then Some v else dict_get t k
  end.

(** [d.get(k, default)]. *)
Definition dict_get_default (d : dict) (k : string) (default : Z) : Z :=
  match dict_get d k with Some v => v | None => default end.

(** A single-channel [uint8] mask: [np.full((height, width), ...)]
    indexed by [(x, y)]. *)
Record Mask := mkMask {
  mask_width : nat;
  mask_height : nat;
  mask_px : nat -> nat -> Z
}.

(** Pixel [(x, y)] lies in the slice [[y1:y2, x1:x2]]. *)
Definition in_slice (x1 y1 x2 y2 x y : nat) : bool :=
  (x1 <=? x) && (x <? x2) && (y1 <=? y) && (y <? y2).

(** [mask_array[y1:y2, x1:x2] = val]: numpy raises [OverflowError] for a
    Python int outside the [uint8] range. *)
Definition assign_rect (m : nat -> nat -> Z) (x1 y1 x2 y2 : nat) (val : Z)
  : PyError + (nat -> nat -> Z) :=
  if ((0 <=? val) && (val <=? 255))%Z then
    inr (fun x y => if in_slice x1 y1 x2 y2 x y then val else m x y)
  else inl OverflowError.

(** [if not category or category == 'Cloud': continue] *)
Definition skipped_label (category : string) : bool :=
  String.eqb category "" || String.eqb category "Cloud".

(** The loop [for i, tile_info in enumerate(self.tiles)] of
    [save_mask_only]; it stops ([break]) when the classifications run out. *)
Fixpoint mask_loop (width height tile_size : nat) (category_values : dict)
  (m : nat -> nat -> Z) (tiles : list Tile) (classifications : list string)
  : PyError + (nat -> nat -> Z) :=
  match tiles, classifications with
  | tile_info :: tiles', category :: classifications' =>
      if skipped_label category
      then mask_loop width height tile_size category_values m tiles' classifications'
      else
        let val := dict_get_default category_values category 255 in
        let x1 := tile_x tile_info in
        let y1 := tile_y tile_info in
        let x2 := Nat.min (x1 + tile_size) width in
        let y2 := Nat.min (y1 + tile_size) height in
        match assign_rect m x1 y1 x2 y2 val with
        | inl e => inl e
        | inr m' => mask_loop width height tile_size category_values m' tiles' classifications'
        end
  | _, _ => inr m
  end.

(** [save_mask_only] on the current padded canvas, tile list, tile size,
    classifications and [category_values]: [None] is the early return when
    there are no classifications; otherwise the mask that is saved, or the
    exception raised while filling it. *)
Definition save_mask_only (current_padded_image : Image) (tile_size : nat)
  (tiles : list Tile) (tile_classifications : list string) (category_values : dict)
  : option (PyError + Mask) :=
  match tile_classifications with
  | [] => None
  | _ =>
      let width := img_width current_padded_image in
      let height := img_height current_padded_image in
      let default_value := 255%Z in
      match mask_loop width height tile_size category_values (fun _ _ => default_value)
              tiles tile_classifications with
      | inl e => Some (inl e)
      | inr m => Some (inr (mkMask width height m))
      end
  end.

(** The slice a tile's label is written to. *)
Definition tile_slice (width height tile_size : nat) (x y : nat) (t : Tile) : bool :=
  in_slice (tile_x t) (tile_y t) (Nat.min (tile_x t + tile_size) width)
    (Nat.min (tile_y t + tile_size) height) x y.

(** The initial [self.category_values]:
    [{cat: i for i, cat in enumerate(LULCClassifier.CATEGORIES)}]. *)
Definition default_category_values : dict :=
  combine CATEGORIES (map Z.of_nat (seq 0 (length CATEGORIES))).

(** ** Accuracy evaluator *)

(** A mask loaded with [np.array(Image.open(path).convert('L'))]: its
    shape [(height, width)] and its values in row-major order. *)
Record Raster := mkRaster {
  r_height : nat;
  r_width : nat;
  r_px : list Z
}.

(** [sorted(set(...))]: insertion into a strictly increasing list. *)
Fixpoint insert_unique (v : Z) (l : list Z) : list Z :=
  match l with
  | [] => [v]
  | w :: t =>
      if (v <? w)%Z then v :: l
      else if (v =? w)%Z then l
      else w :: insert_unique v t
  end.

Definition sorted_unique (l : list Z) : list Z := fold_right insert_unique [] l.

(** ASCII whitespace, as [str.strip()] removes it. *)
Definition is_space (a : Ascii.ascii) : bool :=
  match Ascii.nat_of_ascii a with
  | 32 | 9 | 10 | 11 | 12 | 13 => true
  | _ => false
  end.

Fixpoint drop_spaces (l : list Ascii.ascii) : list Ascii.ascii :=
  match l with
  | a :: t => if is_space a then drop_spaces t else l
  | [] => []
  end.

(** [str.strip()] *)
Definition py_strip (s : string) : string :=
  string_of_list_ascii
    (rev (drop_spaces (rev (drop_spaces (list_ascii_of_string s))))).

(** [str.lower()] on ASCII letters. *)
Definition lower_ascii (a : Ascii.ascii) : Ascii.ascii :=
  let n := Ascii.nat_of_ascii a in
  if (65 <=? n) && (n <=? 90) then Ascii.ascii_of_nat (n + 32) else a.

Definition py_lower (s : string) : string :=
  string_of_list_ascii (map lower_ascii (list_ascii_of_string s)).

(** [on_compute] of the mapping dialog: [entry_text val] is the text of the
    entry next to pixel value [val]; the result is [value_to_cat] and
    [known_values]. *)
Definition on_compute (all_values : list Z) (entry_text : Z -> string)
  : list (Z * string) * list Z :=
  fold_left (fun acc val =>
    let name := py_strip (entry_text val) in
    if negb (String.eqb name "") && negb (String.eqb (py_lower name) "ignore")
    then (fst acc ++ [(val, name)], snd acc ++ [val])
    else acc) all_values ([], []).

(** [d.get(k)] on a dict with int keys. *)
Fixpoint int_dict_get {A} (d : list (Z * A)) (k : Z) : option A :=
  match d with
  | [] => None
  | (k', v) :: t => if (k =? k')%Z then Some v else int_dict_get t k
  end.

(** Decimal digits of a natural number ([str(val)] for [val >= 0]). *)
Fixpoint digits_of (fuel n : nat) (acc : string) : string :=
  match fuel with
  | 0 => acc
  | S fuel' =>
      let acc' := String (Ascii.ascii_of_nat (48 + n mod 10)) acc in
      if n <? 10 then acc' else digits_of fuel' (n / 10) acc'
  end.

Definition py_str_Z (z : Z) : string :=
  if (z <? 0)%Z then String (Ascii.ascii_of_nat 45) (digits_of (S (Z.to_nat (- z))) (Z.to_nat (- z)) "")
  else digits_of (S (Z.to_nat z)) (Z.to_nat z) "".

(** [np.sum(pred_img[gt_mask] == pred_val)] with
    [gt_mask = (gt_img == gt_val)]. *)
Definition masked_count (gt pred : list Z) (gt_val pred_val : Z) : Z :=
  Z.of_nat (length (filter (fun p => (p =? pred_val)%Z)
    (map snd (filter (fun gp => (fst gp =? gt_val)%Z) (combine gt pred))))).

(** The confusion matrix, row [i] for [known_values[i]] in the ground
    truth, column [j] for [known_values[j]] in the prediction. *)
Definition confusion_matrix (gt pred : list Z) (known_values : list Z) : list (list Z) :=
  map (fun gt_val => map (fun pred_val => masked_count gt pred gt_val pred_val) known_values)
    known_values.

Definition z_sum (l : list Z) : Z := fold_right Z.add 0%Z l.

Definition entry (confusion : list (list Z)) (i j : nat) : Z :=
  nth j (nth i confusion []) 0%Z.

Definition row_sum (confusion : list (list Z)) (i : nat) : Z := z_sum (nth i confusion []).

Definition col_sum (confusion : list (list Z)) (j : nat) : Z :=
  z_sum (map (fun row => nth j row 0%Z) confusion).

Definition trace (confusion : list (list Z)) : Z :=
  z_sum (map (fun i => entry confusion i i) (seq 0 (length confusion))).

(** The entry of [per_class] for one class. *)
Record ClassMetrics := mkClassMetrics {
  cm_value : Z; cm_tp : Z; cm_gt_total : Z; cm_pred_total : Z;
  cm_recall : Q; cm_precision : Q; cm_f1 : Q
}.

Definition class_metrics (confusion : list (list Z)) (i : nat) (val : Z) : ClassMetrics :=
  let tp := entry confusion i i in
  let rs := row_sum confusion i in
  let cs := col_sum confusion i in
  let recall := if (0 <? rs)%Z then (inject_Z tp / inject_Z rs * 100)%Q else 0%Q in
  let precision := if (0 <? cs)%Z then (inject_Z tp / inject_Z cs * 100)%Q else 0%Q in
  let f1 := if qlt 0 (precision + recall)
            then (2 * precision * recall / (precision + recall))%Q else 0%Q in
  mkClassMetrics val tp rs cs recall precision f1.

(** [od[k] = v] on an [OrderedDict]: a present key keeps its position. *)
Fixpoint odict_set {A} (d : list (string * A)) (k : string) (v : A) : list (string * A) :=
  match d with
  | [] => [(k, v)]
  | (k', v') :: t => if String.eqb k k' then (k', v) :: t else (k', v') :: odict_set t k v
  end.

Record AccuracyReport := mkAccuracyReport {
  confusion : list (list Z);
  known_values : list Z;
  value_to_cat : list (Z * string);
  overall_accuracy : Q;
  per_class : list (string * ClassMetrics)
}.

(** [_compute_and_show_matrix] without its window. *)
Definition compute_and_show_matrix (pred_img gt_img : list Z) (known_values : list Z)
  (value_to_cat : list (Z * string)) : AccuracyReport :=
  let conf := confusion_matrix gt_img pred_img known_values in
  let total_pixels := z_sum (map z_sum conf) in
  let correct_pixels := trace conf in
  let overall :=
    if (0 <? total_pixels)%Z
    then (inject_Z correct_pixels / inject_Z total_pixels * 100)%Q else 0%Q in
  let per_class :=
    fold_left (fun od iv =>
      let i := fst iv in let val := snd iv in
      let cat_name :=
        match int_dict_get value_to_cat val with
        | Some nm => nm
        | None => ("Value_" ++ py_str_Z val)%string
        end in
      odict_set od cat_name (class_metrics conf i val))
      (combine (seq 0 (length known_values)) known_values) [] in
  mkAccuracyReport conf known_values value_to_cat overall per_class.

(** How [compute_accuracy_matrix] and its mapping dialog end. *)
Inductive AccuracyOutcome :=
  | DimensionMismatch      (* "Mask dimensions do not match!" *)
  | NoPixelValues          (* "No pixel values found in the masks." *)
  | InsufficientClasses    (* fewer than 2 values given a class name *)
  | Computed (r : AccuracyReport).

(** [compute_accuracy_matrix] with both masks loaded, followed by one
    press of "Compute Accuracy Matrix" in the mapping dialog. *)
Definition compute_accuracy_matrix (pred_img gt_img : Raster) (entry_text : Z -> string)
  : AccuracyOutcome :=
  if negb ((r_height pred_img =? r_height gt_img) && (r_width pred_img =? r_width gt_img))
  then DimensionMismatch
  else
    let all_values := sorted_unique (r_px pred_img ++ r_px gt_img) in
    match all_values with
    | [] => NoPixelValues
    | _ =>
        let (value_to_cat, known_values) := on_compute all_values entry_text in
        if length known_values <? 2 then InsufficientClasses
        else Computed (compute_and_show_matrix (r_px pred_img) (r_px gt_img)
                         known_values value_to_cat)
    end.


(** ** Paths and file names *)
(** The last index of [c] in [l] ([str.rfind], [None] for [-1]). *)
Fixpoint rfind_from (c : Ascii.ascii) (l : list Ascii.ascii) (i : nat) (acc : option nat)
  : option nat :=
  match l with
  | [] => acc
  | a :: t => rfind_from c t (S i) (if Ascii.ascii_dec a c then Some i else acc)
  end.

Definition rfind (c : Ascii.ascii) (l : list Ascii.ascii) : option nat := rfind_from c l 0 None.

Definition slash : Ascii.ascii := "/"%char.

Definition dot : Ascii.ascii := "."%char.

(** [posixpath.basename]: [p[p.rfind('/') + 1:]]. *)
Definition basename (p : string) : string :=
  let l := list_ascii_of_string p in
  match rfind slash l with
  | Some i => string_of_list_ascii (skipn (S i) l)
  | None => p
  end.

(** [posixpath.splitext] ([genericpath._splitext] with [sep = '/'] and
    [extsep = '.']): the extension starts at the last dot after the last
    slash, unless only dots precede it in the last component. *)
Definition splitext (p : string) : string * string :=
  let l := list_ascii_of_string p in
  match rfind dot l with
  | None => (p, ""%string)
  | Some d =>
      let start := match rfind slash l with Some s => S s | None => 0 end in
      if (start <=? d) &&
         existsb (fun a => negb (Ascii.eqb a dot)) (firstn (d - start) (skipn start l))
      then (string_of_list_ascii (firstn d l), string_of_list_ascii (skipn d l))
      else (p, ""%string)
  end.

(** [os.path.splitext(os.path.basename(path))[0]], the [image_name] of the
    tile selector. *)
Definition image_stem (path : string) : string := fst (splitext (basename path)).

Definition starts_with_slash (s : string) : bool :=
  match s with String a _ => Ascii.eqb a slash | EmptyString => false end.

Definition ends_with_slash (s : string) : bool :=
  match rev (list_ascii_of_string s) with a :: _ => Ascii.eqb a slash | [] => false end.

(** [posixpath.join(a, b)]. *)
Definition path_join (a b : string) : string :=
  if starts_with_slash b then b
  else if String.eqb a "" || ends_with_slash a then (a ++ b)%string
  else (a ++ "/" ++ b)%string.

(** [str(n)] for a non-negative [int]. *)
Definition py_str_nat (n : nat) : string := py_str_Z (Z.of_nat n).

(** [f"{n:03d}"] for a non-negative [int]: zero-padded to width 3. *)
Definition format_03d (n : nat) : string :=
  let s := py_str_nat n in
  (string_of_list_ascii (repeat "0"%char (3 - String.length s)) ++ s)%string.

(** [f"{image_name}_tile_{row}_{col}.png"] of [TileManager.export_tiles]
    and [export_classification]. *)
Definition tile_filename (image_name : string) (row col : nat) : string :=
  (image_name ++ "_tile_" ++ py_str_nat row ++ "_" ++ py_str_nat col ++ ".png")%string.

(** [f"{image_name}_tile_r{row:03d}_c{col:03d}.png"] of
    [TileSelector.export_lulc_tiles] and [LULCTileClassifier.save_tile]. *)
Definition lulc_tile_filename (image_name : string) (row col : nat) : string :=
  (image_name ++ "_tile_r" ++ format_03d row ++ "_c" ++ format_03d col ++ ".png")%string.

(** The value of a string of decimal digits. *)
Definition digit_val (a : Ascii.ascii) : nat := Ascii.nat_of_ascii a - 48.

Definition dec_value (l : list Ascii.ascii) : nat :=
  fold_left (fun acc a => acc * 10 + digit_val a) l 0.

Definition is_digit (a : Ascii.ascii) : bool :=
  (48 <=? Ascii.nat_of_ascii a) && (Ascii.nat_of_ascii a <=? 57).

Definition underscore : Ascii.ascii := "_"%char.

(** ** Tile selector session *)
(** Python [set]s of tile indices as lists: [in], [add] and [remove]
    ([remove] is only called on a present index). *)
Definition set_mem (k : nat) (s : list nat) : bool := existsb (Nat.eqb k) s.

Definition set_add (k : nat) (s : list nat) : list nat := if set_mem k s then s else s ++ [k].

Definition set_remove (k : nat) (s : list nat) : list nat := filter (fun j => negb (j =? k)) s.

(** [d.get(k)] on a dict with string keys. *)
Fixpoint sdict_get {A} (d : list (string * A)) (k : string) : option A :=
  match d with
  | [] => None
  | (k', v) :: t => if String.eqb k k' then Some v else sdict_get t k
  end.

Definition sdict_get_default {A} (d : list (string * A)) (k : string) (default : A) : A :=
  match sdict_get d k with Some v => v | None => default end.

Inductive SelectionMode := SelAdd | SelRemove.

(** An entry of [self.app.tiles]: [image_name], the tile ([row], [col],
    [x], [y], [tile_img]) and [selected]. *)
Record TileEntry := mkTileEntry {
  te_image_name : string;
  te_tile : Tile;
  te_selected : bool
}.

(** The attributes of [ImageTileSelector] that tiling, selection,
    classification and export read or write. *)
Record AppState := mkAppState {
  images : list (string * Image);
  current_image_index : nat;
  tile_size : nat;
  current_padded_image : option Image;
  tiles : list TileEntry;
  selected_tiles : list nat;
  image_tile_selections : list (string * list nat);
  tile_classifications : list string;
  selected_tiles_for_category : list nat;
  preprocess_enabled : bool;
  preprocessed_image : option Image;
  zoom_level : Q;
  is_selecting : bool;
  selection_mode : option SelectionMode
}.

(** Writing the tile list, the two selections and the drag state. *)
Definition with_selection (st : AppState) (tiles' : list TileEntry) (sel sfc : list nat)
  (selecting : bool) (mode : option SelectionMode) : AppState :=
  mkAppState (images st) (current_image_index st) (tile_size st) (current_padded_image st)
    tiles' sel (image_tile_selections st) (tile_classifications st) sfc
    (preprocess_enabled st) (preprocessed_image st) (zoom_level st) selecting mode.

(** [self.app.tiles[i]['selected'] = b]; [i] always comes from
    [enumerate(self.app.tiles)], so it is in range. *)
Fixpoint set_selected_flag (i : nat) (b : bool) (l : list TileEntry) : list TileEntry :=
  match l, i with
  | [], _ => []
  | te :: t, 0 => mkTileEntry (te_image_name te) (te_tile te) b :: t
  | te :: t, S i' => te :: set_selected_flag i' b t
  end.

(** [TileManager.apply_tile_size] on the session, [entry] being the tile
    size entry as for [validate_tile_size]. [None] is an exception: the
    [IndexError] of [self.app.images[self.app.current_image_index]] or the
    [ZeroDivisionError] of [math.ceil(img_width / tile_size)]. *)
Definition apply_tile_size_app (entry : option Z) (st : AppState) : option AppState :=
  match images st with
  | [] => Some st
  | _ =>
      match nth_error (images st) (current_image_index st) with
      | None => None
      | Some (path, original_image) =>
          if validate_tile_size entry (tile_size st) =? 0 then None else
          let current_image :=
            if preprocess_enabled st
            then match preprocessed_image st with Some im => im | None => original_image end
            else original_image in
          let '(T, padded, ts) := apply_tile_size (tile_size st) entry current_image in
          let saved := sdict_get_default (image_tile_selections st) path [] in
          let image_name := image_stem path in
          let entries :=
            map (fun kt => mkTileEntry image_name (snd kt) (set_mem (fst kt) saved))
              (combine (seq 0 (length ts)) ts) in
          Some (mkAppState (images st) (current_image_index st) T (Some padded) entries
                  (filter (fun k => set_mem k saved) (seq 0 (length ts)))
                  (image_tile_selections st) [] (selected_tiles_for_category st)
                  (preprocess_enabled st) (preprocessed_image st) (zoom_level st)
                  (is_selecting st) (selection_mode st))
      end
  end.

(** Python's [int(x)] on a float: truncation toward zero. *)
Definition py_int (q : Q) : Z := if Qle_bool 0 q then Qfloor q else (- Qfloor (- q))%Z.

(** The scan of [_get_tile_at_position] from index [i] on. *)
Fixpoint find_tile_from (zoom x y : Q) (tile_size_zoomed : Z) (l : list TileEntry) (i : nat)
  : option nat :=
  match l with
  | [] => None
  | te :: rest =>
      let tx := py_int (inject_Z (Z.of_nat (tile_x (te_tile te))) * zoom) in
      let ty := py_int (inject_Z (Z.of_nat (tile_y (te_tile te))) * zoom) in
      let tx2 := (tx + tile_size_zoomed)%Z in
      let ty2 := (ty + tile_size_zoomed)%Z in
      if qle (inject_Z tx) x && qle x (inject_Z tx2) && qle (inject_Z ty) y && qle y (inject_Z ty2)
      then Some i
      else find_tile_from zoom x y tile_size_zoomed rest (S i)
  end.

(** [CanvasHandler._get_tile_at_position] at canvas point [(x, y)]. *)
Definition get_tile_at_position (st : AppState) (x y : Q) : option nat :=
  let tile_size_zoomed := py_int (inject_Z (Z.of_nat (tile_size st)) * zoom_level st) in
  find_tile_from (zoom_level st) x y tile_size_zoomed (tiles st) 0.

Definition classified (st : AppState) : bool :=
  match tile_classifications st with [] => false | _ => true end.

(** [CanvasHandler.on_canvas_click] at canvas point [(x, y)]. *)
Definition on_canvas_click (x y : Q) (st : AppState) : AppState :=
  match get_tile_at_position st x y with
  | None => with_selection st (tiles st) (selected_tiles st) (selected_tiles_for_category st)
              true (selection_mode st)
  | Some i =>
      if classified st then
        if set_mem i (selected_tiles_for_category st)
        then with_selection st (tiles st) (selected_tiles st)
               (set_remove i (selected_tiles_for_category st)) true (Some SelRemove)
        else with_selection st (tiles st) (selected_tiles st)
               (set_add i (selected_tiles_for_category st)) true (Some SelAdd)
      else if set_mem i (selected_tiles st)
      then with_selection st (set_selected_flag i false (tiles st))
             (set_remove i (selected_tiles st)) (selected_tiles_for_category st) true (Some SelRemove)
      else with_selection st (set_selected_flag i true (tiles st))
             (set_add i (selected_tiles st)) (selected_tiles_for_category st) true (Some SelAdd)
  end.

(** [CanvasHandler.on_canvas_drag] at canvas point [(x, y)]. *)
Definition on_canvas_drag (x y : Q) (st : AppState) : AppState :=
  if negb (is_selecting st) then st else
  match selection_mode st with
  | None => st
  | Some mode =>
      match get_tile_at_position st x y with
      | None => st
      | Some i =>
          let sfc := selected_tiles_for_category st in
          let sel := selected_tiles st in
          if classified st then
            match mode with
            | SelAdd =>
                if negb (set_mem i sfc)
                then with_selection st (tiles st) sel (set_add i sfc) true (Some mode) else st
            | SelRemove =>
                if set_mem i sfc
                then with_selection st (tiles st) sel (set_remove i sfc) true (Some mode) else st
            end
          else
            match mode with
            | SelAdd =>
                if negb (set_mem i sel)
                then with_selection st (set_selected_flag i true (tiles st)) (set_add i sel) sfc
                       true (Some mode)
                else st
            | SelRemove =>
                if set_mem i sel
                then with_selection st (set_selected_flag i false (tiles st)) (set_remove i sel) sfc
                       true (Some mode)
                else st
            end
      end
  end.

(** [CanvasHandler.on_canvas_release]. *)
Definition on_canvas_release (st : AppState) : AppState :=
  with_selection st (tiles st) (selected_tiles st) (selected_tiles_for_category st) false None.

(** Storing the current selection and moving to image [idx]:
    [self.app.image_tile_selections[path] = self.app.selected_tiles.copy()],
    the new index, then [ImageHandler._clear_classifications]. *)
Definition switch_image (path : string) (idx : nat) (st : AppState) : AppState :=
  mkAppState (images st) idx (tile_size st) (current_padded_image st) (tiles st)
    (selected_tiles st) (odict_set (image_tile_selections st) path (selected_tiles st)) []
    (selected_tiles_for_category st) false None (zoom_level st) (is_selecting st)
    (selection_mode st).

(** [ImageHandler.next_image], then [apply_tile_size] with the tile size
    entry [entry]. *)
Definition next_image (entry : option Z) (st : AppState) : option AppState :=
  match images st with
  | [] => Some st
  | _ =>
      match nth_error (images st) (current_image_index st) with
      | None => None
      | Some (path, _) =>
          apply_tile_size_app entry
            (switch_image path ((current_image_index st + 1) mod length (images st)) st)
      end
  end.

(** [ImageHandler.prev_image]: [(index - 1) % len(images)] with Python's
    non-negative modulo. *)
Definition prev_image (entry : option Z) (st : AppState) : option AppState :=
  match images st with
  | [] => Some st
  | _ =>
      match nth_error (images st) (current_image_index st) with
      | None => None
      | Some (path, _) =>
          apply_tile_size_app entry
            (switch_image path
               (Z.to_nat ((Z.of_nat (current_image_index st) - 1) mod Z.of_nat (length (images st)))) st)
      end
  end.

(** Agreement of the per-tile [selected] flags with [selected_tiles],
    indices in range and no duplicates. *)
Definition sel_inv (st : AppState) : Prop :=
  (forall i te, nth_error (tiles st) i = Some te -> te_selected te = set_mem i (selected_tiles st)) /\
  (forall k, In k (selected_tiles st) -> k < length (tiles st)) /\
  NoDup (selected_tiles st).

(** The image [apply_tile_size] tiles. *)
Definition current_image_of (st : AppState) (original_image : Image) : Image :=
  if preprocess_enabled st
  then match preprocessed_image st with Some im => im | None => original_image end
  else original_image.

Fixpoint find_first {A} (p : A -> bool) (l : list A) (i : nat) : option nat :=
  match l with
  | [] => None
  | a :: rest => if p a then Some i else find_first p rest (S i)
  end.

Definition is_nil {A} (l : list A) : bool := match l with [] => true | _ => false end.

(** Outcomes of [TileManager.export_tiles]: the message shown or the
    exception raised. *)
Inductive ExportOutcome :=
| NoImagesWarning
| ExportCancelled
| ExportRaised (e : PyError)
| NoTilesWarning
| ExportComplete (exported : nat).

(** [self.app.image_tile_selections[current_image_path] =
    self.app.selected_tiles.copy()] when the index is in range. *)
Definition store_current_selection (st : AppState) : list (string * list nat) :=
  match nth_error (images st) (current_image_index st) with
  | Some (current_image_path, _) =>
      odict_set (image_tile_selections st) current_image_path (selected_tiles st)
  | None => image_tile_selections st
  end.

(** The files one image contributes to [export_tiles]: the tile at
    [(row, col)] (its [tile_index] is [row * tiles_x + col]) is saved to
    [os.path.join(folder, f"{image_name}_tile_{row}_{col}.png")] when the
    index is selected; [save_ok] tells whether [tile_img.save(path)]
    succeeds. *)
Definition export_image_tiles (save_ok : string -> bool) (folder : string) (tile_size : nat)
  (img_path : string) (img : Image) (selected : list nat) : list (string * Image) :=
  let tiles_x := ceil_div (img_width img) tile_size in
  let tiles_y := ceil_div (img_height img) tile_size in
  let padded := padded_image img tile_size in
  let image_name := image_stem img_path in
  flat_map (fun row =>
    flat_map (fun col =>
      if set_mem (row * tiles_x + col) selected then
        let path := path_join folder (tile_filename image_name row col) in
        if save_ok path then [(path, tile_img (tile_at padded tile_size row col))] else []
      else []) (seq 0 tiles_x)) (seq 0 tiles_y).

(** [TileManager.export_tiles]; [folder] is the result of
    [filedialog.askdirectory] ([""] when cancelled). It returns the stored
    selections, the files written with their contents, and the outcome. *)
Definition export_tiles (save_ok : string -> bool) (folder : string) (st : AppState)
  : list (string * list nat) * list (string * Image) * ExportOutcome :=
  match images st with
  | [] => (image_tile_selections st, [], NoImagesWarning)
  | _ =>
      let sels := store_current_selection st in
      if String.eqb folder "" then (sels, [], ExportCancelled) else
      let selected_of p := sdict_get_default sels p [] in
      if (tile_size st =? 0) && existsb (fun pi => negb (is_nil (selected_of (fst pi)))) (images st)
      then (sels, [], ExportRaised ZeroDivisionError)
      else
        let written :=
          flat_map (fun pi =>
            let selected := selected_of (fst pi) in
            if is_nil selected then []
            else export_image_tiles save_ok folder (tile_size st) (fst pi) (snd pi) selected)
            (images st) in
        (sels, written,
         if length written =? 0 then NoTilesWarning else ExportComplete (length written))
  end.

(** Leading slashes of a list of characters removed. *)
Fixpoint drop_slashes (l : list Ascii.ascii) : list Ascii.ascii :=
  match l with
  | a :: t => if Ascii.eqb a slash then drop_slashes t else l
  | [] => []
  end.

(** [posixpath.dirname]: [head = p[:p.rfind('/') + 1]], stripped of its
    trailing slashes unless it is made of slashes only. *)
Definition dirname (p : string) : string :=
  let l := list_ascii_of_string p in
  let i := match rfind slash l with Some k => S k | None => 0 end in
  let head := firstn i l in
  if negb (is_nil head) && negb (forallb (Ascii.eqb slash) head)
  then string_of_list_ascii (rev (drop_slashes (rev head)))
  else string_of_list_ascii head.

(** Outcomes of [TileManager.export_classification]. *)
Inductive ClassificationExportOutcome :=
| CENoImagesWarning
| CECancelled
| CERaised (e : PyError)
| CEComplete (exported_selected exported_unselected : nat).

(** The files one image contributes to [export_classification]: every tile
    goes to [folder] when its index is selected and to [no_folder]
    otherwise. *)
Definition classify_image_tiles (save_ok : string -> bool) (folder no_folder : string)
  (tile_size : nat) (img_path : string) (img : Image) (selected : list nat)
  : list (string * Image) * list (string * Image) :=
  let tiles_x := ceil_div (img_width img) tile_size in
  let tiles_y := ceil_div (img_height img) tile_size in
  let padded := padded_image img tile_size in
  let image_name := image_stem img_path in
  let cells := flat_map (fun row => map (fun col => (row, col)) (seq 0 tiles_x)) (seq 0 tiles_y) in
  let save dir rc :=
    let path := path_join dir (tile_filename image_name (fst rc) (snd rc)) in
    if save_ok path then [(path, tile_img (tile_at padded tile_size (fst rc) (snd rc)))] else [] in
  (flat_map (fun rc => if set_mem (fst rc * tiles_x + snd rc) selected then save folder rc else []) cells,
   flat_map (fun rc => if set_mem (fst rc * tiles_x + snd rc) selected then [] else save no_folder rc) cells).

(** [no_folder = os.path.join(os.path.dirname(folder),
    f"no_{os.path.basename(folder)}")]. *)
Definition no_folder_of (folder : string) : string :=
  path_join (dirname folder) ("no_" ++ basename folder).

(** [TileManager.export_classification]: the stored selections, the files
    written to [folder] and to [no_folder], and the outcome. *)
Definition export_classification (save_ok : string -> bool) (folder : string) (st : AppState)
  : list (string * list nat) * list (string * Image) * list (string * Image) *
    ClassificationExportOutcome :=
  match images st with
  | [] => (image_tile_selections st, [], [], CENoImagesWarning)
  | _ =>
      let sels := store_current_selection st in
      if String.eqb folder "" then (sels, [], [], CECancelled) else
      if tile_size st =? 0 then (sels, [], [], CERaised ZeroDivisionError) else
      let no_folder := no_folder_of folder in
      let per_image := map (fun pi =>
        classify_image_tiles save_ok folder no_folder (tile_size st) (fst pi) (snd pi)
          (sdict_get_default sels (fst pi) [])) (images st) in
      let sel_written := flat_map fst per_image in
      let unsel_written := flat_map snd per_image in
      (sels, sel_written, unsel_written,
       CEComplete (length sel_written) (length unsel_written))
  end.

(** ** Classification in the tile selector *)
Section GuiClassifier.

(** The array [cv2.cvtColor(np.array(pil_img), cv2.COLOR_RGB2BGR)] of a
    tile image, [apply_band_correction(img_array,
    analyze_image_bands(img_array))], the first result of [detect_cloud]
    for the classifier's [cloud_threshold], and the features
    [classify_tile] computes from an array. *)
Variable Arr : Type.
Variable to_bgr : Image -> Arr.
Variable band_correct : Arr -> Arr.
Variable cloudy : Arr -> bool.
Variable features : Arr -> TileFeatures.

(** The loop of [LULCClassifier.classify_tiles] from index [i] on: the
    labels and the [progress_callback(i + 1, total)] calls; [None] is an
    exception of [classify_tile]. *)
Fixpoint classify_tiles_from (apply_color_correction filter_clouds : bool) (total i : nat)
  (tiles : list TileEntry) : option (list string * list (nat * nat)) :=
  match tiles with
  | [] => Some ([], [])
  | tile_info :: rest =>
      let img_array := to_bgr (tile_img (te_tile tile_info)) in
      let img_array := if apply_color_correction then band_correct img_array else img_array in
      let category :=
        if filter_clouds && cloudy img_array then Some "Cloud"%string
        else classify_tile (features img_array) in
      match category with
      | None => None
      | Some c =>
          match classify_tiles_from apply_color_correction filter_clouds total (S i) rest with
          | None => None
          | Some (cls, calls) => Some (c :: cls, (S i, total) :: calls)
          end
      end
  end.

Definition classify_tiles (apply_color_correction filter_clouds : bool) (tiles : list TileEntry)
  : option (list string * list (nat * nat)) :=
  classify_tiles_from apply_color_correction filter_clouds (length tiles) 0 tiles.

(** [TileSelector.classify_tiles_lulc] with its classifier
    [LULCClassifier(apply_color_correction=True, filter_clouds=True,
    cloud_threshold=0.7)]; no tiles is the warning, [None] an exception. *)
Definition classify_tiles_lulc (st : AppState) : option AppState :=
  match tiles st with
  | [] => Some st
  | _ =>
      match classify_tiles true true (tiles st) with
      | None => None
      | Some (cls, _) =>
          Some (mkAppState (images st) (current_image_index st) (tile_size st)
                  (current_padded_image st) (tiles st) (selected_tiles st)
                  (image_tile_selections st) cls (selected_tiles_for_category st)
                  (preprocess_enabled st) (preprocessed_image st) (zoom_level st)
                  (is_selecting st) (selection_mode st))
      end
  end.

End GuiClassifier.

(** [TileSelector.update_category_value]: [entry] is
    [int(value_var.get())], [None] when it raises [ValueError]. *)
Definition update_category_value (category : string) (entry : option Z) (category_values : dict)
  : dict :=
  match entry with
  | Some val => odict_set category_values category val
  | None => category_values
  end.

(** Writing the labels: [self.app.tile_classifications[i] = c] for an
    index [i] in range. *)
Fixpoint set_label (i : nat) (c : string) (l : list string) : list string :=
  match l, i with
  | [], _ => []
  | _ :: t, 0 => c :: t
  | x :: t, S i' => x :: set_label i' c t
  end.

(** [CanvasHandler._change_tile_category]. *)
Definition change_tile_category (tile_index : nat) (new_category : string) (st : AppState)
  : AppState :=
  if tile_index <? length (tile_classifications st) then
    mkAppState (images st) (current_image_index st) (tile_size st) (current_padded_image st)
      (tiles st) (selected_tiles st) (image_tile_selections st)
      (set_label tile_index new_category (tile_classifications st))
      (selected_tiles_for_category st) (preprocess_enabled st) (preprocessed_image st)
      (zoom_level st) (is_selecting st) (selection_mode st)
  else st.

(** The loop of [_batch_assign_category]: the labels and [count]. *)
Fixpoint batch_assign_loop (new_category : string) (sel : list nat) (cls : list string) (count : nat)
  : list string * nat :=
  match sel with
  | [] => (cls, count)
  | tile_index :: rest =>
      if tile_index <? length cls
      then batch_assign_loop new_category rest (set_label tile_index new_category cls) (S count)
      else batch_assign_loop new_category rest cls count
  end.

(** [CanvasHandler._batch_assign_category]: the new state and the [count]
    of the status message. *)
Definition batch_assign_category (new_category : string) (st : AppState) : AppState * nat :=
  let '(cls, count) :=
    batch_assign_loop new_category (selected_tiles_for_category st) (tile_classifications st) 0 in
  (mkAppState (images st) (current_image_index st) (tile_size st) (current_padded_image st)
     (tiles st) (selected_tiles st) (image_tile_selections st) cls []
     (preprocess_enabled st) (preprocessed_image st) (zoom_level st) (is_selecting st)
     (selection_mode st), count).

(** [exported_counts = {cat: 0 for cat in LULCClassifier.CATEGORIES}]. *)
Definition zero_counts : dict := map (fun c => (c, 0%Z)) CATEGORIES.

(** The loop of [export_lulc_tiles] over [zip(self.tiles,
    self.tile_classifications)]: the counts, [cloud_count] and the files
    written; [save_ok] tells whether [tile_info['tile_img'].save(filepath)]
    succeeds. *)
Fixpoint export_lulc_loop (save_ok : string -> bool) (base_folder : string)
  (pairs : list (TileEntry * string)) (exported_counts : dict) (cloud_count : nat)
  : dict * nat * list (string * Image) :=
  match pairs with
  | [] => (exported_counts, cloud_count, [])
  | (tile_info, category) :: rest =>
      if String.eqb category "Cloud" then
        export_lulc_loop save_ok base_folder rest exported_counts (S cloud_count)
      else if existsb (String.eqb category) CATEGORIES then
        let category_path := path_join base_folder category in
        let filename := lulc_tile_filename (te_image_name tile_info)
                          (tile_row (te_tile tile_info)) (tile_col (te_tile tile_info)) in
        let filepath := path_join category_path filename in
        if save_ok filepath then
          let '(counts, clouds, written) :=
            export_lulc_loop save_ok base_folder rest (dict_add category 1 exported_counts)
              cloud_count in
          (counts, clouds, (filepath, tile_img (te_tile tile_info)) :: written)
        else export_lulc_loop save_ok base_folder rest exported_counts cloud_count
      else export_lulc_loop save_ok base_folder rest exported_counts cloud_count
  end.

Inductive LulcExportOutcome :=
| LulcNotClassified
| LulcCancelled
| LulcExported (exported_counts : dict) (cloud_count : nat) (written : list (string * Image)).

(** [TileSelector.export_lulc_tiles]; [base_folder] is the result of
    [filedialog.askdirectory] ([""] when cancelled). *)
Definition export_lulc_tiles (save_ok : string -> bool) (base_folder : string) (st : AppState)
  : LulcExportOutcome :=
  match tile_classifications st with
  | [] => LulcNotClassified
  | _ =>
      if String.eqb base_folder "" then LulcCancelled else
      let '(counts, clouds, written) :=
        export_lulc_loop save_ok base_folder (combine (tiles st) (tile_classifications st))
          zero_counts 0 in
      LulcExported counts clouds written
  end.

(** The file [export_lulc_tiles] writes for a tile and its label:
    [os.path.join(os.path.join(base_folder, category), filename)]. *)
Definition lulc_export_path (base_folder : string) (p : TileEntry * string) : string :=
  path_join (path_join base_folder (snd p))
    (lulc_tile_filename (te_image_name (fst p)) (tile_row (te_tile (fst p))) (tile_col (te_tile (fst p)))).

Definition in_categories (c : string) : bool := existsb (String.eqb c) CATEGORIES.

(** ** Zoom *)
(** [self.min_zoom = 0.1] and [self.max_zoom = 5.0]. *)
Definition min_zoom : Q := 1 # 10.

Definition max_zoom : Q := 5.

(** Python's [min(a, b)] and [max(a, b)]: the first argument unless the
    second is strictly smaller (larger). *)
Definition py_min (a b : Q) : Q := if qlt b a then b else a.

Definition py_max (a b : Q) : Q := if qlt a b then b else a.

Definition set_zoom (st : AppState) (z : Q) : AppState :=
  mkAppState (images st) (current_image_index st) (tile_size st) (current_padded_image st)
    (tiles st) (selected_tiles st) (image_tile_selections st) (tile_classifications st)
    (selected_tiles_for_category st) (preprocess_enabled st) (preprocessed_image st) z
    (is_selecting st) (selection_mode st).

(** [CanvasHandler.zoom_in]: the new [zoom_level]; the recentring of the
    canvas view is not modelled. *)
Definition zoom_in (st : AppState) : AppState :=
  if qlt (zoom_level st) max_zoom
  then set_zoom st (py_min (zoom_level st * (6 # 5)) max_zoom)
  else st.

(** [CanvasHandler.zoom_out]. *)
Definition zoom_out (st : AppState) : AppState :=
  if qlt min_zoom (zoom_level st)
  then set_zoom st (py_max (zoom_level st / (6 # 5)) min_zoom)
  else st.

(** [CanvasHandler.zoom_reset]. *)
Definition zoom_reset (st : AppState) : AppState := set_zoom st 1.

(** ** Batch classification of [lulc_dataset.py] *)
(** A source image of the batch classifier: its [image_path.stem], its
    size as [cv2.imread] loads it ([None] when loading fails), and what
    [detect_cloud] (first result) and [classify_tile] compute from each tile
    slice [(row, col, y_start, x_start)] of the (corrected) image. *)
Record SourceImage := mkSourceImage {
  src_name : string;
  src_dims : option (nat * nat);
  src_cloudy : nat * nat * nat * nat -> bool;
  src_features : nat * nat * nat * nat -> TileFeatures
}.

(** [sum(self.tile_counts.values())]. *)
Definition dict_total (d : dict) : Z := fold_right Z.add 0%Z (map snd d).

(** The loop of [LULCTileClassifier.process_image] over the extracted
    tiles: [tile_counts], [cloud_filtered_count] and the files
    [output_folder / category / filename] written by [save_tile], as
    [(category, filename)]; [None] is an exception ([classify_tile]
    failing, or [KeyError] in [self.tile_counts[category] += 1]). *)
Fixpoint process_tiles (filter_clouds : bool) (image_name : string)
  (cloudy : nat * nat * nat * nat -> bool) (features : nat * nat * nat * nat -> TileFeatures)
  (tiles : list (nat * nat * nat * nat)) (tile_counts : dict) (cloud_filtered_count : nat)
  : option (dict * nat * list (string * string)) :=
  match tiles with
  | [] => Some (tile_counts, cloud_filtered_count, [])
  | tile :: rest =>
      let '(row, col, _, _) := tile in
      if filter_clouds && cloudy tile then
        process_tiles filter_clouds image_name cloudy features rest tile_counts (S cloud_filtered_count)
      else
        match classify_tile (features tile) with
        | None => None
        | Some category =>
            match dict_get tile_counts category with
            | None => None
            | Some _ =>
                match process_tiles filter_clouds image_name cloudy features rest
                        (dict_add category 1 tile_counts) cloud_filtered_count with
                | None => None
                | Some (counts, clouds, saved) =>
                    Some (counts, clouds, (category, lulc_tile_filename image_name row col) :: saved)
                end
            end
        end
  end.

(** [LULCTileClassifier.process_image]. *)
Definition process_image (tile_size : Z) (apply_color_correction filter_clouds : bool)
  (src : SourceImage) (tile_counts : dict) (cloud_filtered_count : nat)
  : option (dict * nat * list (string * string)) :=
  match snd (extract_tiles tile_size apply_color_correction (src_name src) (src_dims src)) with
  | inl _ => None
  | inr tiles =>
      process_tiles filter_clouds (src_name src) (src_cloudy src) (src_features src) tiles
        tile_counts cloud_filtered_count
  end.

(** The loop [for image_path in image_files: self.process_image(image_path)]
    of [process_all_images]. *)
Fixpoint process_images (tile_size : Z) (apply_color_correction filter_clouds : bool)
  (image_files : list SourceImage) (tile_counts : dict) (cloud_filtered_count : nat)
  : option (dict * nat * list (string * string)) :=
  match image_files with
  | [] => Some (tile_counts, cloud_filtered_count, [])
  | src :: rest =>
      match process_image tile_size apply_color_correction filter_clouds src tile_counts
              cloud_filtered_count with
      | None => None
      | Some (counts, clouds, saved) =>
          match process_images tile_size apply_color_correction filter_clouds rest counts clouds with
          | None => None
          | Some (counts', clouds', saved') => Some (counts', clouds', saved ++ saved')
          end
      end
  end.

(** The number of whole tiles [extract_tiles] cuts from a source image. *)
Definition whole_tiles (tile_size : Z) (src : SourceImage) : nat :=
  match src_dims src with
  | Some (width, height) => height / Z.to_nat tile_size * (width / Z.to_nat tile_size)
  | None => 0
  end.

(** What [CanvasHandler.display_grid] draws for tile [i]: its rectangle
    [(x, y, x2, y2)], the category whose colour overlays it ([None]: no
    overlay) and whether it is highlighted as selected. *)
Record TileMark := mkTileMark {
  mark_index : nat;
  mark_x : Z; mark_y : Z; mark_x2 : Z; mark_y2 : Z;
  mark_overlay : option string;
  mark_highlight : bool
}.

(** What [CanvasHandler.display_grid] ends in: the early return without a
    padded image, the [ValueError] of
    [current_padded_image.resize((zoomed_width, zoomed_height))], or the
    marks drawn. *)
Inductive DisplayOutcome :=
| NotDisplayed
| DisplayValueError
| Displayed (marks : list TileMark).

(** [CanvasHandler.display_grid] with [self.app.overlay_visible]. Pillow's
    [resize] returns a copy when the size is unchanged and otherwise raises
    [ValueError] when a side is not positive. The loop over
    [enumerate(self.app.tiles)] reads only each tile's [x] and [y]. The
    hand-tool variant of the overlay style is not distinguished. *)
Definition display_grid (overlay_visible : bool) (st : AppState) : DisplayOutcome :=
  match current_padded_image st with
  | None => NotDisplayed
  | Some padded =>
      let zoom := zoom_level st in
      let padded_width := Z.of_nat (img_width padded) in
      let padded_height := Z.of_nat (img_height padded) in
      let zoomed_width := py_int (inject_Z padded_width * zoom) in
      let zoomed_height := py_int (inject_Z padded_height * zoom) in
      if negb ((zoomed_width =? padded_width)%Z && (zoomed_height =? padded_height)%Z) &&
         ((zoomed_width <=? 0)%Z || (zoomed_height <=? 0)%Z)
      then DisplayValueError
      else
      let tile_size_zoomed := py_int (inject_Z (Z.of_nat (tile_size st)) * zoom) in
      let selected_set := if classified st then selected_tiles_for_category st else selected_tiles st in
      Displayed (map (fun p =>
        let '(i, tile) := p in
        let x := py_int (inject_Z (Z.of_nat (tile_x tile)) * zoom) in
        let y := py_int (inject_Z (Z.of_nat (tile_y tile)) * zoom) in
        let overlay :=
          if classified st && overlay_visible then
            match nth_error (tile_classifications st) i with
            | Some category => if skipped_label category then None else Some category
            | None => None
            end
          else None in
        mkTileMark i x y (x + tile_size_zoomed) (y + tile_size_zoomed) overlay (set_mem i selected_set))
        (combine (seq 0 (length (tiles st))) (map te_tile (tiles st))))
  end.

(** A mark with its highlight flipped when it is tile [i]'s. *)
Definition flip_mark (i : nat) (m : TileMark) : TileMark :=
  if mark_index m =? i then
    mkTileMark (mark_index m) (mark_x m) (mark_y m) (mark_x2 m) (mark_y2 m) (mark_overlay m)
      (negb (mark_highlight m))
  else m.

(** The [event.data] of a drop: a string, a list or tuple of paths, or
    anything else. *)
Inductive DropData := DropStr (data : string) | DropSeq (items : list string) | DropOther.

Definition is_brace (c : Ascii.ascii) : bool := Ascii.eqb c "{"%char || Ascii.eqb c "}"%char.

Fixpoint lstrip_braces (l : list Ascii.ascii) : list Ascii.ascii :=
  match l with
  | c :: t => if is_brace c then lstrip_braces t else l
  | [] => []
  end.

(** [s.strip('{}')]. *)
Definition strip_braces (s : string) : string :=
  string_of_list_ascii (rev (lstrip_braces (rev (lstrip_braces (list_ascii_of_string s))))).

(** ['} {' in s]. *)
Fixpoint has_sep (l : list Ascii.ascii) : bool :=
  match l with
  | "}"%char :: " "%char :: "{"%char :: _ => true
  | _ :: t => has_sep t
  | [] => false
  end.

(** [s.split('} {')], the current piece kept reversed in [cur]. *)
Fixpoint split_sep (l : list Ascii.ascii) (cur : list Ascii.ascii) : list (list Ascii.ascii) :=
  match l with
  | "}"%char :: " "%char :: "{"%char :: t => rev cur :: split_sep t []
  | c :: t => split_sep t (c :: cur)
  | [] => [rev cur]
  end.

(** [ImageHandler._parse_drop_data]. *)
Definition parse_drop_data (d : DropData) : list string :=
  match d with
  | DropStr data =>
      let data := strip_braces data in
      if has_sep (list_ascii_of_string data) then
        map (fun f => strip_braces (string_of_list_ascii f)) (split_sep (list_ascii_of_string data) [])
      else [data]
  | DropSeq items => items
  | DropOther => []
  end.

Definition brace_free (s : string) : bool := forallb (fun c => negb (is_brace c)) (list_ascii_of_string s).

Definition lbrace_free (l : list Ascii.ascii) : Prop := forall c, In c l -> is_brace c = false.

Definition sep_chars : list Ascii.ascii := ["}"%char; " "%char; "{"%char].

(** Example sessions: two 2x2 black images, tile size 1, before tiling and
    once tiled with the classifications [cls]. *)
Definition example_image : Image := mkImage 2 2 (fun _ _ => black).

Definition example_session : AppState :=
  mkAppState [("a/x.png", example_image); ("a/y.png", example_image)]%string 0 1 None [] []
    [] [] [] false None 1 false None.

Definition example_tiled (cls : list string) : AppState :=
  mkAppState [("a/x.png", example_image); ("a/y.png", example_image)]%string 0 1
    (Some (padded_image example_image 1))
    (map (fun t => mkTileEntry "x" t false) (tiles_of example_image 1)) [] [] cls [] false None 1
    false None.

Definition example_features (tile : nat * nat * nat * nat) : TileFeatures :=
  mkFeatures 50 50 100 0 40 130 (15 # 100) 0 10.

Definition example_feature_values : TileFeatures := mkFeatures 50 50 100 0 40 130 (15 # 100) 0 10.

(* ================================================================== *)
(** * Properties *)

Open Scope Q_scope.

Lemma qlt_spec (a b : Q) : qlt a b = true <-> a < b.
Proof.
  unfold qlt. rewrite negb_true_iff. split.
  - intros H. apply Qnot_le_lt. intros Hle.
    apply Qle_bool_iff in Hle. congruence.
  - intros H. destruct (Qle_bool b a) eqn:E; [|reflexivity].
    apply Qle_bool_iff in E. exfalso. apply (Qlt_not_le a b H E).
Qed.

Lemma qle_spec (a b : Q) : qle a b = true <-> a <= b.
Proof. unfold qle. apply Qle_bool_iff. Qed.

Lemma qle_negb_qlt (a b : Q) : qle b a = negb (qlt a b).
Proof. unfold qle, qlt. rewrite negb_involutive. reflexivity. Qed.


(** ** Tile classifier *)

Section ClassifierExamples.
Let tie_tile := mkFeatures 50 50 100 0 40 130 (15 # 100) 0 10.
Example fallback_reached_on_tie_tile : classify_rules tie_tile = None.
Proof. reflexivity. Qed.
Example fallback_scores_tie_tile :
  fallback_scores tie_tile =
    [("Pasture", 1%Z); ("HerbaceousVegetation", 1%Z); ("Industrial", 0%Z);
     ("Forest", 1%Z); ("AnnualCrop", 1%Z)]%string.
Proof. reflexivity. Qed.
Example classify_tie_tile : classify_tile tie_tile = Some "Pasture"%string.
Proof. reflexivity. Qed.
End ClassifierExamples.

Ltac destruct_ifs :=
  repeat match goal with
         | |- context [if ?b then _ else _] => destruct b
         end.

Lemma classify_rules_in_categories (f : TileFeatures) (c : string) :
  classify_rules f = Some c -> In c CATEGORIES.
Proof.
  unfold classify_rules, or_else, water_rule, residential_rule, highway_rule,
    forest_rule, annual_crop_rule, permanent_crop_rule, vegetation_rule,
    industrial_rule.
  destruct_ifs; intros H; inversion H; subst; simpl; tauto.
Qed.

Lemma fallback_scores_of (f : TileFeatures) :
  fallback_scores f =
  scores_of (qlt (34 # 100) (g_ratio f)) (qlt (10 # 100) (edge_density f)) (qlt 120 (brightness f)).
Proof. reflexivity. Qed.

(** The result of [max(d, key=d.get)] is the first key carrying the
    maximal value: every earlier value is strictly smaller and every later
    value is at most as large. *)
Lemma max_key_from_first_max (rest : dict) :
  forall (pre mid : dict) (best : string * Z),
    Forall (fun kv => (snd kv < snd best)%Z) pre ->
    Forall (fun kv => (snd kv <= snd best)%Z) mid ->
    exists pre' v post,
      pre ++ best :: mid ++ rest = pre' ++ (max_key_from best rest, v) :: post /\
      Forall (fun kv => (snd kv < v)%Z) pre' /\
      Forall (fun kv => (snd kv <= v)%Z) post.
Proof.
  induction rest as [| [k w] rest IH]; intros pre mid best Hpre Hmid; simpl.
  - exists pre, (snd best), mid. rewrite app_nil_r. destruct best as [k v]; simpl.
    split; [reflexivity | split; assumption].
  - destruct (Z.ltb_spec (snd best) w) as [Hlt | Hge].
    + destruct (IH (pre ++ best :: mid) [] (k, w)) as (pre' & v & post & Heq & H1 & H2).
      * apply Forall_app; split.
        -- eapply Forall_impl; [| exact Hpre]. simpl; intros; lia.
        -- constructor; [simpl; lia |].
           eapply Forall_impl; [| exact Hmid]. simpl; intros; lia.
      * constructor.
      * exists pre', v, post. split; [| split; assumption].
        rewrite <- Heq. rewrite <- app_assoc. reflexivity.
    + destruct (IH pre (mid ++ [(k, w)]) best Hpre) as (pre' & v & post & Heq & H1 & H2).
      * apply Forall_app; split; [exact Hmid | constructor; [simpl; lia | constructor]].
      * exists pre', v, post. split; [| split; assumption].
        rewrite <- Heq. rewrite <- app_assoc. reflexivity.
Qed.

Lemma dict_max_key_first_max (d : dict) (c : string) :
  dict_max_key d = Some c ->
  exists pre v post,
    d = pre ++ (c, v) :: post /\
    Forall (fun kv => (snd kv < v)%Z) pre /\
    Forall (fun kv => (snd kv <= v)%Z) post.
Proof.
  destruct d as [| kv t]; simpl; intros H; [discriminate |].
  injection H as <-.
  destruct (max_key_from_first_max t [] [] kv) as (pre & v & post & Heq & H1 & H2);
    [constructor | constructor |].
  exists pre, v, post. split; [exact Heq | split; assumption].
Qed.

(** C1: on every feature vector, [classify_tile] returns (it never raises)
    one of the ten land-cover categories, and never ["Cloud"]. *)
Theorem classify_tile_total (f : TileFeatures) :
  exists c, classify_tile f = Some c /\ In c CATEGORIES /\ c <> "Cloud"%string.
Proof.
  unfold classify_tile.
  destruct (classify_rules f) as [c |] eqn:E.
  - exists c. split; [reflexivity |].
    pose proof (classify_rules_in_categories f c E) as Hin. split; [exact Hin |].
    intros ->. simpl in Hin. intuition discriminate.
  - rewrite fallback_scores_of.
    destruct (qlt (34 # 100) (g_ratio f)), (qlt (10 # 100) (edge_density f)),
      (qlt 120 (brightness f));
      (eexists; split; [reflexivity | split; [simpl; tauto | discriminate]]).
Qed.

(** C2: when no cascade rule fires, the scores are kept in the fixed order
    Pasture, HerbaceousVegetation, Industrial, Forest, AnnualCrop, and the
    returned category is the first one of that order whose score is maximal:
    every category before it scores strictly less, every one after it at
    most as much. *)
Theorem fallback_tie_break_first_max (f : TileFeatures) :
  classify_rules f = None ->
  map fst (fallback_scores f) =
    ["Pasture"; "HerbaceousVegetation"; "Industrial"; "Forest"; "AnnualCrop"]%string /\
  exists c pre v post,
    classify_tile f = Some c /\
    fallback_scores f = pre ++ (c, v) :: post /\
    Forall (fun kv => (snd kv < v)%Z) pre /\
    Forall (fun kv => (snd kv <= v)%Z) post.
Proof.
  intros Hnone. split.
  - rewrite fallback_scores_of.
    destruct (qlt (34 # 100) (g_ratio f)), (qlt (10 # 100) (edge_density f)),
      (qlt 120 (brightness f)); reflexivity.
  - unfold classify_tile. rewrite Hnone.
    assert (Hne : exists c, dict_max_key (fallback_scores f) = Some c).
    { rewrite fallback_scores_of.
      destruct (qlt (34 # 100) (g_ratio f)), (qlt (10 # 100) (edge_density f)),
        (qlt 120 (brightness f)); eexists; reflexivity. }
    destruct Hne as [c Hc]. rewrite Hc.
    destruct (dict_max_key_first_max _ _ Hc) as (pre & v & post & H1 & H2 & H3).
    exists c, pre, v, post. repeat split; assumption.
Qed.

Lemma fallback_tie_break_first_max_witness :
  classify_rules (mkFeatures 50 50 100 0 40 130 (15 # 100) 0 10) = None /\
  classify_tile (mkFeatures 50 50 100 0 40 130 (15 # 100) 0 10) = Some "Pasture"%string /\
  (map fst (fallback_scores (mkFeatures 50 50 100 0 40 130 (15 # 100) 0 10)) =
    ["Pasture"; "HerbaceousVegetation"; "Industrial"; "Forest"; "AnnualCrop"]%string /\
  exists c pre v post,
    classify_tile (mkFeatures 50 50 100 0 40 130 (15 # 100) 0 10) = Some c /\
    fallback_scores (mkFeatures 50 50 100 0 40 130 (15 # 100) 0 10) = pre ++ (c, v) :: post /\
    Forall (fun kv => (snd kv < v)%Z) pre /\
    Forall (fun kv => (snd kv <= v)%Z) post).
Proof.
  split; [reflexivity |]. split; [reflexivity |].
  apply fallback_tie_break_first_max. reflexivity.
Defined.

(** C9: the fallback never returns AnnualCrop; its range is Pasture,
    HerbaceousVegetation, Industrial and Forest. *)
Theorem fallback_never_annual_crop (f : TileFeatures) :
  classify_rules f = None ->
  exists c, classify_tile f = Some c /\
    In c ["Pasture"; "HerbaceousVegetation"; "Industrial"; "Forest"]%string.
Proof.
  intros Hnone. unfold classify_tile. rewrite Hnone, fallback_scores_of.
  destruct (qlt (34 # 100) (g_ratio f)), (qlt (10 # 100) (edge_density f)),
    (qlt 120 (brightness f)); (eexists; split; [reflexivity | simpl; tauto]).
Qed.

Lemma fallback_never_annual_crop_witness :
  classify_rules (mkFeatures 50 50 100 0 40 130 (15 # 100) 0 10) = None /\
  exists c, classify_tile (mkFeatures 50 50 100 0 40 130 (15 # 100) 0 10) = Some c /\
    In c ["Pasture"; "HerbaceousVegetation"; "Industrial"; "Forest"]%string.
Proof.
  split; [reflexivity |].
  apply fallback_never_annual_crop. reflexivity.
Defined.

(** ** Band statistics analyzer *)

Lemma channel_sum_zero (img : bgr_image) (ch : Z * Z * Z -> Z) :
  ch (0%Z, 0%Z, 0%Z) = 0%Z ->
  Forall (fun p => p = (0%Z, 0%Z, 0%Z)) img ->
  fold_right Z.add 0%Z (map ch img) = 0%Z.
Proof.
  intros Hch Hz. induction Hz as [| p img Hp _ IH]; simpl; [reflexivity |].
  subst p. rewrite Hch, IH. reflexivity.
Qed.

Lemma np_mean_all_zero (img : bgr_image) (ch : Z * Z * Z -> Z) :
  img <> [] -> ch (0%Z, 0%Z, 0%Z) = 0%Z ->
  Forall (fun p => p = (0%Z, 0%Z, 0%Z)) img ->
  exists q, np_mean ch img = Fin q /\ q == 0.
Proof.
  intros Hne Hch Hz. unfold np_mean. rewrite (channel_sum_zero img ch Hch Hz).
  destruct img as [| p img]; [congruence |]. simpl length.
  unfold fdiv.
  replace (Qeq_bool (inject_Z (Z.of_nat (S (length img)))) 0) with false.
  - eexists. split; [reflexivity |]. reflexivity.
  - symmetry. apply not_true_iff_false. rewrite Qeq_bool_iff.
    unfold inject_Z, Qeq. simpl. lia.
Qed.

Lemma fdiv_zero_zero (x y : Q) : x == 0 -> y == 0 -> fdiv (Fin x) (Fin y) = NaN.
Proof.
  intros Hx Hy. unfold fdiv.
  apply Qeq_bool_iff in Hx, Hy. rewrite Hx, Hy. reflexivity.
Qed.

(** C5 (as the code does it): on a non-empty all-zero image the analyzer
    does not fall back to thirds; [total_mean] is 0, every ratio is the
    numpy float division [0/0], i.e. NaN, and [green_bias] ([NaN > 0.40])
    is false.  No error is raised: the analyzer is a total function. *)
Theorem analyze_all_zero_ratios_nan (img : bgr_image) :
  img <> [] ->
  Forall (fun p => p = (0%Z, 0%Z, 0%Z)) img ->
  blue_ratio (analyze_image_bands img) = NaN /\
  green_ratio (analyze_image_bands img) = NaN /\
  red_ratio (analyze_image_bands img) = NaN /\
  green_bias (analyze_image_bands img) = false.
Proof.
  intros Hne Hz.
  destruct (np_mean_all_zero img channel_b Hne eq_refl Hz) as (qb & Hb & Eb).
  destruct (np_mean_all_zero img channel_g Hne eq_refl Hz) as (qg & Hg & Eg).
  destruct (np_mean_all_zero img channel_r Hne eq_refl Hz) as (qr & Hr & Er).
  unfold analyze_image_bands. rewrite Hb, Hg, Hr.
  cbn [fadd blue_ratio green_ratio red_ratio green_bias].
  assert (Et : qb + qg + qr == 0) by (rewrite Eb, Eg, Er; reflexivity).
  rewrite (fdiv_zero_zero qb _ Eb Et), (fdiv_zero_zero qg _ Eg Et),
    (fdiv_zero_zero qr _ Er Et).
  repeat split.
Qed.

Lemma analyze_all_zero_ratios_nan_witness :
  [(0%Z, 0%Z, 0%Z); (0%Z, 0%Z, 0%Z)] <> [] /\
  Forall (fun p => p = (0%Z, 0%Z, 0%Z)) [(0%Z, 0%Z, 0%Z); (0%Z, 0%Z, 0%Z)] /\
  (blue_ratio (analyze_image_bands [(0%Z, 0%Z, 0%Z); (0%Z, 0%Z, 0%Z)]) = NaN /\
   green_ratio (analyze_image_bands [(0%Z, 0%Z, 0%Z); (0%Z, 0%Z, 0%Z)]) = NaN /\
   red_ratio (analyze_image_bands [(0%Z, 0%Z, 0%Z); (0%Z, 0%Z, 0%Z)]) = NaN /\
   green_bias (analyze_image_bands [(0%Z, 0%Z, 0%Z); (0%Z, 0%Z, 0%Z)]) = false).
Proof.
  assert (Hne : [(0%Z, 0%Z, 0%Z); (0%Z, 0%Z, 0%Z)] <> []) by discriminate.
  assert (Hz : Forall (fun p => p = (0%Z, 0%Z, 0%Z)) [(0%Z, 0%Z, 0%Z); (0%Z, 0%Z, 0%Z)])
    by (repeat constructor).
  split; [exact Hne |]. split; [exact Hz |].
  exact (analyze_all_zero_ratios_nan _ Hne Hz).
Defined.

(** C5 refuted: on the one-pixel black image the ratios are not [1/3]. *)
Lemma analyze_all_zero_not_thirds :
  ~ (blue_ratio (analyze_image_bands [(0%Z, 0%Z, 0%Z)]) = Fin (1 # 3) /\
     green_ratio (analyze_image_bands [(0%Z, 0%Z, 0%Z)]) = Fin (1 # 3) /\
     red_ratio (analyze_image_bands [(0%Z, 0%Z, 0%Z)]) = Fin (1 # 3) /\
     green_bias (analyze_image_bands [(0%Z, 0%Z, 0%Z)]) = false).
Proof. vm_compute. intros (H & _). discriminate H. Qed.

(** ** Tiling engine *)

Open Scope nat_scope.

Lemma cell_iff (T x c : nat) : 0 < T -> (c * T <= x /\ x < c * T + T) <-> c = x / T.
Proof.
  intros HT. split.
  - intros [H1 H2]. apply (Nat.div_unique x T c (x - c * T)); lia.
  - intros ->. pose proof (Nat.div_mod_eq x T) as Hd.
    pose proof (Nat.mod_upper_bound x T ltac:(lia)) as Hm. nia.
Qed.

Lemma cell_bool (T x c : nat) : 0 < T -> (c * T <=? x) && (x <? c * T + T) = (c =? x / T).
Proof.
  intros HT. destruct (Nat.eqb_spec c (x / T)) as [E | E].
  - apply (cell_iff T x c HT) in E as [H1 H2].
    apply andb_true_intro. split; [apply Nat.leb_le | apply Nat.ltb_lt]; lia.
  - destruct (Nat.leb_spec (c * T) x), (Nat.ltb_spec x (c * T + T)); try reflexivity.
    exfalso. apply E. apply (cell_iff T x c HT). lia.
Qed.

Lemma covers_tile_at (p : Image) (T row col x y : nat) : 0 < T ->
  covers x y (tile_at p T row col) = (col =? x / T) && (row =? y / T).
Proof.
  intros HT. unfold covers, tile_at, crop. cbn [tile_x tile_y tile_img img_width img_height].
  replace (col * T + T - col * T) with T by lia.
  replace (row * T + T - row * T) with T by lia.
  rewrite <- (cell_bool T x col HT), <- (cell_bool T y row HT).
  rewrite !andb_assoc. reflexivity.
Qed.

Lemma length_filter_map {A B} (p : B -> bool) (g : A -> B) (l : list A) :
  length (filter p (map g l)) = length (filter (fun a => p (g a)) l).
Proof.
  induction l as [| a l IH]; simpl; [reflexivity |].
  destruct (p (g a)); simpl; rewrite IH; reflexivity.
Qed.

Lemma length_filter_flat_map {A B} (p : B -> bool) (g : A -> list B) (l : list A) :
  length (filter p (flat_map g l)) = list_sum (map (fun a => length (filter p (g a))) l).
Proof.
  induction l as [| a l IH]; simpl; [reflexivity |].
  rewrite filter_app, length_app, IH. reflexivity.
Qed.

Lemma list_sum_indicator {A} (p : A -> bool) (l : list A) :
  list_sum (map (fun a => if p a then 1 else 0) l) = length (filter p l).
Proof.
  induction l as [| a l IH]; simpl; [reflexivity |].
  destruct (p a); simpl; rewrite IH; reflexivity.
Qed.

Lemma length_filter_false {A} (l : list A) : length (filter (fun _ => false) l) = 0.
Proof. induction l; simpl; auto. Qed.

Lemma count_eqb_seq (k s n : nat) :
  length (filter (fun c => c =? k) (seq s n)) = if (s <=? k) && (k <? s + n) then 1 else 0.
Proof.
  revert s. induction n as [| n IH]; intros s; simpl.
  - destruct (Nat.leb_spec s k), (Nat.ltb_spec k (s + 0)); simpl; lia.
  - destruct (Nat.eqb_spec s k) as [-> | Ne]; simpl; rewrite IH.
    + destruct (Nat.leb_spec (S k) k), (Nat.ltb_spec k (S k + n)),
        (Nat.leb_spec k k), (Nat.ltb_spec k (k + S n)); simpl; lia.
    + destruct (Nat.leb_spec (S s) k), (Nat.ltb_spec k (S s + n)),
        (Nat.leb_spec s k), (Nat.ltb_spec k (s + S n)); simpl; lia.
Qed.

Lemma row_cover_count (p : Image) (tx T row x y : nat) : 0 < T -> x < tx * T ->
  length (filter (covers x y) (map (tile_at p T row) (seq 0 tx))) =
  if row =? y / T then 1 else 0.
Proof.
  intros HT Hx. rewrite length_filter_map.
  rewrite (filter_ext _ (fun c => (c =? x / T) && (row =? y / T)))
    by (intros c; apply covers_tile_at; exact HT).
  assert (Hq : x / T < tx) by (apply Nat.Div0.div_lt_upper_bound; lia).
  destruct (row =? y / T).
  - rewrite (filter_ext _ (fun c => c =? x / T)) by (intros c; apply andb_true_r).
    rewrite count_eqb_seq.
    destruct (Nat.leb_spec 0 (x / T)), (Nat.ltb_spec (x / T) (0 + tx)); simpl; lia.
  - rewrite (filter_ext _ (fun _ => false)) by (intros c; apply andb_false_r).
    apply length_filter_false.
Qed.

Lemma generate_tiles_cover_once (p : Image) (tx ty T x y : nat) :
  0 < T -> x < tx * T -> y < ty * T ->
  length (filter (covers x y) (generate_tiles p tx ty T)) = 1.
Proof.
  intros HT Hx Hy. unfold generate_tiles. rewrite length_filter_flat_map.
  rewrite (map_ext_in _ (fun row => if row =? y / T then 1 else 0)).
  - rewrite list_sum_indicator, count_eqb_seq.
    assert (Hq : y / T < ty) by (apply Nat.Div0.div_lt_upper_bound; lia).
    destruct (Nat.leb_spec 0 (y / T)), (Nat.ltb_spec (y / T) (0 + ty)); simpl; lia.
  - intros row _. apply row_cover_count; assumption.
Qed.

Lemma length_grid {B} (g : nat -> nat -> B) (tx ty s : nat) :
  length (flat_map (fun r => map (g r) (seq 0 tx)) (seq s ty)) = ty * tx.
Proof.
  revert s. induction ty as [| ty IH]; intros s; simpl; [reflexivity |].
  rewrite length_app, length_map, length_seq, IH. reflexivity.
Qed.

Lemma nth_error_grid {B} (g : nat -> nat -> B) (tx : nat) : 0 < tx ->
  forall ty s k, k < ty * tx ->
  nth_error (flat_map (fun r => map (g r) (seq 0 tx)) (seq s ty)) k =
  Some (g (s + k / tx) (k mod tx)).
Proof.
  intros Htx ty. induction ty as [| ty IH]; intros s k Hk; simpl in *; [lia |].
  destruct (Nat.ltb_spec k tx) as [Hlt | Hge].
  - rewrite nth_error_app1 by (rewrite length_map, length_seq; exact Hlt).
    rewrite nth_error_map, nth_error_seq.
    destruct (Nat.ltb_spec k tx); [| lia]. simpl.
    rewrite Nat.div_small, Nat.mod_small by exact Hlt. rewrite Nat.add_0_r. reflexivity.
  - rewrite nth_error_app2 by (rewrite length_map, length_seq; exact Hge).
    rewrite length_map, length_seq, IH by lia.
    assert (E1 : k / tx = (k - tx) / tx + 1).
    { replace k with ((k - tx) + 1 * tx) at 1 by lia. apply Nat.div_add. lia. }
    assert (E2 : k mod tx = (k - tx) mod tx).
    { replace k with ((k - tx) + 1 * tx) at 1 by lia. apply Nat.Div0.mod_add. }
    rewrite E1, E2.
    replace (S s + (k - tx) / tx) with (s + ((k - tx) / tx + 1)) by lia. reflexivity.
Qed.

Lemma ceil_div_bounds (a T : nat) : 0 < T ->
  a <= ceil_div a T * T /\ ceil_div a T * T < a + T.
Proof.
  intros HT. unfold ceil_div.
  pose proof (Nat.div_mod_eq (a + T - 1) T) as Hd.
  pose proof (Nat.mod_upper_bound (a + T - 1) T ltac:(lia)) as Hm.
  split; nia.
Qed.

Lemma in_generate_tiles (p : Image) (tx ty T : nat) (t : Tile) :
  In t (generate_tiles p tx ty T) ->
  exists row col, row < ty /\ col < tx /\ t = tile_at p T row col.
Proof.
  unfold generate_tiles. rewrite in_flat_map. intros (row & Hrow & Ht).
  apply in_map_iff in Ht as (col & <- & Hcol).
  apply in_seq in Hrow, Hcol. exists row, col. repeat split; lia.
Qed.

(** The tiling of [TileManager.apply_tile_size]: with a positive tile size
    [T], the canvas is the image pasted at the origin of a black
    [ceil(W/T)*T x ceil(H/T)*T] canvas; there are [ceil(W/T) * ceil(H/T)]
    tiles in row-major order; each is a [T x T] crop of the canvas at
    [(col*T, row*T)]; and every canvas pixel, in particular every pixel of
    the original image, lies in exactly one tile. *)
Lemma tiles_of_partition (img : Image) (T : nat) :
  0 < T ->
  let W := img_width img in
  let H := img_height img in
  let tiles_x := ceil_div W T in
  let tiles_y := ceil_div H T in
  let padded := padded_image img T in
  let ts := tiles_of img T in
  img_width padded = tiles_x * T /\ img_height padded = tiles_y * T /\
  (forall x y, x < W -> y < H -> img_px padded x y = img_px img x y) /\
  (forall x y, ~ (x < W /\ y < H) -> img_px padded x y = black) /\
  length ts = tiles_x * tiles_y /\
  (forall k, k < length ts ->
     exists t, nth_error ts k = Some t /\
       tile_row t = k / tiles_x /\ tile_col t = k mod tiles_x) /\
  (forall t, In t ts ->
     tile_x t = tile_col t * T /\ tile_y t = tile_row t * T /\
     img_width (tile_img t) = T /\ img_height (tile_img t) = T /\
     forall i j, i < T -> j < T ->
       img_px (tile_img t) i j = img_px padded (tile_x t + i) (tile_y t + j)) /\
  (forall x y, x < tiles_x * T -> y < tiles_y * T ->
     length (filter (covers x y) ts) = 1) /\
  (forall x y, x < W -> y < H -> length (filter (covers x y) ts) = 1).
Proof.
  intros HT W H tiles_x tiles_y padded ts.
  change ts with (generate_tiles padded tiles_x tiles_y T).
  destruct (ceil_div_bounds W T HT) as [HW _].
  destruct (ceil_div_bounds H T HT) as [HH _].
  fold tiles_x in HW. fold tiles_y in HH.
  assert (Hcover : forall x y, x < tiles_x * T -> y < tiles_y * T ->
                   length (filter (covers x y) ts) = 1).
  { intros x y Hx Hy. apply generate_tiles_cover_once; assumption. }
  split; [reflexivity |]. split; [reflexivity |].
  split.
  { intros x y Hx Hy. cbn [padded padded_image new_and_paste img_px].
    fold W H tiles_x tiles_y.
    destruct (Nat.ltb_spec x W), (Nat.ltb_spec y H), (Nat.ltb_spec x (tiles_x * T)),
      (Nat.ltb_spec y (tiles_y * T)); simpl; try reflexivity; lia. }
  split.
  { intros x y Hn. cbn [padded padded_image new_and_paste img_px].
    fold W H.
    destruct (Nat.ltb_spec x W), (Nat.ltb_spec y H); simpl; try reflexivity; tauto. }
  split.
  { unfold generate_tiles. rewrite length_grid. apply Nat.mul_comm. }
  split.
  { intros k Hk. unfold generate_tiles in *.
    rewrite length_grid in Hk.
    assert (Htx : 0 < tiles_x) by (destruct tiles_x; lia).
    rewrite (nth_error_grid (tile_at padded T) tiles_x Htx tiles_y 0 k Hk).
    eexists. split; [reflexivity |]. split; reflexivity. }
  split.
  { intros t Ht. apply in_generate_tiles in Ht as (row & col & Hrow & Hcol & ->).
    unfold tile_at, crop. cbn [tile_x tile_y tile_row tile_col tile_img img_width img_height img_px].
    split; [reflexivity |]. split; [reflexivity |].
    split; [lia |]. split; [lia |].
    intros i j Hi Hj. cbn [padded padded_image new_and_paste img_width img_height].
    fold W H tiles_x tiles_y.
    destruct (Nat.ltb_spec (col * T + i) (tiles_x * T)); [| nia].
    destruct (Nat.ltb_spec (row * T + j) (tiles_y * T)); [| nia].
    reflexivity. }
  split; [exact Hcover |].
  intros x y Hx Hy. apply Hcover; lia.
Qed.

Lemma lt_mul_iff_div_lt (x n T : nat) : 0 < T -> (x < n * T <-> x / T < n).
Proof.
  intros HT. pose proof (Nat.div_mod_eq x T) as Hd. pose proof (Nat.mod_upper_bound x T ltac:(lia)) as Hm.
  split; intros Hlt.
  - apply Nat.Div0.div_lt_upper_bound. lia.
  - nia.
Qed.

Lemma extract_tiles_grid (T width height : nat) (corr : bool) (name : string) : 0 < T ->
  snd (extract_tiles (Z.of_nat T) corr name (Some (width, height))) =
  inr (flat_map (fun i => map ((fun i j => (i, j, i * T, j * T)) i) (seq 0 (width / T)))
         (seq 0 (height / T))).
Proof.
  intros HT. unfold extract_tiles, py_floordiv.
  destruct (Z.eqb_spec (Z.of_nat T) 0) as [E | _]; [lia |].
  cbn [snd]. unfold py_range. rewrite <- !Nat2Z.inj_div, !Nat2Z.id. reflexivity.
Qed.

Lemma slice_covers_cell (T x y i j : nat) : 0 < T ->
  slice_covers T x y (i, j, i * T, j * T) = (j =? x / T) && (i =? y / T).
Proof.
  intros HT. unfold slice_covers.
  rewrite <- (andb_assoc ((j * T <=? x) && (x <? j * T + T))).
  rewrite (cell_bool T x j HT), (cell_bool T y i HT). reflexivity.
Qed.

Lemma extract_cover_count (T tx ty x y : nat) : 0 < T ->
  length (filter (slice_covers T x y)
    (flat_map (fun i => map ((fun i j => (i, j, i * T, j * T)) i) (seq 0 tx)) (seq 0 ty))) =
  if (x <? tx * T) && (y <? ty * T) then 1 else 0.
Proof.
  intros HT. rewrite length_filter_flat_map.
  rewrite (map_ext_in _ (fun i => if i =? y / T then (if x / T <? tx then 1 else 0) else 0)).
  2:{ intros i _. rewrite length_filter_map.
      rewrite (filter_ext _ (fun j => (j =? x / T) && (i =? y / T)))
        by (intros j; apply slice_covers_cell, HT).
      destruct (i =? y / T).
      - rewrite (filter_ext _ (fun j => j =? x / T)) by (intros j; apply andb_true_r).
        rewrite count_eqb_seq. destruct (Nat.ltb_spec (x / T) tx), (Nat.leb_spec 0 (x / T)),
          (Nat.ltb_spec (x / T) (0 + tx)); simpl; lia.
      - rewrite (filter_ext _ (fun _ => false)) by (intros j; apply andb_false_r).
        apply length_filter_false. }
  pose proof (lt_mul_iff_div_lt x tx T HT) as Ex. pose proof (lt_mul_iff_div_lt y ty T HT) as Ey.
  destruct (Nat.ltb_spec (x / T) tx) as [Hx | Hx].
  - cbv beta iota. rewrite list_sum_indicator, count_eqb_seq.
    destruct (Nat.ltb_spec x (tx * T)), (Nat.ltb_spec y (ty * T)), (Nat.leb_spec 0 (y / T)),
      (Nat.ltb_spec (y / T) (0 + ty)); simpl; lia.
  - destruct (Nat.ltb_spec x (tx * T)); [lia |]. cbv beta iota.
    induction (seq 0 ty) as [| a l IH]; simpl; [reflexivity |].
    destruct (a =? y / T); exact IH.
Qed.

(** C4 (amended): the tiling of [TileManager.apply_tile_size] is the padded
    partition of [tiles_of_partition]: [ceil(W/T) * ceil(H/T)] tiles in
    row-major order, each a [T x T] crop of the zero-padded canvas, every
    original pixel in exactly one tile. The batch
    [LULCTileClassifier.extract_tiles] does not pad: for [W = width],
    [H = height] it yields [(H // T) * (W // T)] tiles in row-major order,
    tile [k] being the slice at [x = (k mod (W // T)) * T],
    [y = (k / (W // T)) * T], every slice inside the image; a pixel lies in
    exactly one slice when [x < (W // T) * T] and [y < (H // T) * T], and in
    none otherwise. *)
Theorem tiling_partition (img : Image) (T : nat) (width height : nat) (corr : bool) (name : string) :
  0 < T ->
  (let W := img_width img in
    let H := img_height img in
    let tiles_x := ceil_div W T in
    let tiles_y := ceil_div H T in
    let padded := padded_image img T in
    let ts := tiles_of img T in
    img_width padded = tiles_x * T /\ img_height padded = tiles_y * T /\
    (forall x y, x < W -> y < H -> img_px padded x y = img_px img x y) /\
    (forall x y, ~ (x < W /\ y < H) -> img_px padded x y = black) /\
    length ts = tiles_x * tiles_y /\
    (forall k, k < length ts ->
       exists t, nth_error ts k = Some t /\
         tile_row t = k / tiles_x /\ tile_col t = k mod tiles_x) /\
    (forall t, In t ts ->
       tile_x t = tile_col t * T /\ tile_y t = tile_row t * T /\
       img_width (tile_img t) = T /\ img_height (tile_img t) = T /\
       forall i j, i < T -> j < T ->
         img_px (tile_img t) i j = img_px padded (tile_x t + i) (tile_y t + j)) /\
    (forall x y, x < tiles_x * T -> y < tiles_y * T ->
       length (filter (covers x y) ts) = 1) /\
    (forall x y, x < W -> y < H -> length (filter (covers x y) ts) = 1)) /\
  (exists l, snd (extract_tiles (Z.of_nat T) corr name (Some (width, height))) = inr l /\
     length l = height / T * (width / T) /\
     (forall k, k < length l ->
        nth_error l k = Some (k / (width / T), k mod (width / T),
                              k / (width / T) * T, k mod (width / T) * T)) /\
     (forall row col y_start x_start, In (row, col, y_start, x_start) l ->
        x_start + T <= width /\ y_start + T <= height) /\
     (forall x y, x < width -> y < height ->
        length (filter (slice_covers T x y) l) =
          if (x <? width / T * T) && (y <? height / T * T) then 1 else 0)).
Proof.
  intros HT. split; [exact (tiles_of_partition img T HT) |].
  rewrite (extract_tiles_grid T width height corr name HT).
  eexists. split; [reflexivity |].
  split; [rewrite length_grid; reflexivity |].
  split.
  { intros k Hk. rewrite length_grid in Hk.
    assert (Htx : 0 < width / T) by (destruct (width / T); lia).
    rewrite (nth_error_grid _ (width / T) Htx (height / T) 0 k Hk). reflexivity. }
  split.
  { intros row col y_start x_start Hin. apply in_flat_map in Hin as (i & Hi & Hin).
    apply in_map_iff in Hin as (j & E & Hj). injection E as <- <- <- <-.
    apply in_seq in Hi, Hj.
    pose proof (Nat.Div0.mul_div_le width T) as Hw. pose proof (Nat.Div0.mul_div_le height T) as Hh.
    split; nia. }
  intros x y _ _. apply extract_cover_count, HT.
Qed.

(** C4: the batch [extract_tiles] on a [3 x 5] image with [T = 2] yields the
    2 tiles [(0, 0, 0, 0)] and [(1, 0, 2, 0)], not [ceil(3/2) * ceil(5/2) = 6],
    and the image pixel [(2, 4)] lies in none of them. *)
Theorem extract_tiles_drops_border :
  snd (extract_tiles 2 false "scene" (Some (3, 5))) = inr [(0, 0, 0, 0); (1, 0, 2, 0)] /\
  ceil_div 3 2 * ceil_div 5 2 = 6 /\
  length (filter (slice_covers 2 2 4) [(0, 0, 0, 0); (1, 0, 2, 0)]) = 0.
Proof. split; [reflexivity |]. split; reflexivity. Qed.

Lemma tiling_partition_witness :
  0 < 2 /\
  (length (tiles_of (mkImage 3 5 (fun x y => (Z.of_nat x, Z.of_nat y, 7%Z))) 2) =
     ceil_div 3 2 * ceil_div 5 2 /\
   forall x y, x < 3 -> y < 5 ->
     length (filter (covers x y) (tiles_of (mkImage 3 5 (fun x y => (Z.of_nat x, Z.of_nat y, 7%Z))) 2)) = 1) /\
  exists l, snd (extract_tiles 2 true "scene" (Some (3, 5))) = inr l /\
    length l = 5 / 2 * (3 / 2) /\
    (forall x y, x < 3 -> y < 5 ->
       length (filter (slice_covers 2 x y) l) = if (x <? 3 / 2 * 2) && (y <? 5 / 2 * 2) then 1 else 0).
Proof.
  split; [lia |].
  destruct (tiling_partition (mkImage 3 5 (fun x y => (Z.of_nat x, Z.of_nat y, 7%Z))) 2 3 5 true "scene"
              ltac:(lia)) as [G (l & El & Hlen & _ & _ & Hcov)].
  cbv zeta in G. destruct G as (_ & _ & _ & _ & Hl & _ & _ & _ & Hc).
  split; [split; [exact Hl | exact Hc] |].
  exists l. split; [exact El |]. split; [exact Hlen | exact Hcov].
Defined.

Lemma length_flat_map_uniform {A B} (f : A -> list B) (l : list A) (n : nat) :
  (forall a, length (f a) = n) -> length (flat_map f l) = length l * n.
Proof.
  intros Hf. induction l as [| a l IH]; simpl; [reflexivity |].
  rewrite length_app, Hf, IH. reflexivity.
Qed.

(** C6 refuted: in the tile selector a tile size of 0 is rejected by
    [validate_tile_size] and tiling goes on with the previous size (here 2,
    four tiles of a 4x4 image); in the batch mode a tile size equal to the
    image side gives one tile and no error. *)
Lemma tile_size_zero_not_rejected :
  fst (fst (apply_tile_size 2 (Some 0%Z) (mkImage 4 4 (fun _ _ => black)))) = 2 /\
  length (snd (apply_tile_size 2 (Some 0%Z) (mkImage 4 4 (fun _ _ => black)))) = 4 /\
  extract_tiles 4 true "scene" (Some (4, 4)) =
    (["scene_corrected.tif"%string], inr [(0, 0, 0, 0)]).
Proof. split; [| split]; reflexivity. Qed.

(** C6 (as the code does it): the tile selector keeps its previous,
    positive tile size when the entry is not a positive integer and tiles
    with it; the batch [extract_tiles] validates nothing: a positive tile
    size, also one at least [min(width, height)], yields the
    [(height // T) * (width // T)] whole tiles (none when [T] exceeds a
    side), a negative one yields no tile, and [0] raises
    [ZeroDivisionError] after the corrected image has been written. *)
Theorem tile_size_handling (current : nat) (entry : option Z) (img : Image)
  (T : Z) (width height : nat) (corr : bool) (name : string) :
  (0 < current ->
   (entry = None \/ exists n, entry = Some n /\ (n <= 0)%Z) ->
   apply_tile_size current entry img = (current, padded_image img current, tiles_of img current)) /\
  ((0 < T)%Z ->
   exists l, snd (extract_tiles T corr name (Some (width, height))) = inr l /\
     length l = Z.to_nat (Z.of_nat height / T) * Z.to_nat (Z.of_nat width / T) /\
     ((Z.of_nat width < T \/ Z.of_nat height < T)%Z -> l = [])) /\
  ((T < 0)%Z -> snd (extract_tiles T corr name (Some (width, height))) = inr []) /\
  extract_tiles 0 corr name (Some (width, height)) =
    (if corr then [(name ++ "_corrected.tif")%string] else [], inl ZeroDivisionError).
Proof.
  split; [| split; [| split]].
  - intros Hcur Hentry. unfold apply_tile_size.
    replace (validate_tile_size entry current) with current; [reflexivity |].
    destruct Hentry as [-> | (n & -> & Hn)]; simpl; [reflexivity |].
    apply Z.leb_le in Hn. rewrite Hn. reflexivity.
  - intros HT. unfold extract_tiles, py_floordiv.
    destruct (Z.eqb_spec T 0) as [E | _]; [lia |]. simpl.
    eexists. split; [reflexivity |]. split.
    + unfold py_range. rewrite (length_flat_map_uniform _ _ (Z.to_nat (Z.of_nat width / T))).
      * rewrite length_seq. reflexivity.
      * intros i. rewrite length_map, length_seq. reflexivity.
    + intros [Hw | Hh].
      * rewrite (Z.div_small (Z.of_nat width) T) by lia. unfold py_range. simpl.
        induction (seq 0 (Z.to_nat (Z.of_nat height / T))); simpl; auto.
      * rewrite (Z.div_small (Z.of_nat height) T) by lia. reflexivity.
  - intros HT. unfold extract_tiles, py_floordiv.
    destruct (Z.eqb_spec T 0) as [E | _]; [lia |]. simpl.
    unfold py_range.
    replace (Z.to_nat (Z.of_nat height / T)) with 0; [reflexivity |].
    destruct (Z.eq_dec (Z.of_nat height) 0) as [E | E].
    + rewrite E, Z.div_0_l by lia. reflexivity.
    + pose proof (Z.div_mod (Z.of_nat height) T ltac:(lia)) as Hd.
      pose proof (Z.mod_neg_bound (Z.of_nat height) T ltac:(lia)) as Hm.
      assert (Z.of_nat height / T < 0)%Z by nia.
      lia.
  - reflexivity.
Qed.

Lemma tile_size_handling_witness :
  (0 < 2 /\ (Some (-3)%Z = None \/ exists n, Some (-3)%Z = Some n /\ (n <= 0)%Z) /\
   apply_tile_size 2 (Some (-3)%Z) (mkImage 3 3 (fun _ _ => black)) =
     (2, padded_image (mkImage 3 3 (fun _ _ => black)) 2,
      tiles_of (mkImage 3 3 (fun _ _ => black)) 2)) /\
  ((0 < 5)%Z /\
   exists l, snd (extract_tiles 5 true "scene" (Some (4, 6))) = inr l /\
     length l = Z.to_nat (Z.of_nat 6 / 5) * Z.to_nat (Z.of_nat 4 / 5) /\
     ((Z.of_nat 4 < 5 \/ Z.of_nat 6 < 5)%Z -> l = [])) /\
  ((-1 < 0)%Z /\ snd (extract_tiles (-1) true "scene" (Some (4, 6))) = inr []).
Proof.
  assert (Hh : (Some (-3)%Z = None \/ exists n, Some (-3)%Z = Some n /\ (n <= 0)%Z))
    by (right; exists (-3)%Z; split; [reflexivity | lia]).
  destruct (tile_size_handling 2 (Some (-3)%Z) (mkImage 3 3 (fun _ _ => black))
              5 4 6 true "scene") as (H1 & H2 & _ & _).
  destruct (tile_size_handling 2 None (mkImage 3 3 (fun _ _ => black))
              (-1) 4 6 true "scene") as (_ & _ & H3 & _).
  split; [split; [lia | split; [exact Hh | exact (H1 ltac:(lia) Hh)]] |].
  split; [split; [lia | exact (H2 ltac:(lia))] |].
  split; [lia | exact (H3 ltac:(lia))].
Defined.

(** ** Mask exporter *)

Lemma mask_loop_untouched (W H T : nat) (vals : dict) (tiles : list Tile) :
  forall cls m m' x y,
    mask_loop W H T vals m tiles cls = inr m' ->
    (forall t, In t tiles -> tile_slice W H T x y t = false) ->
    m' x y = m x y.
Proof.
  induction tiles as [| t tiles IH]; intros cls m m' x y Hrun Hout;
    destruct cls as [| c cls]; simpl in Hrun; try (injection Hrun as <-; reflexivity).
  destruct (skipped_label c).
  - apply (IH cls m m' x y Hrun). intros t' Ht'. apply Hout. right. exact Ht'.
  - unfold assign_rect in Hrun.
    destruct ((0 <=? dict_get_default vals c 255) && (dict_get_default vals c 255 <=? 255))%Z;
      [| discriminate].
    rewrite (IH cls _ m' x y Hrun) by (intros t' Ht'; apply Hout; right; exact Ht').
    pose proof (Hout t (or_introl eq_refl)) as Ht. unfold tile_slice in Ht.
    rewrite Ht. reflexivity.
Qed.

Lemma mask_loop_hit (W H T : nat) (vals : dict) (pre : list Tile) :
  forall t post cpre c cpost m m' x y,
    length pre = length cpre ->
    mask_loop W H T vals m (pre ++ t :: post) (cpre ++ c :: cpost) = inr m' ->
    (forall t', In t' pre \/ In t' post -> tile_slice W H T x y t' = false) ->
    tile_slice W H T x y t = true ->
    m' x y = if skipped_label c then m x y else dict_get_default vals c 255.
Proof.
  induction pre as [| t0 pre IH]; intros t post cpre c cpost m m' x y Hlen Hrun Hout Hin;
    destruct cpre as [| c0 cpre]; simpl in Hlen; try discriminate; simpl in Hrun.
  - destruct (skipped_label c).
    + apply (mask_loop_untouched W H T vals post cpost m m' x y Hrun).
      intros t' Ht'. apply Hout. right. exact Ht'.
    + unfold assign_rect in Hrun.
      destruct ((0 <=? dict_get_default vals c 255) && (dict_get_default vals c 255 <=? 255))%Z;
        [| discriminate].
      rewrite (mask_loop_untouched W H T vals post cpost _ m' x y Hrun)
        by (intros t' Ht'; apply Hout; right; exact Ht').
      unfold tile_slice in Hin. rewrite Hin. reflexivity.
  - injection Hlen as Hlen.
    assert (Hout' : forall t', In t' pre \/ In t' post -> tile_slice W H T x y t' = false).
    { intros t' [H1 | H1]; apply Hout; [left; right | right]; exact H1. }
    destruct (skipped_label c0).
    + exact (IH t post cpre c cpost m m' x y Hlen Hrun Hout' Hin).
    + unfold assign_rect in Hrun.
      destruct ((0 <=? dict_get_default vals c0 255) && (dict_get_default vals c0 255 <=? 255))%Z;
        [| discriminate].
      rewrite (IH t post cpre c cpost _ m' x y Hlen Hrun Hout' Hin).
      pose proof (Hout t0 (or_introl (or_introl eq_refl))) as H0.
      unfold tile_slice in H0. rewrite H0. reflexivity.
Qed.

Lemma mask_loop_total (W H T : nat) (vals : dict) (tiles : list Tile) :
  forall cls m,
    (forall c, In c cls -> skipped_label c = true \/
                           exists v, dict_get vals c = Some v /\ (0 <= v <= 255)%Z) ->
    exists m', mask_loop W H T vals m tiles cls = inr m'.
Proof.
  induction tiles as [| t tiles IH]; intros cls m Hok;
    destruct cls as [| c cls]; simpl; try (eexists; reflexivity).
  assert (Hok' : forall c', In c' cls -> skipped_label c' = true \/
                  exists v, dict_get vals c' = Some v /\ (0 <= v <= 255)%Z)
    by (intros c' Hc'; apply Hok; right; exact Hc').
  destruct (skipped_label c) eqn:Hs; [apply IH; exact Hok' |].
  destruct (Hok c (or_introl eq_refl)) as [Hc | (v & Hv & Hr)]; [congruence |].
  unfold assign_rect, dict_get_default. rewrite Hv.
  replace ((0 <=? v) && (v <=? 255))%Z with true
    by (symmetry; apply andb_true_intro; split; apply Z.leb_le; lia).
  apply IH. exact Hok'.
Qed.

Lemma filter_length_zero {A} (p : A -> bool) (l : list A) (b : A) :
  length (filter p l) = 0 -> In b l -> p b = false.
Proof.
  induction l as [| a l IH]; simpl; [tauto |].
  destruct (p a) eqn:Ha; simpl; [discriminate |].
  intros H0 [-> | Hb]; [exact Ha | exact (IH H0 Hb)].
Qed.

Lemma filter_unique {A} (p : A -> bool) (pre post : list A) (a : A) :
  length (filter p (pre ++ a :: post)) = 1 -> p a = true ->
  forall b, In b pre \/ In b post -> p b = false.
Proof.
  rewrite filter_app, length_app. simpl. intros H1 Ha. rewrite Ha in H1. simpl in H1.
  intros b [Hb | Hb]; [apply (filter_length_zero p pre b) | apply (filter_length_zero p post b)];
    try lia; exact Hb.
Qed.

Lemma tile_slice_covers (p : Image) (tx ty T x y : nat) (t : Tile) :
  In t (generate_tiles p tx ty T) ->
  tile_slice (tx * T) (ty * T) T x y t = covers x y t.
Proof.
  intros Ht. apply in_generate_tiles in Ht as (row & col & Hrow & Hcol & ->).
  unfold tile_slice, in_slice, covers, tile_at, crop.
  cbn [tile_x tile_y tile_img img_width img_height].
  replace (Nat.min (col * T + T) (tx * T)) with (col * T + T) by nia.
  replace (Nat.min (row * T + T) (ty * T)) with (row * T + T) by nia.
  replace (col * T + T - col * T) with T by lia.
  replace (row * T + T - row * T) with T by lia.
  reflexivity.
Qed.

Lemma covers_tile_in_canvas (p : Image) (tx ty T x y : nat) (t : Tile) :
  In t (generate_tiles p tx ty T) -> covers x y t = true ->
  x < tx * T /\ y < ty * T.
Proof.
  intros Ht Hc. apply in_generate_tiles in Ht as (row & col & Hrow & Hcol & ->).
  unfold covers, tile_at, crop in Hc. cbn [tile_x tile_y tile_img img_width img_height] in Hc.
  apply andb_prop in Hc as [Hc H4]. apply andb_prop in Hc as [Hc H3].
  apply andb_prop in Hc as [H1 H2].
  apply Nat.ltb_lt in H2, H4. split; nia.
Qed.

(** Every pixel of a tile's footprint in the exported mask holds the
    tile's label value, or the 255 fill when the label is skipped. *)
Lemma mask_tile_footprint (img : Image) (T : nat) (cls : list string) (vals : dict)
  (m : nat -> nat -> Z) (k : nat) (t : Tile) (c : string) :
  0 < T -> length cls = length (tiles_of img T) ->
  mask_loop (ceil_div (img_width img) T * T) (ceil_div (img_height img) T * T) T vals
    (fun _ _ => 255%Z) (tiles_of img T) cls = inr m ->
  nth_error (tiles_of img T) k = Some t -> nth_error cls k = Some c ->
  forall x y, covers x y t = true ->
  m x y = if skipped_label c then 255%Z else dict_get_default vals c 255.
Proof.
  intros HT Hlen Hrun Hk Hc x y Hcov.
  pose proof (nth_error_In _ _ Hk) as HtIn.
  destruct (nth_error_split _ _ Hk) as (pre & post & Htiles & Hpre).
  destruct (nth_error_split _ _ Hc) as (cpre & cpost & Hcls & Hcpre).
  unfold tiles_of in *.
  destruct (covers_tile_in_canvas _ _ _ _ x y t HtIn Hcov) as [Hx Hy].
  pose proof (generate_tiles_cover_once (padded_image img T) _ _ T x y HT Hx Hy) as Hone.
  rewrite Htiles in Hrun, Hone. rewrite Hcls in Hrun.
  apply (mask_loop_hit (ceil_div (img_width img) T * T) (ceil_div (img_height img) T * T) T vals
           pre t post cpre c cpost _ m x y); [lia | exact Hrun | |].
  - intros t' Ht'.
    assert (HIn : In t' (generate_tiles (padded_image img T) (ceil_div (img_width img) T)
                          (ceil_div (img_height img) T) T))
      by (rewrite Htiles; apply in_or_app; destruct Ht' as [H1 | H1];
          [left | right; right]; exact H1).
    rewrite (tile_slice_covers _ _ _ _ x y t' HIn).
    exact (filter_unique (covers x y) pre post t Hone Hcov t' Ht').
  - rewrite (tile_slice_covers _ _ _ _ x y t HtIn). exact Hcov.
Qed.

Lemma category_not_skipped (c : string) : In c CATEGORIES -> skipped_label c = false.
Proof. simpl. intros Hc. repeat destruct Hc as [<- | Hc]; try reflexivity. destruct Hc. Qed.

Lemma save_mask_only_runs (img : Image) (T : nat) (cls : list string) (vals : dict) :
  cls <> [] ->
  (forall c, In c cls -> c = ""%string \/ c = "Cloud"%string \/
     (In c CATEGORIES /\ exists v, dict_get vals c = Some v /\ (0 <= v <= 255)%Z)) ->
  exists m,
    mask_loop (ceil_div (img_width img) T * T) (ceil_div (img_height img) T * T) T vals
      (fun _ _ => 255%Z) (tiles_of img T) cls = inr m /\
    save_mask_only (padded_image img T) T (tiles_of img T) cls vals =
      Some (inr (mkMask (ceil_div (img_width img) T * T) (ceil_div (img_height img) T * T) m)).
Proof.
  intros Hne Hok.
  destruct (mask_loop_total (ceil_div (img_width img) T * T) (ceil_div (img_height img) T * T)
              T vals (tiles_of img T) cls (fun _ _ => 255%Z)) as [m Hm].
  { intros c Hc. destruct (Hok c Hc) as [-> | [-> | [_ Hv]]]; [left | left | right];
      [reflexivity | reflexivity | exact Hv]. }
  exists m. split; [exact Hm |].
  unfold save_mask_only. destruct cls as [| c0 cls0]; [congruence |].
  cbn [padded_image new_and_paste img_width img_height]. rewrite Hm. reflexivity.
Qed.

(** C7: for the tiles of an image and a parallel list of labels, each one
    of the ten categories with a [uint8] value in [category_values], or
    ["Cloud"], or empty, the exported mask holds at the center of each
    categorized tile that category's value, and 255 on the whole footprint
    of each Cloud or unlabelled tile. *)
Theorem mask_round_trip (img : Image) (T : nat) (cls : list string) (vals : dict) :
  0 < T -> cls <> [] -> length cls = length (tiles_of img T) ->
  (forall c, In c cls -> c = ""%string \/ c = "Cloud"%string \/
     (In c CATEGORIES /\ exists v, dict_get vals c = Some v /\ (0 <= v <= 255)%Z)) ->
  exists m,
    save_mask_only (padded_image img T) T (tiles_of img T) cls vals = Some (inr m) /\
    forall k t c, nth_error (tiles_of img T) k = Some t -> nth_error cls k = Some c ->
      (In c CATEGORIES ->
         exists v, dict_get vals c = Some v /\ mask_px m (tile_x t + T / 2) (tile_y t + T / 2) = v) /\
      (c = ""%string \/ c = "Cloud"%string ->
         forall x y, covers x y t = true -> mask_px m x y = 255%Z).
Proof.
  intros HT Hne Hlen Hok.
  destruct (save_mask_only_runs img T cls vals Hne Hok) as (m & Hm & Hsave).
  eexists. split; [exact Hsave |]. intros k t c Hk Hc. cbn [mask_px].
  pose proof (mask_tile_footprint img T cls vals m k t c HT Hlen Hm Hk Hc) as Hfp.
  split.
  - intros Hcat.
    destruct (Hok c (nth_error_In _ _ Hc)) as [-> | [-> | [_ (v & Hv & _)]]];
      [discriminate (category_not_skipped _ Hcat) | discriminate (category_not_skipped _ Hcat) |].
    exists v. split; [exact Hv |].
    rewrite Hfp.
    + rewrite (category_not_skipped _ Hcat). unfold dict_get_default. rewrite Hv. reflexivity.
    + pose proof (nth_error_In _ _ Hk) as HtIn. unfold tiles_of in HtIn.
      apply in_generate_tiles in HtIn as (row & col & _ & _ & ->).
      pose proof (Nat.div_mod_eq T 2). pose proof (Nat.mod_upper_bound T 2 ltac:(lia)).
      unfold covers, tile_at, crop. cbn [tile_x tile_y tile_img img_width img_height].
      replace (col * T + T - col * T) with T by lia.
      replace (row * T + T - row * T) with T by lia.
      repeat (apply andb_true_intro; split); (apply Nat.leb_le || apply Nat.ltb_lt); lia.
  - intros Hskip x y Hcov. rewrite (Hfp x y Hcov).
    destruct Hskip as [-> | ->]; reflexivity.
Qed.

(** C10: the exported mask has the size of the padded canvas, the clip
    bounds [min(x + tile_size, width)] and [min(y + tile_size, height)] are
    the unclipped ones, and every pixel of a categorized tile's [T x T]
    footprint, padding border included, holds the category's value. *)
Theorem mask_labels_padding (img : Image) (T : nat) (cls : list string) (vals : dict) :
  0 < T -> cls <> [] -> length cls = length (tiles_of img T) ->
  (forall c, In c cls -> c = ""%string \/ c = "Cloud"%string \/
     (In c CATEGORIES /\ exists v, dict_get vals c = Some v /\ (0 <= v <= 255)%Z)) ->
  exists m,
    save_mask_only (padded_image img T) T (tiles_of img T) cls vals = Some (inr m) /\
    mask_width m = ceil_div (img_width img) T * T /\
    mask_height m = ceil_div (img_height img) T * T /\
    forall k t c v, nth_error (tiles_of img T) k = Some t -> nth_error cls k = Some c ->
      In c CATEGORIES -> dict_get vals c = Some v ->
      Nat.min (tile_x t + T) (mask_width m) = tile_x t + T /\
      Nat.min (tile_y t + T) (mask_height m) = tile_y t + T /\
      forall x y, tile_x t <= x < tile_x t + T -> tile_y t <= y < tile_y t + T ->
        mask_px m x y = v.
Proof.
  intros HT Hne Hlen Hok.
  destruct (save_mask_only_runs img T cls vals Hne Hok) as (m & Hm & Hsave).
  eexists. split; [exact Hsave |]. cbn [mask_width mask_height mask_px].
  split; [reflexivity |]. split; [reflexivity |].
  intros k t c v Hk Hc Hcat Hv.
  pose proof (mask_tile_footprint img T cls vals m k t c HT Hlen Hm Hk Hc) as Hfp.
  pose proof (nth_error_In _ _ Hk) as HtIn. unfold tiles_of in HtIn.
  apply in_generate_tiles in HtIn as (row & col & Hrow & Hcol & Ht).
  split; [subst t; cbn [tile_at tile_x]; nia |].
  split; [subst t; cbn [tile_at tile_y]; nia |].
  intros x y Hx Hy. rewrite Hfp.
  - rewrite (category_not_skipped _ Hcat). unfold dict_get_default. rewrite Hv. reflexivity.
  - subst t. unfold covers, tile_at, crop in *. cbn [tile_x tile_y tile_img img_width img_height] in *.
    replace (col * T + T - col * T) with T by lia.
    replace (row * T + T - row * T) with T by lia.
    repeat (apply andb_true_intro; split); (apply Nat.leb_le || apply Nat.ltb_lt); lia.
Qed.

Lemma mask_example_labels_ok :
  forall c, In c ["Forest"; "Cloud"; ""; "River"]%string ->
    c = ""%string \/ c = "Cloud"%string \/
    (In c CATEGORIES /\ exists v, dict_get default_category_values c = Some v /\ (0 <= v <= 255)%Z).
Proof.
  intros c Hc. simpl in Hc.
  destruct Hc as [<- | [<- | [<- | [<- | []]]]].
  - right; right. split; [simpl; tauto | exists 1%Z; split; [reflexivity | lia]].
  - right; left; reflexivity.
  - left; reflexivity.
  - right; right. split; [simpl; tauto | exists 8%Z; split; [reflexivity | lia]].
Qed.

Lemma mask_round_trip_witness :
  0 < 2 /\ ["Forest"; "Cloud"; ""; "River"]%string <> [] /\
  length ["Forest"; "Cloud"; ""; "River"]%string =
    length (tiles_of (mkImage 3 3 (fun _ _ => black)) 2) /\
  exists m,
    save_mask_only (padded_image (mkImage 3 3 (fun _ _ => black)) 2)
      2 (tiles_of (mkImage 3 3 (fun _ _ => black)) 2)
      ["Forest"; "Cloud"; ""; "River"]%string default_category_values = Some (inr m) /\
    forall k t c, nth_error (tiles_of (mkImage 3 3 (fun _ _ => black)) 2) k = Some t ->
      nth_error ["Forest"; "Cloud"; ""; "River"]%string k = Some c ->
      (In c CATEGORIES ->
         exists v, dict_get default_category_values c = Some v /\
                   mask_px m (tile_x t + 2 / 2) (tile_y t + 2 / 2) = v) /\
      (c = ""%string \/ c = "Cloud"%string ->
         forall x y, covers x y t = true -> mask_px m x y = 255%Z).
Proof.
  assert (Hne : ["Forest"; "Cloud"; ""; "River"]%string <> []) by discriminate.
  assert (Hlen : length ["Forest"; "Cloud"; ""; "River"]%string =
                 length (tiles_of (mkImage 3 3 (fun _ _ => black)) 2)) by reflexivity.
  split; [lia |]. split; [exact Hne |]. split; [exact Hlen |].
  exact (mask_round_trip (mkImage 3 3 (fun _ _ => black)) 2 _ _ ltac:(lia) Hne Hlen
           mask_example_labels_ok).
Defined.

Lemma mask_labels_padding_witness :
  0 < 2 /\ ["Forest"; "Cloud"; ""; "River"]%string <> [] /\
  length ["Forest"; "Cloud"; ""; "River"]%string =
    length (tiles_of (mkImage 3 3 (fun _ _ => black)) 2) /\
  exists m,
    save_mask_only (padded_image (mkImage 3 3 (fun _ _ => black)) 2)
      2 (tiles_of (mkImage 3 3 (fun _ _ => black)) 2)
      ["Forest"; "Cloud"; ""; "River"]%string default_category_values = Some (inr m) /\
    mask_width m = ceil_div 3 2 * 2 /\
    mask_height m = ceil_div 3 2 * 2 /\
    forall k t c v, nth_error (tiles_of (mkImage 3 3 (fun _ _ => black)) 2) k = Some t ->
      nth_error ["Forest"; "Cloud"; ""; "River"]%string k = Some c ->
      In c CATEGORIES -> dict_get default_category_values c = Some v ->
      Nat.min (tile_x t + 2) (mask_width m) = tile_x t + 2 /\
      Nat.min (tile_y t + 2) (mask_height m) = tile_y t + 2 /\
      forall x y, tile_x t <= x < tile_x t + 2 -> tile_y t <= y < tile_y t + 2 ->
        mask_px m x y = v.
Proof.
  assert (Hne : ["Forest"; "Cloud"; ""; "River"]%string <> []) by discriminate.
  assert (Hlen : length ["Forest"; "Cloud"; ""; "River"]%string =
                 length (tiles_of (mkImage 3 3 (fun _ _ => black)) 2)) by reflexivity.
  split; [lia |]. split; [exact Hne |]. split; [exact Hlen |].
  exact (mask_labels_padding (mkImage 3 3 (fun _ _ => black)) 2 _ _ ltac:(lia) Hne Hlen
           mask_example_labels_ok).
Defined.

(** ** Accuracy evaluator *)

Lemma length_filter_after_select {A B} (p : A * B -> bool) (q : B -> bool) (l : list (A * B)) :
  length (filter q (map snd (filter p l))) = length (filter (fun x => p x && q (snd x)) l).
Proof.
  induction l as [| x l IH]; simpl; [reflexivity |].
  destruct (p x); simpl; [destruct (q (snd x)); simpl |]; rewrite IH; reflexivity.
Qed.

Lemma nth_map_lt {A B} (f : A -> B) (l : list A) (i : nat) (d : B) (d0 : A) :
  i < length l -> nth i (map f l) d = f (nth i l d0).
Proof.
  intros Hi. rewrite (nth_indep (map f l) d (f d0)) by (rewrite length_map; exact Hi).
  apply map_nth.
Qed.

Lemma in_combine_seq {A} (l : list A) (d : A) :
  forall s i v, In (i, v) (combine (seq s (length l)) l) ->
  s <= i < s + length l /\ v = nth (i - s) l d.
Proof.
  induction l as [| a l IH]; intros s i v Hin; simpl in Hin; [destruct Hin |].
  destruct Hin as [E | Hin].
  - injection E as <- <-. rewrite Nat.sub_diag. simpl. split; [lia | reflexivity].
  - destruct (IH (S s) i v Hin) as [Hr Hv]. simpl. split; [lia |].
    replace (i - s) with (S (i - S s)) by lia. exact Hv.
Qed.

Lemma in_odict_set {A} (d : list (string * A)) (k : string) (v : A) (e : string * A) :
  In e (odict_set d k v) -> In e d \/ snd e = v.
Proof.
  induction d as [| [k' v'] d IH]; simpl.
  - intros [<- | []]. right. reflexivity.
  - destruct (String.eqb k k'); simpl.
    + intros [<- | He]; [right; reflexivity | left; right; exact He].
    + intros [<- | He]; [left; left; reflexivity |].
      destruct (IH He) as [H1 | H1]; [left; right; exact H1 | right; exact H1].
Qed.

Lemma per_class_from_indices (conf : list (list Z)) (kv : list Z) (vtc : list (Z * string)) :
  forall (items : list (nat * Z)) od,
    (forall e, In e od -> exists i, i < length kv /\ snd e = class_metrics conf i (nth i kv 0%Z)) ->
    (forall iv, In iv items -> fst iv < length kv /\ snd iv = nth (fst iv) kv 0%Z) ->
    forall e, In e (fold_left (fun od iv =>
      odict_set od
        (match int_dict_get vtc (snd iv) with
         | Some nm => nm
         | None => ("Value_" ++ py_str_Z (snd iv))%string
         end)
        (class_metrics conf (fst iv) (snd iv))) items od) ->
    exists i, i < length kv /\ snd e = class_metrics conf i (nth i kv 0%Z).
Proof.
  induction items as [| iv items IH]; intros od Hod Hitems e He; simpl in He.
  - exact (Hod e He).
  - eapply IH; [| intros iv' Hiv'; exact (Hitems iv' (or_intror Hiv')) | exact He].
    intros e' He'. apply in_odict_set in He' as [H1 | H1]; [exact (Hod e' H1) |].
    destruct (Hitems iv (or_introl eq_refl)) as [Hi Hv].
    exists (fst iv). split; [exact Hi |]. rewrite H1, <- Hv. reflexivity.
Qed.

(** C3: on the 2x2 scenario the evaluator gives the confusion matrix
    [[1,1],[0,2]], overall accuracy 75, class A with TP 1, recall 50,
    precision 100 and F1 200/3 (66.67 to two decimals), class B with TP 2,
    recall 100, precision 200/3 (66.67) and F1 80; and in general entry
    [[i][j]] counts the pixels with ground truth [known_values[i]] and
    prediction [known_values[j]], the overall accuracy is
    trace/sum*100 (0 if the sum is 0), and each class has
    recall TP/row_sum*100, precision TP/col_sum*100 (0 on a zero sum) and
    F1 2PR/(P+R) (0 if P+R = 0). *)
Theorem accuracy_matrix_correct :
  (exists r,
     compute_accuracy_matrix (mkRaster 2 2 [1; 2; 2; 2]%Z) (mkRaster 2 2 [1; 1; 2; 2]%Z)
       (fun v => if (v =? 1)%Z then "A"%string else if (v =? 2)%Z then "B"%string else ""%string)
     = Computed r /\
     confusion r = [[1; 1]; [0; 2]]%Z /\ known_values r = [1; 2]%Z /\
     overall_accuracy r == 75 /\
     exists a b, per_class r = [("A"%string, a); ("B"%string, b)] /\
       cm_tp a = 1%Z /\ cm_recall a == 50 /\ cm_precision a == 100 /\
       cm_f1 a == 200 # 3 /\ (Qabs (cm_f1 a - (6667 # 100)) < 1 # 200)%Q /\
       cm_tp b = 2%Z /\ cm_recall b == 100 /\ cm_precision b == 200 # 3 /\
       (Qabs (cm_precision b - (6667 # 100)) < 1 # 200)%Q /\ cm_f1 b == 80) /\
  (forall pred gt entry_text r,
     compute_accuracy_matrix pred gt entry_text = Computed r ->
     let conf := confusion r in
     let kv := known_values r in
     length conf = length kv /\
     (forall i j, i < length kv -> j < length kv ->
        entry conf i j =
        Z.of_nat (length (filter
          (fun gp => (fst gp =? nth i kv 0)%Z && (snd gp =? nth j kv 0)%Z)
          (combine (r_px gt) (r_px pred))))) /\
     overall_accuracy r =
       (if (0 <? z_sum (map z_sum conf))%Z
        then inject_Z (trace conf) / inject_Z (z_sum (map z_sum conf)) * 100 else 0)%Q /\
     (forall name cm, In (name, cm) (per_class r) ->
        exists i, i < length kv /\
          let tp := entry conf i i in
          let rs := row_sum conf i in
          let cs := col_sum conf i in
          cm_value cm = nth i kv 0%Z /\ cm_tp cm = tp /\
          cm_gt_total cm = rs /\ cm_pred_total cm = cs /\
          cm_recall cm = (if (0 <? rs)%Z then inject_Z tp / inject_Z rs * 100 else 0)%Q /\
          cm_precision cm = (if (0 <? cs)%Z then inject_Z tp / inject_Z cs * 100 else 0)%Q /\
          cm_f1 cm = (if qlt 0 (cm_precision cm + cm_recall cm)
                      then 2 * cm_precision cm * cm_recall cm / (cm_precision cm + cm_recall cm)
                      else 0)%Q)).
Proof.
  split.
  - eexists. split; [reflexivity |].
    split; [reflexivity |]. split; [reflexivity |]. split; [reflexivity |].
    do 2 eexists. split; [reflexivity |].
    repeat split; reflexivity.
  - intros pred gt entry_text r Hr.
    unfold compute_accuracy_matrix in Hr.
    destruct (negb _); [discriminate |].
    destruct (sorted_unique _) as [| v0 vs]; [discriminate |].
    destruct (on_compute _ entry_text) as [vtc kv].
    destruct (length kv <? 2); [discriminate |].
    injection Hr as <-. unfold compute_and_show_matrix.
    cbn [confusion known_values overall_accuracy per_class].
    split; [unfold confusion_matrix; rewrite length_map; reflexivity |].
    split; [| split; [reflexivity |]].
    + intros i j Hi Hj. unfold entry, confusion_matrix.
      rewrite (nth_map_lt _ kv i [] 0%Z Hi), (nth_map_lt _ kv j 0%Z 0%Z Hj).
      unfold masked_count. rewrite length_filter_after_select. reflexivity.
    + intros name cm Hin.
      destruct (per_class_from_indices (confusion_matrix (r_px gt) (r_px pred) kv) kv vtc
                  (combine (seq 0 (length kv)) kv) [] (fun e He => match He with end))
        with (e := (name, cm)) as (i & Hi & Hcm).
      * intros [i v] Hiv. destruct (in_combine_seq kv 0%Z 0 i v Hiv) as [Hr Hv].
        simpl. rewrite Nat.sub_0_r in Hv. split; [lia | exact Hv].
      * exact Hin.
      * exists i. split; [exact Hi |]. simpl in Hcm. rewrite Hcm.
        repeat split; reflexivity.
Qed.

(** C8: masks of different shapes are rejected before any matrix is built. *)
Theorem accuracy_dimension_mismatch (pred gt : Raster) (entry_text : Z -> string) :
  (r_height pred, r_width pred) <> (r_height gt, r_width gt) ->
  compute_accuracy_matrix pred gt entry_text = DimensionMismatch.
Proof.
  intros Hne. unfold compute_accuracy_matrix.
  destruct (Nat.eqb_spec (r_height pred) (r_height gt)) as [Eh | Eh];
    destruct (Nat.eqb_spec (r_width pred) (r_width gt)) as [Ew | Ew]; simpl; try reflexivity.
  exfalso. apply Hne. rewrite Eh, Ew. reflexivity.
Qed.

Lemma accuracy_dimension_mismatch_witness :
  (r_height (mkRaster 2 3 [1; 1; 1; 1; 1; 1]%Z), r_width (mkRaster 2 3 [1; 1; 1; 1; 1; 1]%Z))
    <> (r_height (mkRaster 3 2 [1; 2; 1; 2; 1; 2]%Z), r_width (mkRaster 3 2 [1; 2; 1; 2; 1; 2]%Z)) /\
  compute_accuracy_matrix (mkRaster 2 3 [1; 1; 1; 1; 1; 1]%Z) (mkRaster 3 2 [1; 2; 1; 2; 1; 2]%Z)
    (fun v => if (v =? 1)%Z then "A"%string else "B"%string) = DimensionMismatch.
Proof.
  assert (Hne : (r_height (mkRaster 2 3 [1; 1; 1; 1; 1; 1]%Z), r_width (mkRaster 2 3 [1; 1; 1; 1; 1; 1]%Z))
    <> (r_height (mkRaster 3 2 [1; 2; 1; 2; 1; 2]%Z), r_width (mkRaster 3 2 [1; 2; 1; 2; 1; 2]%Z)))
    by (simpl; intros H; injection H; lia).
  split; [exact Hne | exact (accuracy_dimension_mismatch _ _ _ Hne)].
Defined.

Lemma accuracy_matrix_correct_witness :
  compute_accuracy_matrix (mkRaster 2 2 [1; 2; 2; 2]%Z) (mkRaster 2 2 [1; 1; 2; 2]%Z)
    (fun v => if (v =? 1)%Z then "A"%string else if (v =? 2)%Z then "B"%string else ""%string)
  = Computed (compute_and_show_matrix [1; 2; 2; 2]%Z [1; 1; 2; 2]%Z [1; 2]%Z
                [(1, "A"%string); (2, "B"%string)]%Z) /\
  entry [[1; 1]; [0; 2]]%Z 1 0 =
    Z.of_nat (length (filter (fun gp => (fst gp =? 2) && (snd gp =? 1))%Z
      (combine [1; 1; 2; 2]%Z [1; 2; 2; 2]%Z))).
Proof.
  assert (Hr : compute_accuracy_matrix (mkRaster 2 2 [1; 2; 2; 2]%Z) (mkRaster 2 2 [1; 1; 2; 2]%Z)
    (fun v => if (v =? 1)%Z then "A"%string else if (v =? 2)%Z then "B"%string else ""%string)
    = Computed (compute_and_show_matrix [1; 2; 2; 2]%Z [1; 1; 2; 2]%Z [1; 2]%Z
                  [(1, "A"%string); (2, "B"%string)]%Z)) by reflexivity.
  split; [exact Hr |].
  destruct (proj2 accuracy_matrix_correct _ _ _ _ Hr) as (_ & Hentry & _).
  exact (Hentry 1 0 ltac:(simpl; lia) ltac:(simpl; lia)).
Defined.

Lemma list_ascii_app (s t : string) :
  list_ascii_of_string (s ++ t) = list_ascii_of_string s ++ list_ascii_of_string t.
Proof. induction s; simpl; [reflexivity | now rewrite IHs]. Qed.

Lemma list_ascii_inj (s t : string) : list_ascii_of_string s = list_ascii_of_string t -> s = t.
Proof.
  intros H. rewrite <- (string_of_list_ascii_of_string s), <- (string_of_list_ascii_of_string t).
  now rewrite H.
Qed.

Lemma fold_dec_shift (l : list Ascii.ascii) (a : nat) :
  fold_left (fun acc c => acc * 10 + digit_val c) l a =
  a * 10 ^ length l + dec_value l.
Proof.
  unfold dec_value. revert a. induction l as [| c l IH]; intros a; cbn [fold_left length].
  - simpl. lia.
  - rewrite (IH (a * 10 + digit_val c)), (IH (0 * 10 + digit_val c)).
    rewrite Nat.pow_succ_r'. nia.
Qed.

Lemma dec_value_cons (c : Ascii.ascii) (l : list Ascii.ascii) :
  dec_value (c :: l) = digit_val c * 10 ^ length l + dec_value l.
Proof. unfold dec_value at 1. simpl. rewrite fold_dec_shift. reflexivity. Qed.

Lemma digit_val_of (d : nat) : d < 10 -> digit_val (Ascii.ascii_of_nat (48 + d)) = d.
Proof.
  intros Hd. unfold digit_val. rewrite Ascii.nat_ascii_embedding by lia. lia.
Qed.

Lemma is_digit_of (d : nat) : d < 10 -> is_digit (Ascii.ascii_of_nat (48 + d)) = true.
Proof.
  intros Hd. unfold is_digit. rewrite Ascii.nat_ascii_embedding by lia.
  apply andb_true_intro; split; apply Nat.leb_le; lia.
Qed.

Lemma digits_of_spec (fuel : nat) :
  forall n acc, n < fuel ->
  exists ds, list_ascii_of_string (digits_of fuel n acc) = ds ++ list_ascii_of_string acc /\
    ds <> [] /\ forallb is_digit ds = true /\
    dec_value ds = n /\ (n = 0 \/ exists c t, ds = c :: t /\ c <> "0"%char).
Proof.
  induction fuel as [| fuel IH]; intros n acc Hn; [lia |].
  cbn [digits_of]. pose proof (Nat.mod_upper_bound n 10 ltac:(lia)) as Hm.
  set (d := Ascii.ascii_of_nat (48 + n mod 10)).
  assert (Hdv : digit_val d = n mod 10) by (apply digit_val_of; exact Hm).
  assert (Hdd : is_digit d = true) by (apply is_digit_of; exact Hm).
  destruct (Nat.ltb_spec n 10) as [Hlt | Hge].
  - exists [d]. cbn [list_ascii_of_string app]. split; [reflexivity |].
    split; [discriminate |]. split; [cbn [forallb]; rewrite Hdd; reflexivity |].
    split.
    + rewrite dec_value_cons. cbn [length Nat.pow]. unfold dec_value. cbn [fold_left].
      rewrite Hdv, Nat.mod_small by exact Hlt. lia.
    + destruct n as [| n]; [left; reflexivity | right].
      exists d, []. split; [reflexivity |]. unfold d. rewrite Nat.mod_small by exact Hlt.
      intros H. apply (f_equal Ascii.nat_of_ascii) in H.
      rewrite Ascii.nat_ascii_embedding in H by lia. cbn in H. lia.
  - destruct (IH (n / 10) (String d acc)) as (ds & Hds & Hne & Hdig & Hval & Hlead).
    { assert (n / 10 < n) by (apply Nat.div_lt; lia). lia. }
    exists (ds ++ [d]). rewrite Hds. cbn [list_ascii_of_string].
    rewrite <- app_assoc. split; [reflexivity |]. split.
    { destruct ds; [contradiction | discriminate]. }
    split.
    { rewrite forallb_app, Hdig. cbn [forallb]. rewrite Hdd. reflexivity. }
    split.
    { unfold dec_value. rewrite fold_left_app. fold (dec_value ds). rewrite Hval.
      cbn [fold_left]. rewrite Hdv. pose proof (Nat.div_mod_eq n 10). lia. }
    right. destruct Hlead as [H0 | (c & t & -> & Hc)].
    + exfalso. apply Nat.div_small_iff in H0; lia.
    + exists c, (t ++ [d]). split; [reflexivity | exact Hc].
Qed.

Lemma py_str_nat_spec (n : nat) :
  let ds := list_ascii_of_string (py_str_nat n) in
  ds <> [] /\ forallb is_digit ds = true /\ dec_value ds = n /\
  (n = 0 \/ exists c t, ds = c :: t /\ c <> "0"%char).
Proof.
  unfold py_str_nat, py_str_Z.
  replace (Z.of_nat n <? 0)%Z with false by (symmetry; apply Z.ltb_ge; lia).
  rewrite Nat2Z.id.
  destruct (digits_of_spec (S n) n "" ltac:(lia)) as (ds & Hds & H).
  rewrite Hds. simpl. rewrite app_nil_r. exact H.
Qed.

Lemma dec_value_zeros (k : nat) (l : list Ascii.ascii) :
  dec_value (repeat "0"%char k ++ l) = dec_value l.
Proof.
  induction k as [| k IH]; simpl; [reflexivity |].
  rewrite dec_value_cons, IH. reflexivity.
Qed.

Lemma py_str_nat_inj (m n : nat) : py_str_nat m = py_str_nat n -> m = n.
Proof.
  intros H. destruct (py_str_nat_spec m) as (_ & _ & Hm & _).
  destruct (py_str_nat_spec n) as (_ & _ & Hn & _). rewrite <- Hm, <- Hn, H. reflexivity.
Qed.

Lemma format_03d_digits (n : nat) :
  forallb is_digit (list_ascii_of_string (format_03d n)) = true /\
  dec_value (list_ascii_of_string (format_03d n)) = n.
Proof.
  unfold format_03d. rewrite list_ascii_app, list_ascii_of_string_of_list_ascii.
  destruct (py_str_nat_spec n) as (_ & Hd & Hv & _).
  split; [rewrite forallb_app, Hd, andb_true_r | rewrite dec_value_zeros; exact Hv].
  generalize (3 - String.length (py_str_nat n)). induction n0; simpl; auto.
Qed.

Lemma format_03d_inj (m n : nat) : format_03d m = format_03d n -> m = n.
Proof.
  intros H. rewrite <- (proj2 (format_03d_digits m)), <- (proj2 (format_03d_digits n)), H.
  reflexivity.
Qed.

Lemma first_sep (u : Ascii.ascii) (a a' b b' : list Ascii.ascii) :
  ~ In u a -> ~ In u a' -> a ++ u :: b = a' ++ u :: b' -> a = a' /\ b = b'.
Proof.
  revert a'. induction a as [| x a IH]; intros a' Ha Ha' H; destruct a' as [| y a']; simpl in *.
  - injection H as ->. split; reflexivity.
  - injection H as Hu _. exfalso. apply Ha'. left. congruence.
  - injection H as Hu _. exfalso. apply Ha. left. congruence.
  - injection H as -> H. destruct (IH a' (fun h => Ha (or_intror h)) (fun h => Ha' (or_intror h)) H)
      as [-> ->]. split; reflexivity.
Qed.

Lemma last_sep (u : Ascii.ascii) (a a' b b' : list Ascii.ascii) :
  ~ In u b -> ~ In u b' -> a ++ u :: b = a' ++ u :: b' -> a = a' /\ b = b'.
Proof.
  intros Hb Hb' H. apply (f_equal (@rev _)) in H. rewrite !rev_app_distr in H. simpl in H.
  rewrite <- !app_assoc in H. simpl in H.
  destruct (first_sep u (rev b) (rev b') (rev a) (rev a'))
    as [H1 H2]; [rewrite <- in_rev; exact Hb | rewrite <- in_rev; exact Hb' | exact H |].
  split; [rewrite <- (rev_involutive a), <- (rev_involutive a'), H2 |
          rewrite <- (rev_involutive b), <- (rev_involutive b'), H1]; reflexivity.
Qed.

Lemma str_app_assoc (a b c : string) : ((a ++ b) ++ c = a ++ b ++ c)%string.
Proof. induction a; simpl; [reflexivity | now rewrite IHa]. Qed.

Lemma str_app_inv_tail (a b c : string) : (a ++ c = b ++ c)%string -> a = b.
Proof.
  intros H. apply (f_equal list_ascii_of_string) in H. rewrite !list_ascii_app in H.
  apply app_inv_tail in H. apply list_ascii_inj, H.
Qed.

Lemma str_app_inv_head (a b c : string) : (c ++ a = c ++ b)%string -> a = b.
Proof.
  intros H. apply (f_equal list_ascii_of_string) in H. rewrite !list_ascii_app in H.
  apply app_inv_head in H. apply list_ascii_inj, H.
Qed.

(** Splitting at the last ["_"]. *)
Lemma split_last_underscore (a a' b b' : string) :
  ~ In underscore (list_ascii_of_string b) -> ~ In underscore (list_ascii_of_string b') ->
  (a ++ "_" ++ b = a' ++ "_" ++ b')%string -> a = a' /\ b = b'.
Proof.
  intros Hb Hb' H. apply (f_equal list_ascii_of_string) in H. rewrite !list_ascii_app in H.
  destruct (last_sep underscore _ _ _ _ Hb Hb' H) as [H1 H2].
  split; apply list_ascii_inj; assumption.
Qed.

Lemma no_underscore_app (a b : string) :
  ~ In underscore (list_ascii_of_string a) -> ~ In underscore (list_ascii_of_string b) ->
  ~ In underscore (list_ascii_of_string (a ++ b)).
Proof. rewrite list_ascii_app, in_app_iff. tauto. Qed.

Lemma digits_no_underscore (l : list Ascii.ascii) : forallb is_digit l = true -> ~ In underscore l.
Proof.
  intros H Hin. rewrite forallb_forall in H. specialize (H _ Hin). discriminate H.
Qed.

Lemma py_str_nat_no_underscore (n : nat) : ~ In underscore (list_ascii_of_string (py_str_nat n)).
Proof. apply digits_no_underscore, (py_str_nat_spec n). Qed.

Lemma format_03d_no_underscore (n : nat) : ~ In underscore (list_ascii_of_string (format_03d n)).
Proof. apply digits_no_underscore, (format_03d_digits n). Qed.

Lemma lit_no_underscore (s : string) :
  existsb (Ascii.eqb underscore) (list_ascii_of_string s) = false ->
  ~ In underscore (list_ascii_of_string s).
Proof.
  intros H Hin. assert (existsb (Ascii.eqb underscore) (list_ascii_of_string s) = true)
    by (apply existsb_exists; exists underscore; split; [exact Hin | apply Ascii.eqb_refl]).
  congruence.
Qed.

Lemma tile_filename_shape (s : string) (r c : nat) :
  tile_filename s r c = (((s ++ "_tile") ++ "_" ++ py_str_nat r) ++ "_" ++ (py_str_nat c ++ ".png"))%string.
Proof. unfold tile_filename. rewrite !str_app_assoc. reflexivity. Qed.

Lemma lulc_tile_filename_shape (s : string) (r c : nat) :
  lulc_tile_filename s r c =
  (((s ++ "_tile") ++ "_" ++ ("r" ++ format_03d r)) ++ "_" ++ ("c" ++ format_03d c ++ ".png"))%string.
Proof. unfold lulc_tile_filename. rewrite !str_app_assoc. reflexivity. Qed.

Lemma tile_filename_inj (s s' : string) (r r' c c' : nat) :
  tile_filename s r c = tile_filename s' r' c' -> s = s' /\ r = r' /\ c = c'.
Proof.
  rewrite !tile_filename_shape. intros H.
  apply split_last_underscore in H as [H1 H2];
    [| apply no_underscore_app; [apply py_str_nat_no_underscore | apply lit_no_underscore; reflexivity]
     | apply no_underscore_app; [apply py_str_nat_no_underscore | apply lit_no_underscore; reflexivity]].
  apply split_last_underscore in H1 as [H3 H4];
    [| apply py_str_nat_no_underscore | apply py_str_nat_no_underscore].
  apply str_app_inv_tail in H2. apply str_app_inv_tail in H3.
  apply py_str_nat_inj in H2. apply py_str_nat_inj in H4. tauto.
Qed.

Lemma lulc_tile_filename_inj (s s' : string) (r r' c c' : nat) :
  lulc_tile_filename s r c = lulc_tile_filename s' r' c' -> s = s' /\ r = r' /\ c = c'.
Proof.
  rewrite !lulc_tile_filename_shape. intros H.
  apply split_last_underscore in H as [H1 H2];
    [| apply no_underscore_app; [apply lit_no_underscore; reflexivity |
         apply no_underscore_app; [apply format_03d_no_underscore | apply lit_no_underscore; reflexivity]]
     | apply no_underscore_app; [apply lit_no_underscore; reflexivity |
         apply no_underscore_app; [apply format_03d_no_underscore | apply lit_no_underscore; reflexivity]]].
  apply split_last_underscore in H1 as [H3 H4];
    [| apply no_underscore_app; [apply lit_no_underscore; reflexivity | apply format_03d_no_underscore]
     | apply no_underscore_app; [apply lit_no_underscore; reflexivity | apply format_03d_no_underscore]].
  apply str_app_inv_tail in H3.
  cbn [String.append] in H2, H4. injection H2 as H2. injection H4 as H4.
  apply str_app_inv_tail in H2.
  apply format_03d_inj in H2. apply format_03d_inj in H4. tauto.
Qed.

Lemma rfind_from_spec (c : Ascii.ascii) (l : list Ascii.ascii) :
  forall i acc,
  (rfind_from c l i acc = acc /\ ~ In c l) \/
  (exists k, rfind_from c l i acc = Some (i + k) /\ nth_error l k = Some c /\
     ~ In c (skipn (S k) l)).
Proof.
  induction l as [| a t IH]; intros i acc; simpl.
  - left. tauto.
  - destruct (IH (S i) (if Ascii.ascii_dec a c then Some i else acc))
      as [[H1 H2] | (k & H1 & H2 & H3)].
    + rewrite H1. destruct (Ascii.ascii_dec a c) as [-> | Hne].
      * right. exists 0. rewrite Nat.add_0_r. simpl. tauto.
      * left. split; [reflexivity | intros [E | E]; [exact (Hne E) | exact (H2 E)]].
    + right. exists (S k). rewrite H1. split; [f_equal; lia |]. simpl. tauto.
Qed.

Lemma in_firstn_l {A} (x : A) (n : nat) (l : list A) : In x (firstn n l) -> In x l.
Proof. intros H. rewrite <- (firstn_skipn n l). apply in_or_app. left. exact H. Qed.

Lemma in_skipn_l {A} (x : A) (n : nat) (l : list A) : In x (skipn n l) -> In x l.
Proof. intros H. rewrite <- (firstn_skipn n l). apply in_or_app. right. exact H. Qed.

Lemma basename_no_slash (p : string) : ~ In slash (list_ascii_of_string (basename p)).
Proof.
  unfold basename, rfind.
  destruct (rfind_from_spec slash (list_ascii_of_string p) 0 None)
    as [[-> H] | (k & -> & _ & H)].
  - exact H.
  - rewrite list_ascii_of_string_of_list_ascii. exact H.
Qed.

Lemma image_stem_no_slash (path : string) : ~ In slash (list_ascii_of_string (image_stem path)).
Proof.
  unfold image_stem, splitext. pose proof (basename_no_slash path) as H.
  destruct (rfind dot _) as [d |]; [| exact H].
  destruct (_ && _); [| exact H]. simpl.
  rewrite list_ascii_of_string_of_list_ascii. intros Hin. apply H, (in_firstn_l _ d), Hin.
Qed.

(** [os.path.join(folder, name)] for a name not starting with a slash is
    [folder] followed by a fixed separator. *)
Lemma path_join_prefix (a b : string) :
  starts_with_slash b = false ->
  path_join a b = ((if String.eqb a "" || ends_with_slash a then a else a ++ "/") ++ b)%string.
Proof.
  intros H. unfold path_join. rewrite H.
  destruct (String.eqb a "" || ends_with_slash a); [reflexivity | symmetry; apply str_app_assoc].
Qed.

Lemma starts_with_slash_app (a b : string) :
  ~ In slash (list_ascii_of_string a) -> a <> EmptyString -> starts_with_slash (a ++ b) = false.
Proof.
  destruct a as [| x a]; [contradiction |]. intros H _. simpl.
  destruct (Ascii.eqb_spec x slash) as [-> | _]; [exfalso; apply H; left; reflexivity | reflexivity].
Qed.

Lemma set_mem_iff (k : nat) (s : list nat) : set_mem k s = true <-> In k s.
Proof.
  unfold set_mem. rewrite existsb_exists. split.
  - intros (x & Hx & He). apply Nat.eqb_eq in He. subst. exact Hx.
  - intros H. exists k. split; [exact H | apply Nat.eqb_refl].
Qed.

Lemma set_mem_false (k : nat) (s : list nat) : set_mem k s = false <-> ~ In k s.
Proof. rewrite <- set_mem_iff. destruct (set_mem k s); split; congruence. Qed.

Lemma in_set_add (j k : nat) (s : list nat) : In j (set_add k s) <-> j = k \/ In j s.
Proof.
  unfold set_add. case_eq (set_mem k s); intros H.
  - apply set_mem_iff in H. split; [tauto | intros [-> | ?]; assumption].
  - rewrite in_app_iff. simpl. split; intros; intuition.
Qed.

Lemma nodup_set_add (k : nat) (s : list nat) : NoDup s -> NoDup (set_add k s).
Proof.
  unfold set_add. case_eq (set_mem k s); intros H Hs; [exact Hs |].
  apply set_mem_false in H. apply NoDup_app; [exact Hs | repeat constructor; intros [] |].
  intros x Hx Hy. destruct Hy as [<- | []]. contradiction.
Qed.

Lemma in_set_remove (j k : nat) (s : list nat) : In j (set_remove k s) <-> In j s /\ j <> k.
Proof.
  unfold set_remove. rewrite filter_In. rewrite negb_true_iff, Nat.eqb_neq. tauto.
Qed.

Lemma nodup_set_remove (k : nat) (s : list nat) : NoDup s -> NoDup (set_remove k s).
Proof. apply NoDup_filter. Qed.

Lemma set_mem_add (j k : nat) (s : list nat) : set_mem j (set_add k s) = (j =? k) || set_mem j s.
Proof.
  apply eq_true_iff_eq. rewrite orb_true_iff, set_mem_iff, set_mem_iff, in_set_add, Nat.eqb_eq.
  tauto.
Qed.

Lemma set_mem_remove (j k : nat) (s : list nat) :
  set_mem j (set_remove k s) = negb (j =? k) && set_mem j s.
Proof.
  apply eq_true_iff_eq. rewrite andb_true_iff, set_mem_iff, set_mem_iff, in_set_remove,
    negb_true_iff, Nat.eqb_neq. tauto.
Qed.

Lemma length_set_selected_flag (i : nat) (b : bool) (l : list TileEntry) :
  length (set_selected_flag i b l) = length l.
Proof. revert i; induction l as [| te l IH]; intros [| i]; simpl; auto. Qed.

Lemma nth_error_set_selected_flag (i j : nat) (b : bool) (l : list TileEntry) :
  nth_error (set_selected_flag i b l) j =
  if j =? i then option_map (fun te => mkTileEntry (te_image_name te) (te_tile te) b) (nth_error l j)
  else nth_error l j.
Proof.
  revert i j; induction l as [| te l IH]; intros i j.
  - destruct i, j; simpl; try reflexivity; destruct (j =? i); reflexivity.
  - destruct i, j; simpl; try reflexivity; rewrite ?IH; reflexivity.
Qed.

Lemma find_tile_from_range (zoom x y : Q) (tz : Z) (l : list TileEntry) :
  forall i k, find_tile_from zoom x y tz l i = Some k -> i <= k < i + length l.
Proof.
  induction l as [| te l IH]; intros i k H; simpl in H; [discriminate |].
  destruct (_ && _ && _ && _) in H.
  - injection H as <-. simpl. lia.
  - apply IH in H. simpl. lia.
Qed.

Lemma get_tile_at_position_lt (st : AppState) (x y : Q) (i : nat) :
  get_tile_at_position st x y = Some i -> i < length (tiles st).
Proof. unfold get_tile_at_position. intros H. apply find_tile_from_range in H. lia. Qed.

Lemma nth_error_combine_seq {A} (l : list A) :
  forall s i, nth_error (combine (seq s (length l)) l) i = option_map (fun v => (s + i, v)) (nth_error l i).
Proof.
  induction l as [| a l IH]; intros s [| i]; simpl; try reflexivity.
  - rewrite Nat.add_0_r. reflexivity.
  - rewrite IH. destruct (nth_error l i); simpl; [do 2 f_equal; lia | reflexivity].
Qed.

Lemma in_filter_seq (p : nat -> bool) (n k : nat) :
  In k (filter p (seq 0 n)) <-> k < n /\ p k = true.
Proof. rewrite filter_In, in_seq. split; intros; intuition lia. Qed.

Lemma set_mem_filter_seq (p : nat -> bool) (n k : nat) :
  set_mem k (filter p (seq 0 n)) = (k <? n) && p k.
Proof.
  apply eq_true_iff_eq. rewrite set_mem_iff, in_filter_seq, andb_true_iff, Nat.ltb_lt. tauto.
Qed.

Lemma map_snd_combine_seq {A B} (f : A -> B) (l : list A) :
  forall s, map (fun kt => f (snd kt)) (combine (seq s (length l)) l) = map f l.
Proof. induction l as [| a l IH]; intros s; simpl; [reflexivity | rewrite IH; reflexivity]. Qed.

Lemma apply_tile_size_app_facts (entry : option Z) (st : AppState) (path : string) (im : Image) :
  nth_error (images st) (current_image_index st) = Some (path, im) ->
  0 < validate_tile_size entry (tile_size st) ->
  exists st', apply_tile_size_app entry st = Some st' /\
    tile_size st' = validate_tile_size entry (tile_size st) /\
    current_padded_image st' = Some (padded_image (current_image_of st im) (tile_size st')) /\
    map te_tile (tiles st') = tiles_of (current_image_of st im) (tile_size st') /\
    (forall te, In te (tiles st') -> te_image_name te = image_stem path) /\
    (forall k, In k (selected_tiles st') <->
       k < length (tiles st') /\ In k (sdict_get_default (image_tile_selections st) path [])) /\
    sel_inv st' /\
    tile_classifications st' = [] /\
    selected_tiles_for_category st' = selected_tiles_for_category st.
Proof.
  intros Hnth HT. unfold apply_tile_size_app.
  destruct (images st) as [| i0 rest] eqn:Him; [destruct (current_image_index st); discriminate |].
  rewrite Hnth.
  destruct (Nat.eqb_spec (validate_tile_size entry (tile_size st)) 0) as [H0 | _]; [lia |].
  unfold apply_tile_size.
  set (T := validate_tile_size entry (tile_size st)).
  set (cur := if preprocess_enabled st then _ else im).
  set (saved := sdict_get_default (image_tile_selections st) path []).
  set (ts := tiles_of cur T).
  eexists. split; [reflexivity |]. cbn [tile_size tiles selected_tiles tile_classifications current_padded_image
    selected_tiles_for_category].
  assert (Hlen : length (map (fun kt => mkTileEntry (image_stem path) (snd kt) (set_mem (fst kt) saved))
     (combine (seq 0 (length ts)) ts)) = length ts).
  { rewrite length_map, length_combine, length_seq. lia. }
  split; [reflexivity |]. split; [reflexivity |]. split.
  { rewrite map_map. cbn [te_tile]. unfold current_image_of. fold cur. fold ts.
    rewrite (map_snd_combine_seq (fun t => t)), map_id. reflexivity. }
  split.
  { intros te Hte. apply in_map_iff in Hte. destruct Hte as (kt & <- & _). reflexivity. }
  split.
  { intros k. rewrite Hlen, in_filter_seq, set_mem_iff. tauto. }
  split; [| split; reflexivity].
  unfold sel_inv. cbn [tiles selected_tiles]. rewrite Hlen. split; [| split].
  - intros i te Hte. rewrite nth_error_map, nth_error_combine_seq in Hte.
    rewrite set_mem_filter_seq.
    destruct (nth_error ts i) as [t |] eqn:Ht; [| discriminate].
    injection Hte as <-. cbn [te_selected fst].
    assert (i < length ts) by (apply nth_error_Some; congruence).
    replace (i <? length ts) with true by (symmetry; apply Nat.ltb_lt; lia). reflexivity.
  - intros k Hk. apply in_filter_seq in Hk. lia.
  - apply NoDup_filter, seq_NoDup.
Qed.

(** X1: with the current image at [current_image_index] and a positive
    validated size, [apply_tile_size] sets the size, the padded canvas and the
    tile list of that image, restores the image's saved selection restricted
    to existing tiles, keeps the selection invariant, clears the
    classifications and leaves [selected_tiles_for_category] alone. *)
Theorem apply_tile_size_app_spec (entry : option Z) (st : AppState) (path : string) (im : Image) :
  nth_error (images st) (current_image_index st) = Some (path, im) ->
  0 < validate_tile_size entry (tile_size st) ->
  exists st', apply_tile_size_app entry st = Some st' /\
    tile_size st' = validate_tile_size entry (tile_size st) /\
    current_padded_image st' = Some (padded_image (current_image_of st im) (tile_size st')) /\
    map te_tile (tiles st') = tiles_of (current_image_of st im) (tile_size st') /\
    (forall te, In te (tiles st') -> te_image_name te = image_stem path) /\
    (forall k, In k (selected_tiles st') <->
       k < length (tiles st') /\ In k (sdict_get_default (image_tile_selections st) path [])) /\
    sel_inv st' /\
    tile_classifications st' = [] /\
    selected_tiles_for_category st' = selected_tiles_for_category st.
Proof. apply apply_tile_size_app_facts. Qed.

Lemma sel_inv_same (st : AppState) (sfc : list nat) (sl : bool) (md : option SelectionMode) :
  sel_inv st -> sel_inv (with_selection st (tiles st) (selected_tiles st) sfc sl md).
Proof. intros H. exact H. Qed.

Lemma sel_inv_add (st : AppState) (i : nat) (sfc : list nat) (sl : bool) (md : option SelectionMode) :
  sel_inv st -> i < length (tiles st) ->
  sel_inv (with_selection st (set_selected_flag i true (tiles st)) (set_add i (selected_tiles st)) sfc sl md).
Proof.
  intros (Hf & Hr & Hn) Hi. unfold sel_inv, with_selection. cbn [tiles selected_tiles].
  rewrite length_set_selected_flag. split; [| split].
  - intros j te Hte. rewrite nth_error_set_selected_flag in Hte. rewrite set_mem_add.
    destruct (Nat.eqb_spec j i) as [-> | Hne].
    + destruct (nth_error (tiles st) i); [injection Hte as <-; reflexivity | discriminate].
    + apply Hf. exact Hte.
  - intros k Hk. apply in_set_add in Hk. destruct Hk as [-> | Hk]; [exact Hi | apply Hr, Hk].
  - apply nodup_set_add, Hn.
Qed.

Lemma sel_inv_remove (st : AppState) (i : nat) (sfc : list nat) (sl : bool) (md : option SelectionMode) :
  sel_inv st ->
  sel_inv (with_selection st (set_selected_flag i false (tiles st)) (set_remove i (selected_tiles st)) sfc sl md).
Proof.
  intros (Hf & Hr & Hn). unfold sel_inv, with_selection. cbn [tiles selected_tiles].
  rewrite length_set_selected_flag. split; [| split].
  - intros j te Hte. rewrite nth_error_set_selected_flag in Hte. rewrite set_mem_remove.
    destruct (Nat.eqb_spec j i) as [-> | Hne].
    + destruct (nth_error (tiles st) i); [injection Hte as <-; reflexivity | discriminate].
    + rewrite (Hf j te Hte). reflexivity.
  - intros k Hk. apply in_set_remove in Hk. apply Hr, Hk.
  - apply nodup_set_remove, Hn.
Qed.

(** X2: click, drag and release keep the per-tile [selected] flags in
    agreement with [selected_tiles], its indices in range and free of
    duplicates. *)
Theorem canvas_events_keep_sel_inv (st : AppState) (x y : Q) :
  sel_inv st ->
  sel_inv (on_canvas_click x y st) /\ sel_inv (on_canvas_drag x y st) /\ sel_inv (on_canvas_release st).
Proof.
  intros H. split; [| split].
  - unfold on_canvas_click.
    destruct (get_tile_at_position st x y) as [i |] eqn:Hi; [| apply sel_inv_same, H].
    apply get_tile_at_position_lt in Hi.
    destruct (classified st); [destruct (set_mem i _); apply sel_inv_same, H |].
    destruct (set_mem i _); [apply sel_inv_remove, H | apply sel_inv_add; assumption].
  - unfold on_canvas_drag.
    destruct (negb (is_selecting st)); [exact H |].
    destruct (selection_mode st) as [mode |]; [| exact H].
    destruct (get_tile_at_position st x y) as [i |] eqn:Hi; [| exact H].
    apply get_tile_at_position_lt in Hi.
    destruct (classified st), mode;
      repeat match goal with |- context [if ?b then _ else _] => destruct b end;
      first [exact H | apply sel_inv_same, H | apply sel_inv_remove, H | apply sel_inv_add; assumption].
  - apply sel_inv_same, H.
Qed.

(** X3: a click on tile [i] toggles [i] in [selected_tiles_for_category] when
    the tiles are classified and in [selected_tiles] otherwise, and records
    whether the drag adds or removes. *)
Theorem canvas_click_toggles (st : AppState) (x y : Q) (i : nat) :
  get_tile_at_position st x y = Some i ->
  let st' := on_canvas_click x y st in
  is_selecting st' = true /\
  if classified st then
    selected_tiles st' = selected_tiles st /\ tiles st' = tiles st /\
    (forall j, In j (selected_tiles_for_category st') <->
       (if j =? i then ~ In i (selected_tiles_for_category st) else In j (selected_tiles_for_category st))) /\
    selection_mode st' = Some (if set_mem i (selected_tiles_for_category st) then SelRemove else SelAdd)
  else
    selected_tiles_for_category st' = selected_tiles_for_category st /\
    (forall j, In j (selected_tiles st') <->
       (if j =? i then ~ In i (selected_tiles st) else In j (selected_tiles st))) /\
    selection_mode st' = Some (if set_mem i (selected_tiles st) then SelRemove else SelAdd).
Proof.
  intros Hi st'. subst st'. unfold on_canvas_click. rewrite Hi.
  destruct (classified st).
  - case_eq (set_mem i (selected_tiles_for_category st)); intros Hm; cbn;
      (split; [reflexivity |]); (split; [reflexivity |]); (split; [reflexivity |]);
      (split; [| reflexivity]); intros j.
    + rewrite in_set_remove. apply set_mem_iff in Hm.
      destruct (Nat.eqb_spec j i) as [-> | Hne]; tauto.
    + rewrite in_set_add. apply set_mem_false in Hm.
      destruct (Nat.eqb_spec j i) as [-> | Hne]; tauto.
  - case_eq (set_mem i (selected_tiles st)); intros Hm; cbn;
      (split; [reflexivity |]); (split; [reflexivity |]); (split; [| reflexivity]); intros j.
    + rewrite in_set_remove. apply set_mem_iff in Hm.
      destruct (Nat.eqb_spec j i) as [-> | Hne]; tauto.
    + rewrite in_set_add. apply set_mem_false in Hm.
      destruct (Nat.eqb_spec j i) as [-> | Hne]; tauto.
Qed.

(** X4: a drag started by adding never removes a tile; one started by removing
    never adds one. *)
Theorem canvas_drag_monotone (st : AppState) (x y : Q) :
  let st' := on_canvas_drag x y st in
  (selection_mode st = Some SelAdd ->
     incl (selected_tiles st) (selected_tiles st') /\
     incl (selected_tiles_for_category st) (selected_tiles_for_category st')) /\
  (selection_mode st = Some SelRemove ->
     incl (selected_tiles st') (selected_tiles st) /\
     incl (selected_tiles_for_category st') (selected_tiles_for_category st)).
Proof.
  intros st'. subst st'. unfold on_canvas_drag.
  split; intros Hm; rewrite Hm;
  (destruct (negb (is_selecting st)); [split; apply incl_refl |]);
  (destruct (get_tile_at_position st x y) as [i |]; [| split; apply incl_refl]);
  destruct (classified st);
  repeat match goal with |- context [if ?b then _ else _] => destruct b end;
  cbn; split; first [apply incl_refl | intros j Hj; first [apply in_set_add; right; exact Hj
                                                          | apply in_set_remove in Hj; apply Hj]].
Qed.

Lemma find_first_least {A} (p : A -> bool) (l : list A) :
  forall i k v, nth_error l k = Some v -> p v = true ->
  (forall j v', j < k -> nth_error l j = Some v' -> p v' = false) ->
  find_first p l i = Some (i + k).
Proof.
  induction l as [| a l IH]; intros i k v Hk Hp Hb; [destruct k; discriminate |].
  destruct k as [| k]; simpl in Hk |- *.
  - injection Hk as ->. rewrite Hp. f_equal. lia.
  - rewrite (Hb 0 a) by (reflexivity || lia).
    rewrite (IH (S i) k v Hk Hp). f_equal. lia.
    intros j v' Hj Hv'. apply (Hb (S j)); [lia | exact Hv'].
Qed.

Lemma find_first_none {A} (p : A -> bool) (l : list A) :
  forall i, (forall v, In v l -> p v = false) -> find_first p l i = None.
Proof.
  induction l as [| a l IH]; intros i H; simpl; [reflexivity |].
  rewrite (H a (or_introl eq_refl)). apply IH. intros v Hv. apply H. right. exact Hv.
Qed.

Lemma find_tile_from_first (zoom x y : Q) (tz : Z) (l : list TileEntry) :
  forall i, find_tile_from zoom x y tz l i =
  find_first (fun t =>
    let tx := py_int (inject_Z (Z.of_nat (tile_x t)) * zoom) in
    let ty := py_int (inject_Z (Z.of_nat (tile_y t)) * zoom) in
    qle (inject_Z tx) x && qle x (inject_Z (tx + tz)) && qle (inject_Z ty) y &&
    qle y (inject_Z (ty + tz))) (map te_tile l) i.
Proof. induction l as [| te l IH]; intros i; simpl; [reflexivity | rewrite IH; reflexivity]. Qed.

Lemma py_int_times_one (z : Z) : (0 <= z)%Z -> py_int (inject_Z z * 1) = z.
Proof.
  intros Hz. unfold py_int.
  replace (Qle_bool 0 (inject_Z z * 1)) with true.
  - unfold Qfloor, inject_Z, Qmult. simpl. rewrite Z.mul_1_r. apply Z.div_1_r.
  - symmetry. apply Qle_bool_iff. unfold Qle, inject_Z, Qmult. simpl. lia.
Qed.

Lemma qle_inject_Z (a b : Z) : qle (inject_Z a) (inject_Z b) = (a <=? b)%Z.
Proof.
  apply eq_true_iff_eq. rewrite qle_spec, Z.leb_le, <- Zle_Qle. reflexivity.
Qed.

Lemma qle_inject_nat (a b : nat) : qle (inject_Z (Z.of_nat a)) (inject_Z (Z.of_nat b)) = (a <=? b).
Proof.
  rewrite qle_inject_Z. apply eq_true_iff_eq. rewrite Z.leb_le, Nat.leb_le. lia.
Qed.

Lemma ceil_div_pos (a T : nat) : 0 < T -> 0 < a -> 0 < ceil_div a T.
Proof.
  intros HT Ha. destruct (ceil_div_bounds a T HT) as [H1 _].
  destruct (ceil_div a T); simpl in H1; lia.
Qed.

(** [x] on a grid line between two tiles belongs to the left (upper) one. *)
Lemma hit_cell (T x c : nat) : 0 < T ->
  (c * T <= x /\ x <= c * T + T) -> (x - 1) / T <= c.
Proof.
  intros HT [H1 H2].
  destruct (Nat.lt_ge_cases ((x - 1) / T) (S c)) as [H | H]; [lia |].
  pose proof (Nat.div_mod_eq (x - 1) T). pose proof (Nat.mod_upper_bound (x - 1) T).
  assert (S c * T <= (x - 1) / T * T) by (apply Nat.mul_le_mono_r; exact H). nia.
Qed.

Lemma hit_cell_own (T x : nat) : 0 < T -> (x - 1) / T * T <= x /\ x <= (x - 1) / T * T + T.
Proof.
  intros HT. pose proof (Nat.div_mod_eq (x - 1) T). pose proof (Nat.mod_upper_bound (x - 1) T).
  lia.
Qed.

Lemma hit_cell_lt (T x n : nat) : 0 < T -> 0 < n -> x <= n * T -> (x - 1) / T < n.
Proof.
  intros HT Hn Hx. apply Nat.Div0.div_lt_upper_bound; lia.
Qed.

(** X5: at zoom 1, a canvas point with integer coordinates hits tile [(y - 1)
    / T * tiles_x + (x - 1) / T] when it lies in the padded canvas (borders
    included, first match wins), and no tile otherwise. *)
Theorem hit_test_grid (st : AppState) (im : Image) (x y : nat) :
  zoom_level st = 1%Q -> 0 < tile_size st ->
  0 < img_width im -> 0 < img_height im ->
  map te_tile (tiles st) = tiles_of im (tile_size st) ->
  let T := tile_size st in
  let tiles_x := ceil_div (img_width im) T in
  let tiles_y := ceil_div (img_height im) T in
  get_tile_at_position st (inject_Z (Z.of_nat x)) (inject_Z (Z.of_nat y)) =
  if (x <=? tiles_x * T) && (y <=? tiles_y * T)
  then Some ((y - 1) / T * tiles_x + (x - 1) / T) else None.
Proof.
  intros Hz HT Hw Hh Htiles T tiles_x tiles_y.
  unfold get_tile_at_position. rewrite find_tile_from_first, Htiles, Hz.
  rewrite py_int_times_one by lia. fold T.
  set (p := fun t : Tile => _).
  assert (Hp : forall t, p t = (tile_x t <=? x) && (x <=? tile_x t + T) &&
                              (tile_y t <=? y) && (y <=? tile_y t + T)).
  { intros t. subst p. cbv beta zeta.
    rewrite !py_int_times_one by lia. rewrite <- !Nat2Z.inj_add, !qle_inject_nat. reflexivity. }
  assert (Hpt : forall r c, p (tile_at (padded_image im T) T r c) =
            (c * T <=? x) && (x <=? c * T + T) && (r * T <=? y) && (y <=? r * T + T)).
  { intros r c. rewrite Hp. reflexivity. }
  assert (Htx : 0 < tiles_x) by (apply ceil_div_pos; assumption).
  assert (Hty : 0 < tiles_y) by (apply ceil_div_pos; assumption).
  unfold tiles_of, generate_tiles. fold T. fold tiles_x tiles_y.
  destruct (Nat.leb_spec x (tiles_x * T)) as [Hx | Hx];
  destruct (Nat.leb_spec y (tiles_y * T)) as [Hy | Hy]; cbn [andb].
  - set (r0 := (y - 1) / T). set (c0 := (x - 1) / T).
    assert (Hr0 : r0 < tiles_y) by (apply hit_cell_lt; lia).
    assert (Hc0 : c0 < tiles_x) by (apply hit_cell_lt; lia).
    assert (Hk : r0 * tiles_x + c0 < tiles_y * tiles_x) by nia.
    replace (Some (r0 * tiles_x + c0)) with (Some (0 + (r0 * tiles_x + c0))) by reflexivity.
    apply (find_first_least p _ 0 _ (tile_at (padded_image im T) T r0 c0)).
    + rewrite (nth_error_grid _ _ Htx tiles_y 0 _ Hk). f_equal. f_equal.
      * rewrite Nat.div_add_l, Nat.div_small by lia. lia.
      * rewrite Nat.add_comm, Nat.Div0.mod_add, Nat.mod_small by lia. reflexivity.
    + rewrite Hpt. pose proof (hit_cell_own T x HT). pose proof (hit_cell_own T y HT).
      fold c0 r0 in H, H0.
      repeat rewrite (proj2 (Nat.leb_le _ _)) by lia. reflexivity.
    + intros j v Hj Hv. rewrite nth_error_grid in Hv by (exact Htx || lia).
      injection Hv as <-. rewrite ?Nat.add_0_l, Hpt.
      apply not_true_iff_false. rewrite !andb_true_iff, !Nat.leb_le.
      intros [[[H1 H2] H3] H4].
      pose proof (hit_cell T x (j mod tiles_x) HT (conj H1 H2)).
      pose proof (hit_cell T y (j / tiles_x) HT (conj H3 H4)).
      fold c0 r0 in H, H0.
      pose proof (Nat.div_mod_eq j tiles_x). nia.
  - apply find_first_none. intros v Hv. apply in_generate_tiles in Hv.
    destruct Hv as (r & c & Hr & Hc & ->). rewrite Hpt.
    apply not_true_iff_false. rewrite !andb_true_iff, !Nat.leb_le. nia.
  - apply find_first_none. intros v Hv. apply in_generate_tiles in Hv.
    destruct Hv as (r & c & Hr & Hc & ->). rewrite Hpt.
    apply not_true_iff_false. rewrite !andb_true_iff, !Nat.leb_le. nia.
  - apply find_first_none. intros v Hv. apply in_generate_tiles in Hv.
    destruct Hv as (r & c & Hr & Hc & ->). rewrite Hpt.
    apply not_true_iff_false. rewrite !andb_true_iff, !Nat.leb_le. nia.
Qed.

Lemma sdict_get_odict_set_same {A} (d : list (string * A)) (k : string) (v : A) :
  sdict_get (odict_set d k v) k = Some v.
Proof.
  induction d as [| [k' v'] d IH]; simpl.
  - rewrite String.eqb_refl. reflexivity.
  - destruct (String.eqb_spec k k') as [-> | Hne]; simpl.
    + rewrite String.eqb_refl. reflexivity.
    + apply String.eqb_neq in Hne. rewrite Hne. exact IH.
Qed.

Lemma sdict_get_odict_set_other {A} (d : list (string * A)) (k k' : string) (v : A) :
  k <> k' -> sdict_get (odict_set d k v) k' = sdict_get d k'.
Proof.
  intros Hne. induction d as [| [k'' v''] d IH]; simpl.
  - apply String.eqb_neq in Hne. rewrite String.eqb_sym, Hne. reflexivity.
  - destruct (String.eqb_spec k k'') as [-> | Hne']; simpl.
    + apply String.eqb_neq in Hne. rewrite String.eqb_sym, Hne. reflexivity.
    + rewrite IH. reflexivity.
Qed.

Lemma validate_tile_size_idem (entry : option Z) (t : nat) :
  validate_tile_size entry (validate_tile_size entry t) = validate_tile_size entry t.
Proof. destruct entry as [z |]; simpl; [destruct (z <=? 0)%Z |]; reflexivity. Qed.

Lemma apply_tile_size_app_keeps (entry : option Z) (st st' : AppState) :
  apply_tile_size_app entry st = Some st' ->
  images st' = images st /\ current_image_index st' = current_image_index st /\
  image_tile_selections st' = image_tile_selections st /\
  preprocess_enabled st' = preprocess_enabled st /\
  selected_tiles_for_category st' = selected_tiles_for_category st.
Proof.
  unfold apply_tile_size_app. destruct (images st) as [| a l] eqn:E; [intros [= <-]; rewrite ?E; repeat split |].
  destruct (nth_error _ (current_image_index st)) as [[path im] |]; [| discriminate].
  destruct (Nat.eqb (validate_tile_size entry (tile_size st)) 0); [discriminate |].
  destruct (apply_tile_size _ _ _) as [[T padded] ts].
  intros [= <-]. cbn. repeat split.
Qed.

Lemma prev_of_next_index (i n : nat) : i < n ->
  Z.to_nat ((Z.of_nat ((i + 1) mod n) - 1) mod Z.of_nat n) = i.
Proof.
  intros Hi. destruct (Nat.eq_dec (i + 1) n) as [He | He].
  - rewrite He, Nat.Div0.mod_same. replace (Z.of_nat 0 - 1)%Z with (-1)%Z by lia.
    rewrite <- (Z.mod_add (-1) 1 (Z.of_nat n)) by lia.
    rewrite Z.mod_small by lia. lia.
  - rewrite Nat.mod_small by lia. rewrite Nat2Z.inj_add.
    replace (Z.of_nat i + Z.of_nat 1 - 1)%Z with (Z.of_nat i) by lia.
    rewrite Z.mod_small by lia. lia.
Qed.

Lemma nodup_paths (imgs : list (string * Image)) (i j : nat) (p : string) (a b : Image) :
  NoDup (map fst imgs) -> nth_error imgs i = Some (p, a) -> nth_error imgs j = Some (p, b) -> i = j.
Proof.
  intros Hn Hi Hj. apply (proj1 (NoDup_nth_error (map fst imgs)) Hn i j).
  - rewrite length_map. apply nth_error_Some. congruence.
  - rewrite !nth_error_map, Hi, Hj. reflexivity.
Qed.

Lemma match_list_nonempty {A B} (l : list A) (x y : B) :
  l <> [] -> match l with [] => x | _ :: _ => y end = y.
Proof. destruct l; [contradiction | reflexivity]. Qed.

(** X6: [next_image] then [prev_image] returns to the same image, re-tiled,
    with the same selected tiles. *)
Theorem next_prev_round_trip (entry : option Z) (st : AppState) (path : string) (im : Image) :
  NoDup (map fst (images st)) ->
  nth_error (images st) (current_image_index st) = Some (path, im) ->
  sel_inv st ->
  0 < validate_tile_size entry (tile_size st) ->
  length (tiles st) = length (tiles_of im (validate_tile_size entry (tile_size st))) ->
  exists st1 st2, next_image entry st = Some st1 /\ prev_image entry st1 = Some st2 /\
    current_image_index st2 = current_image_index st /\
    tile_size st2 = validate_tile_size entry (tile_size st) /\
    map te_tile (tiles st2) = tiles_of im (tile_size st2) /\
    (forall k, In k (selected_tiles st2) <-> In k (selected_tiles st)) /\
    sel_inv st2.
Proof.
  intros Hnd Hnth (Hf & Hr & Hn) HT Hlen.
  assert (Hne : images st <> []).
  { intros E. rewrite E in Hnth. destruct (current_image_index st); discriminate. }
  set (i := current_image_index st) in *. set (n := length (images st)).
  assert (Hi : i < n) by (apply nth_error_Some; congruence).
  set (j := (i + 1) mod n).
  assert (Hj : j < n) by (apply Nat.mod_upper_bound; lia).
  destruct (nth_error (images st) j) as [[pj imj] |] eqn:Hnj;
    [| apply nth_error_None in Hnj; lia].
  set (s1 := switch_image path j st).
  destruct (apply_tile_size_app_facts entry s1 pj imj) as
    (st1 & Happ1 & Hts1 & _ & Htiles1 & _ & Hsel1 & Hinv1 & _ & _); [exact Hnj | exact HT |].
  destruct (apply_tile_size_app_keeps entry s1 st1 Happ1) as (Him1 & Hidx1 & Hsels1 & Hpre1 & _).
  cbn [images current_image_index image_tile_selections preprocess_enabled tile_size s1 switch_image]
    in Him1, Hidx1, Hsels1, Hpre1, Hts1.
  assert (Hprev : Z.to_nat ((Z.of_nat j - 1) mod Z.of_nat (length (images st1))) = i).
  { rewrite Him1. apply prev_of_next_index, Hi. }
  set (s2 := switch_image pj i st1).
  assert (Hnth2 : nth_error (images s2) (current_image_index s2) = Some (path, im)).
  { cbn [s2 switch_image images current_image_index]. rewrite Him1. exact Hnth. }
  assert (HT2 : 0 < validate_tile_size entry (tile_size s2)).
  { cbn [s2 switch_image tile_size]. rewrite Hts1, validate_tile_size_idem. exact HT. }
  destruct (apply_tile_size_app_facts entry s2 path im Hnth2 HT2) as
    (st2 & Happ2 & Hts2 & _ & Htiles2 & _ & Hsel2 & Hinv2 & _ & _).
  cbn [s2 switch_image tile_size] in Hts2. rewrite Hts1, validate_tile_size_idem in Hts2.
  assert (Hcur2 : current_image_of s2 im = im) by reflexivity.
  rewrite Hcur2 in Htiles2.
  exists st1, st2. split; [| split; [| split; [| split; [| split; [| split]]]]].
  - unfold next_image. change (current_image_index st) with i.
    rewrite match_list_nonempty by exact Hne.
    rewrite Hnth. exact Happ1.
  - unfold prev_image. rewrite Hidx1.
    rewrite match_list_nonempty by (rewrite Him1; exact Hne).
    rewrite Him1, Hnj. rewrite Him1 in Hprev. rewrite Hprev. exact Happ2.
  - destruct (apply_tile_size_app_keeps entry s2 st2 Happ2) as (_ & Hidx2 & _). exact Hidx2.
  - exact Hts2.
  - exact Htiles2.
  - intros k. rewrite Hsel2.
    cbn [s2 switch_image image_tile_selections selected_tiles].
    assert (Hl2 : length (tiles st2) = length (tiles st)).
    { rewrite <- (length_map te_tile), Htiles2, Hts2. symmetry. exact Hlen. }
    rewrite Hl2, Hsels1.
    destruct (String.eqb_spec pj path) as [-> | Hpj].
    + assert (j = i) by (apply (nodup_paths (images st) j i path imj im); assumption).
      unfold sdict_get_default. rewrite sdict_get_odict_set_same.
      rewrite Hsel1. cbn [s1 switch_image image_tile_selections].
      unfold sdict_get_default. rewrite sdict_get_odict_set_same.
      assert (Hl1 : length (tiles st1) = length (tiles st)).
      { rewrite <- (length_map te_tile), Htiles1, Hts1. rewrite Hlen.
        subst j. rewrite H in Hnj. rewrite Hnj in Hnth. injection Hnth as ->. reflexivity. }
      rewrite Hl1. split; [tauto | intros Hk; pose proof (Hr k Hk); tauto].
    + unfold sdict_get_default. rewrite sdict_get_odict_set_other by exact Hpj.
      rewrite sdict_get_odict_set_same. split; [tauto | intros Hk; split; [apply Hr |]; exact Hk].
  - exact Hinv2.
Qed.

Lemma in_export_image_tiles save_ok folder T p img selected fp timg :
  In (fp, timg) (export_image_tiles save_ok folder T p img selected) <->
  exists row col, row < ceil_div (img_height img) T /\ col < ceil_div (img_width img) T /\
    In (row * ceil_div (img_width img) T + col) selected /\
    fp = path_join folder (tile_filename (image_stem p) row col) /\ save_ok fp = true /\
    timg = tile_img (tile_at (padded_image img T) T row col).
Proof.
  unfold export_image_tiles. rewrite in_flat_map. split.
  - intros (row & Hrow & Hin). rewrite in_flat_map in Hin. destruct Hin as (col & Hcol & Hin).
    apply in_seq in Hrow, Hcol.
    destruct (set_mem _ selected) eqn:Hm; [| destruct Hin].
    destruct (save_ok _) eqn:Hs; [| destruct Hin].
    destruct Hin as [[= <- <-] | []].
    exists row, col. apply set_mem_iff in Hm. repeat split; (lia || assumption || reflexivity).
  - intros (row & col & Hrow & Hcol & Hm & -> & Hs & ->). exists row. split; [apply in_seq; lia |].
    apply in_flat_map. exists col. split; [apply in_seq; lia |].
    apply set_mem_iff in Hm. rewrite Hm, Hs. left. reflexivity.
Qed.

Lemma store_current_selection_current (st : AppState) (p : string) (im : Image) :
  nth_error (images st) (current_image_index st) = Some (p, im) ->
  sdict_get (store_current_selection st) p = Some (selected_tiles st).
Proof.
  intros H. unfold store_current_selection. rewrite H. apply sdict_get_odict_set_same.
Qed.

(** X7: [export_tiles] stores the current selection first, writes exactly the
    selected tiles of every image whose save succeeds, at
    [folder/<stem>_tile_<row>_<col>.png], and reports their number or the no-
    tiles warning. *)
Theorem export_tiles_written (save_ok : string -> bool) (folder : string) (st : AppState)
  (sels : list (string * list nat)) (written : list (string * Image)) (outcome : ExportOutcome) :
  images st <> [] -> folder <> ""%string -> 0 < tile_size st ->
  export_tiles save_ok folder st = (sels, written, outcome) ->
  let T := tile_size st in
  sels = store_current_selection st /\
  (forall fp timg, In (fp, timg) written <->
     exists p img row col, In (p, img) (images st) /\
       row < ceil_div (img_height img) T /\ col < ceil_div (img_width img) T /\
       In (row * ceil_div (img_width img) T + col) (sdict_get_default sels p []) /\
       fp = path_join folder (tile_filename (image_stem p) row col) /\ save_ok fp = true /\
       timg = tile_img (tile_at (padded_image img T) T row col)) /\
  outcome = (if is_nil written then NoTilesWarning else ExportComplete (length written)).
Proof.
  intros Hne Hf HT Hex T. unfold export_tiles in Hex.
  rewrite match_list_nonempty in Hex by exact Hne.
  apply String.eqb_neq in Hf. rewrite Hf in Hex.
  replace (tile_size st =? 0) with false in Hex by (symmetry; apply Nat.eqb_neq; lia).
  cbn [andb] in Hex. injection Hex as <- <- <-.
  split; [reflexivity |]. split.
  - intros fp timg. rewrite in_flat_map. split.
    + intros ([p img] & Hpi & Hin). cbn [fst snd] in Hin.
      destruct (is_nil _) eqn:Hnil; [destruct Hin |].
      apply in_export_image_tiles in Hin. destruct Hin as (row & col & H).
      exists p, img, row, col. split; [exact Hpi | exact H].
    + intros (p & img & row & col & Hpi & Hrow & Hcol & Hm & H).
      exists (p, img). split; [exact Hpi |]. cbn [fst snd].
      destruct (sdict_get_default _ p []) eqn:Hs; [destruct Hm |]. cbn [is_nil].
      apply in_export_image_tiles. exists row, col. repeat split; tauto.
  - set (w := flat_map _ _). destruct w; reflexivity.
Qed.

Lemma nodup_map_flat_map {A B C D} (g : B -> C) (h : A -> D) (f : A -> list B) (l : list A) :
  NoDup (map h l) -> (forall a, In a l -> NoDup (map g (f a))) ->
  (forall a b x y, In a l -> In b l -> In x (f a) -> In y (f b) -> g x = g y -> h a = h b) ->
  NoDup (map g (flat_map f l)).
Proof.
  induction l as [| a l IH]; intros Hl Hf Hx; simpl; [constructor |].
  rewrite map_app. inversion Hl as [| ? ? Hna Hl']; subst.
  apply NoDup_app.
  - apply Hf. left. reflexivity.
  - apply IH; [exact Hl' | intros; apply Hf; right; assumption |].
    intros; eapply Hx; eauto; right; assumption.
  - intros z Hz1 Hz2. apply in_map_iff in Hz1, Hz2.
    destruct Hz1 as (x & <- & Hx1). destruct Hz2 as (y & Hgy & Hy).
    apply in_flat_map in Hy. destruct Hy as (b & Hb & Hy).
    apply Hna. rewrite (Hx a b x y (or_introl eq_refl) (or_intror Hb) Hx1 Hy (eq_sym Hgy)).
    apply in_map, Hb.
Qed.

Lemma tile_filename_not_slash (s : string) (r c : nat) :
  ~ In slash (list_ascii_of_string s) -> starts_with_slash (tile_filename s r c) = false.
Proof.
  intros H. destruct s as [| x s]; [reflexivity |].
  unfold tile_filename. apply starts_with_slash_app; [exact H | discriminate].
Qed.

Lemma path_join_inj (a b b' : string) :
  starts_with_slash b = false -> starts_with_slash b' = false ->
  path_join a b = path_join a b' -> b = b'.
Proof.
  intros H H'. rewrite (path_join_prefix a b H), (path_join_prefix a b' H'). apply str_app_inv_head.
Qed.

Lemma export_path_inj (folder s s' : string) (r r' c c' : nat) :
  ~ In slash (list_ascii_of_string s) -> ~ In slash (list_ascii_of_string s') ->
  path_join folder (tile_filename s r c) = path_join folder (tile_filename s' r' c') ->
  s = s' /\ r = r' /\ c = c'.
Proof.
  intros Hs Hs' H. apply tile_filename_inj.
  apply (path_join_inj folder); [apply tile_filename_not_slash; exact Hs | apply tile_filename_not_slash; exact Hs' | exact H].
Qed.

Lemma nodup_singleton_or_nil {A} (l : list A) : length l <= 1 -> NoDup l.
Proof. destruct l as [| a [| b l]]; simpl; intros H; [constructor | repeat constructor; intros [] | lia]. Qed.

Lemma nodup_export_image_tiles save_ok folder T p img selected :
  NoDup (map fst (export_image_tiles save_ok folder T p img selected)).
Proof.
  unfold export_image_tiles.
  apply (nodup_map_flat_map fst (fun r => r)); [rewrite map_id; apply seq_NoDup | |].
  - intros row _. apply (nodup_map_flat_map fst (fun c => c)); [rewrite map_id; apply seq_NoDup | |].
    + intros col _. apply nodup_singleton_or_nil.
      destruct (set_mem _ _); [destruct (save_ok _) |]; simpl; lia.
    + intros c c' x y _ _ Hx Hy Hxy.
      destruct (set_mem _ _); [destruct (save_ok _) |]; try destruct Hx as [<- | []]; try destruct Hx.
      destruct (set_mem (row * _ + c') _); [destruct (save_ok (path_join folder (tile_filename _ row c'))) |];
        try destruct Hy as [<- | []]; try destruct Hy.
      cbn [fst] in Hxy. apply export_path_inj in Hxy; try apply image_stem_no_slash. tauto.
  - intros r r' x y _ _ Hx Hy Hxy.
    apply in_flat_map in Hx, Hy. destruct Hx as (c & _ & Hx). destruct Hy as (c' & _ & Hy).
    destruct (set_mem _ _); [destruct (save_ok _) |]; try destruct Hx as [<- | []]; try destruct Hx.
    destruct (set_mem (r' * _ + c') _); [destruct (save_ok (path_join folder (tile_filename _ r' c'))) |];
      try destruct Hy as [<- | []]; try destruct Hy.
    cbn [fst] in Hxy. apply export_path_inj in Hxy; try apply image_stem_no_slash. tauto.
Qed.

(** X8: when image stems are distinct, [export_tiles] never writes two tiles
    to the same path. *)
Theorem export_tiles_distinct_paths (save_ok : string -> bool) (folder : string) (st : AppState)
  (sels : list (string * list nat)) (written : list (string * Image)) (outcome : ExportOutcome) :
  NoDup (map (fun pi => image_stem (fst pi)) (images st)) ->
  export_tiles save_ok folder st = (sels, written, outcome) ->
  NoDup (map fst written).
Proof.
  intros Hst Hex. unfold export_tiles in Hex.
  destruct (images st) as [| i0 rest] eqn:Him; [injection Hex as _ <- _; constructor |].
  rewrite <- Him in *.
  destruct (String.eqb folder ""); [injection Hex as _ <- _; constructor |].
  destruct (_ && _); [injection Hex as _ <- _; constructor |].
  injection Hex as _ <- _.
  apply (nodup_map_flat_map fst (fun pi => image_stem (fst pi))); [exact Hst | |].
  - intros [p img] _. destruct (is_nil _); [constructor | apply nodup_export_image_tiles].
  - intros [p img] [q img'] x y _ _ Hx Hy Hxy. cbn [fst snd] in *.
    destruct (is_nil (sdict_get_default _ p [])); [destruct Hx |].
    destruct (is_nil (sdict_get_default _ q [])); [destruct Hy |].
    destruct x as [fx tx], y as [fy ty].
    apply in_export_image_tiles in Hx, Hy.
    destruct Hx as (r & c & _ & _ & _ & -> & _). destruct Hy as (r' & c' & _ & _ & _ & -> & _).
    cbn [fst] in Hxy. apply export_path_inj in Hxy; try apply image_stem_no_slash. tauto.
Qed.

Lemma length_filter_split {A} (f : A -> bool) (l : list A) :
  length (filter f l) + length (filter (fun x => negb (f x)) l) = length l.
Proof. induction l as [| a l IH]; simpl; [reflexivity |]. destruct (f a); simpl; lia. Qed.

Lemma flat_map_singleton_filter {A B} (f : A -> bool) (g : A -> B) (l : list A) :
  flat_map (fun x => if f x then [g x] else []) l = map g (filter f l).
Proof. induction l as [| a l IH]; simpl; [reflexivity |]. destruct (f a); simpl; rewrite IH; reflexivity. Qed.

Lemma flat_map_singleton_filter_neg {A B} (f : A -> bool) (g : A -> B) (l : list A) :
  flat_map (fun x => if f x then [] else [g x]) l = map g (filter (fun x => negb (f x)) l).
Proof. induction l as [| a l IH]; simpl; [reflexivity |]. destruct (f a); simpl; rewrite IH; reflexivity. Qed.

Lemma filter_map_comm {A B} (f : B -> bool) (g : A -> B) (l : list A) :
  filter f (map g l) = map g (filter (fun x => f (g x)) l).
Proof. induction l as [| a l IH]; simpl; [reflexivity |]. destruct (f (g a)); simpl; rewrite IH; reflexivity. Qed.

Lemma map_add_seq (a n : nat) : forall s, map (fun x => a + x) (seq s n) = seq (a + s) n.
Proof.
  induction n as [| n IH]; intros s; simpl; [reflexivity |].
  rewrite IH. f_equal. f_equal. lia.
Qed.

Lemma cells_indices (tx ty s : nat) :
  map (fun rc => fst rc * tx + snd rc)
    (flat_map (fun row => map (fun col => (row, col)) (seq 0 tx)) (seq s ty)) = seq (s * tx) (ty * tx).
Proof.
  revert s. induction ty as [| ty IH]; intros s; simpl; [reflexivity |].
  rewrite map_app, IH, map_map. cbn [fst snd].
  rewrite (map_add_seq (s * tx) tx 0), Nat.add_0_r.
  replace (S s * tx) with (s * tx + tx) by lia. rewrite <- seq_app. reflexivity.
Qed.

Lemma classify_image_tiles_counts (folder no_folder : string) (T : nat) (p : string) (img : Image)
  (selected : list nat) :
  let tiles_x := ceil_div (img_width img) T in
  let tiles_y := ceil_div (img_height img) T in
  let r := classify_image_tiles (fun _ => true) folder no_folder T p img selected in
  length (fst r) = length (filter (fun k => set_mem k selected) (seq 0 (tiles_x * tiles_y))) /\
  length (fst r) + length (snd r) = tiles_x * tiles_y.
Proof.
  intros tiles_x tiles_y r. subst r. unfold classify_image_tiles. fold tiles_x tiles_y. cbn [fst snd].
  set (cells := flat_map _ (seq 0 tiles_y)).
  set (sel := fun rc : nat * nat => set_mem (fst rc * tiles_x + snd rc) selected).
  cbv beta zeta.
  rewrite (flat_map_singleton_filter sel), flat_map_singleton_filter_neg.
  rewrite !length_map.
  assert (Hc : map (fun rc => fst rc * tiles_x + snd rc) cells = seq 0 (tiles_y * tiles_x))
    by apply cells_indices.
  split.
  - rewrite Nat.mul_comm, <- Hc, filter_map_comm, length_map. reflexivity.
  - rewrite length_filter_split. rewrite <- (length_map (fun rc => fst rc * tiles_x + snd rc)), Hc.
    rewrite length_seq. lia.
Qed.

Lemma length_flat_map {A B} (f : A -> list B) (l : list A) :
  length (flat_map f l) = list_sum (map (fun a => length (f a)) l).
Proof. induction l as [| a l IH]; simpl; [reflexivity |]. rewrite length_app, IH. reflexivity. Qed.

Lemma list_sum_cons (a : nat) (l : list nat) : list_sum (a :: l) = a + list_sum l.
Proof. reflexivity. Qed.

(** X9: when every save succeeds, [export_classification] stores the current
    selection, writes one file to the chosen folder per saved selection index
    that is a tile of its image, and writes as many files in total (chosen
    folder and [no_<folder>]) as all images have tiles. *)
Theorem export_classification_partition (folder : string) (st : AppState)
  (sels : list (string * list nat)) (sel_written unsel_written : list (string * Image))
  (outcome : ClassificationExportOutcome) :
  images st <> [] -> folder <> ""%string -> 0 < tile_size st ->
  export_classification (fun _ => true) folder st = (sels, sel_written, unsel_written, outcome) ->
  let T := tile_size st in
  sels = store_current_selection st /\
  outcome = CEComplete (length sel_written) (length unsel_written) /\
  length sel_written =
    list_sum (map (fun pi => length (filter (fun k => set_mem k (sdict_get_default sels (fst pi) []))
        (seq 0 (ceil_div (img_width (snd pi)) T * ceil_div (img_height (snd pi)) T)))) (images st)) /\
  length sel_written + length unsel_written =
    list_sum (map (fun pi => ceil_div (img_width (snd pi)) T * ceil_div (img_height (snd pi)) T)
      (images st)).
Proof.
  intros Hne Hf HT Hex T. unfold export_classification in Hex.
  rewrite match_list_nonempty in Hex by exact Hne.
  apply String.eqb_neq in Hf. rewrite Hf in Hex.
  replace (tile_size st =? 0) with false in Hex by (symmetry; apply Nat.eqb_neq; lia).
  injection Hex as <- <- <- <-.
  split; [reflexivity |]. split; [reflexivity |].
  rewrite !length_flat_map, !map_map. split.
  - f_equal. apply map_ext. intros [p img].
    apply (classify_image_tiles_counts folder (no_folder_of folder) T p img).
  - subst T. clear. induction (images st) as [| [p img] l IH]; cbn [map]; [reflexivity |].
    rewrite !list_sum_cons.
    rewrite <- IH.
    destruct (classify_image_tiles_counts folder (no_folder_of folder) (tile_size st) p img
                (sdict_get_default (store_current_selection st) p [])) as [_ H].
    cbn zeta in H. cbn [fst snd]. lia.
Qed.

Lemma classify_tile_in_categories (f : TileFeatures) :
  exists c, classify_tile f = Some c /\ In c CATEGORIES.
Proof.
  unfold classify_tile.
  destruct (classify_rules f) as [c |] eqn:E.
  - exists c. split; [reflexivity | exact (classify_rules_in_categories f c E)].
  - rewrite fallback_scores_of.
    destruct (qlt (34 # 100) (g_ratio f)), (qlt (10 # 100) (edge_density f)),
      (qlt 120 (brightness f)); (eexists; split; [reflexivity | simpl; tauto]).
Qed.

Lemma cloud_not_category : ~ In "Cloud"%string CATEGORIES.
Proof. simpl. intuition discriminate. Qed.

Lemma classify_tiles_from_spec {Arr} (to_bgr : Image -> Arr) (band_correct : Arr -> Arr)
  (cloudy : Arr -> bool) (features : Arr -> TileFeatures) (acc fc : bool) (total : nat)
  (tiles : list TileEntry) :
  forall i, exists cls,
    classify_tiles_from Arr to_bgr band_correct cloudy features acc fc total i tiles =
      Some (cls, map (fun k => (S k, total)) (seq i (length tiles))) /\
    length cls = length tiles /\
    (forall c, In c cls -> (c = "Cloud"%string /\ fc = true) \/ In c CATEGORIES).
Proof.
  induction tiles as [| te rest IH]; intros i; simpl.
  - exists []. split; [reflexivity | split; [reflexivity | intros c []]].
  - destruct (IH (S i)) as (cls & Hcls & Hlen & Hin).
    set (a := if acc then _ else _).
    destruct (fc && cloudy a) eqn:Hc.
    + exists ("Cloud"%string :: cls). rewrite Hcls. split; [reflexivity |].
      split; [simpl; rewrite Hlen; reflexivity |].
      intros c [<- | Hc']; [left; split; [reflexivity | apply andb_true_iff in Hc; tauto] | apply Hin, Hc'].
    + destruct (classify_tile_in_categories (features a)) as (c0 & Hc0 & Hin0).
      rewrite Hc0, Hcls. exists (c0 :: cls). split; [reflexivity |].
      split; [simpl; rewrite Hlen; reflexivity |].
      intros c [<- | Hc']; [right; exact Hin0 | apply Hin, Hc'].
Qed.

(** X10: [LULCClassifier.classify_tiles] gives one label per tile, each a
    category or [Cloud] (only with cloud filtering), and reports progress [(i
    + 1, total)] for each tile. *)
Theorem classify_tiles_labels {Arr} (to_bgr : Image -> Arr) (band_correct : Arr -> Arr)
  (cloudy : Arr -> bool) (features : Arr -> TileFeatures) (apply_color_correction filter_clouds : bool)
  (tiles : list TileEntry) :
  exists cls,
    classify_tiles Arr to_bgr band_correct cloudy features apply_color_correction filter_clouds tiles =
      Some (cls, map (fun k => (S k, length tiles)) (seq 0 (length tiles))) /\
    length cls = length tiles /\
    (forall c, In c cls -> (c = "Cloud"%string /\ filter_clouds = true) \/ In c CATEGORIES).
Proof. apply classify_tiles_from_spec. Qed.

Lemma default_value_ok (c : string) :
  In c CATEGORIES -> exists v, dict_get default_category_values c = Some v /\ (0 <= v <= 255)%Z.
Proof.
  simpl. intros H.
  repeat (destruct H as [<- | H]; [eexists; split; [reflexivity | lia] |]). destruct H.
Qed.

Lemma ceil_div_mul_pos (a T : nat) : 0 < T -> 0 < a -> 0 < ceil_div a T * T.
Proof. intros HT Ha. pose proof (ceil_div_pos a T HT Ha). nia. Qed.

(** X11: tiling the current image, classifying its tiles and saving the mask
    succeeds with one label per tile. *)
Theorem tile_then_classify_then_mask {Arr} (to_bgr : Image -> Arr) (band_correct : Arr -> Arr)
  (cloudy : Arr -> bool) (features : Arr -> TileFeatures)
  (entry : option Z) (st : AppState) (path : string) (im : Image) :
  nth_error (images st) (current_image_index st) = Some (path, im) ->
  0 < validate_tile_size entry (tile_size st) ->
  0 < img_width (current_image_of st im) -> 0 < img_height (current_image_of st im) ->
  exists st1 st2 padded m,
    apply_tile_size_app entry st = Some st1 /\
    classify_tiles_lulc Arr to_bgr band_correct cloudy features st1 = Some st2 /\
    current_padded_image st2 = Some padded /\
    length (tile_classifications st2) = length (tiles st2) /\
    save_mask_only padded (tile_size st2) (map te_tile (tiles st2)) (tile_classifications st2)
      default_category_values = Some (inr m).
Proof.
  intros Hnth HT Hw Hh.
  destruct (apply_tile_size_app_facts entry st path im Hnth HT)
    as (st1 & Happ & Hts & Hpad & Htiles & _).
  set (cur := current_image_of st im) in *. set (T := tile_size st1) in *.
  assert (HT1 : 0 < T) by (subst T; rewrite Hts; exact HT).
  assert (Hne : tiles st1 <> []).
  { intros E. rewrite E in Htiles. simpl in Htiles.
    pose proof (length_grid (tile_at (padded_image cur T) T)
                  (ceil_div (img_width cur) T) (ceil_div (img_height cur) T) 0) as L.
    unfold tiles_of, generate_tiles in Htiles. rewrite <- Htiles in L. simpl in L.
    pose proof (ceil_div_pos _ _ HT1 Hw). pose proof (ceil_div_pos _ _ HT1 Hh). nia. }
  destruct (classify_tiles_from_spec to_bgr band_correct cloudy features true true (length (tiles st1)) (tiles st1) 0)
    as (cls & Hcls & Hlen & Hin).
  exists st1.
  eexists. exists (padded_image cur T).
  unfold classify_tiles_lulc. rewrite match_list_nonempty by exact Hne. unfold classify_tiles. rewrite Hcls.
  cbn [tile_size tiles tile_classifications current_padded_image]. fold T.
  destruct (save_mask_only_runs cur T cls default_category_values) as (m & _ & Hm).
  - intros E. rewrite E in Hlen. simpl in Hlen. destruct (tiles st1); [contradiction | discriminate].
  - intros c Hc. destruct (Hin c Hc) as [[-> _] | Hc']; [right; left; reflexivity |].
    right; right. split; [exact Hc' | apply default_value_ok, Hc'].
  - eexists. split; [exact Happ |]. split; [reflexivity |]. cbn [tile_size tiles tile_classifications current_padded_image]. rewrite Htiles. split; [exact Hpad |]. split; [exact Hlen | exact Hm].
Qed.

Lemma dict_get_dict_add (k c : string) (n : Z) (d : dict) :
  dict_get (dict_add k n d) c =
  if String.eqb c k then option_map (fun v => (v + n)%Z) (dict_get d c) else dict_get d c.
Proof.
  induction d as [| [k' v] t IH]; simpl.
  - destruct (String.eqb c k); reflexivity.
  - destruct (String.eqb_spec k k') as [-> | Hk]; simpl.
    + destruct (String.eqb_spec c k'); reflexivity.
    + rewrite IH. destruct (String.eqb_spec c k') as [-> | Hc], (String.eqb_spec k' k) as [-> | ?];
        try reflexivity; congruence.
Qed.

Lemma cloud_not_in_categories : in_categories "Cloud" = false.
Proof. reflexivity. Qed.

Lemma export_lulc_loop_spec (save_ok : string -> bool) (base : string) (pairs : list (TileEntry * string)) :
  forall counts cloud,
  let r := export_lulc_loop save_ok base pairs counts cloud in
  snd (fst r) = cloud + length (filter (fun p => String.eqb (snd p) "Cloud") pairs) /\
  snd r = map (fun p => (lulc_export_path base p, tile_img (te_tile (fst p))))
            (filter (fun p => in_categories (snd p) && save_ok (lulc_export_path base p)) pairs) /\
  (forall c, In c CATEGORIES ->
     dict_get (fst (fst r)) c =
     option_map (fun v => (v + Z.of_nat (length (filter (fun p => String.eqb (snd p) c &&
                                  save_ok (lulc_export_path base p)) pairs)))%Z) (dict_get counts c)).
Proof.
  induction pairs as [| [te cat] rest IH]; intros counts cloud; cbn zeta.
  - simpl. split; [lia | split; [reflexivity |]]. intros c _.
    destruct (dict_get counts c); simpl; [rewrite Z.add_0_r |]; reflexivity.
  - cbn [export_lulc_loop filter snd fst].
    change (existsb (String.eqb cat) CATEGORIES) with (in_categories cat).
    change (path_join (path_join base cat) (lulc_tile_filename (te_image_name te)
      (tile_row (te_tile te)) (tile_col (te_tile te)))) with (lulc_export_path base (te, cat)).
    destruct (String.eqb_spec cat "Cloud") as [-> | Hcl].
    + destruct (IH counts (S cloud)) as (H1 & H2 & H3).
      rewrite cloud_not_in_categories. cbn [andb].
      split; [rewrite H1; simpl; lia | split; [exact H2 |]].
      intros c Hc. rewrite H3 by exact Hc.
      destruct (String.eqb_spec "Cloud" c) as [<- | _]; [exfalso; exact (cloud_not_category Hc) |].
      reflexivity.
    + destruct (in_categories cat) eqn:Hin; cbn [andb].
      * destruct (save_ok (lulc_export_path base (te, cat))) eqn:Hs.
        -- destruct (IH (dict_add cat 1 counts) cloud) as (H1 & H2 & H3).
           destruct (export_lulc_loop save_ok base rest (dict_add cat 1 counts) cloud)
             as [[counts' clouds'] written'] eqn:E.
           cbn [fst snd] in *.
           split; [exact H1 | split; [rewrite H2; reflexivity |]].
           intros c Hc. rewrite H3 by exact Hc. rewrite dict_get_dict_add.
           destruct (String.eqb_spec c cat) as [-> | Hc'].
           ++ rewrite String.eqb_refl. cbn [andb length].
              destruct (dict_get counts cat); simpl; [f_equal; lia | reflexivity].
           ++ destruct (String.eqb_spec cat c); [congruence |]. reflexivity.
        -- destruct (IH counts cloud) as (H1 & H2 & H3).
           split; [exact H1 | split; [exact H2 |]].
           intros c Hc. rewrite H3 by exact Hc. rewrite andb_false_r. reflexivity.
      * destruct (IH counts cloud) as (H1 & H2 & H3).
        split; [exact H1 | split; [exact H2 |]].
        intros c Hc. rewrite H3 by exact Hc.
        destruct (String.eqb_spec cat c) as [-> | _]; [| reflexivity].
        exfalso. unfold in_categories in Hin.
        assert (existsb (String.eqb c) CATEGORIES = true)
          by (apply existsb_exists; exists c; split; [exact Hc | apply String.eqb_refl]).
        congruence.
Qed.

Lemma dict_get_zero_counts (c : string) : In c CATEGORIES -> dict_get zero_counts c = Some 0%Z.
Proof.
  simpl. intros H. repeat (destruct H as [<- | H]; [reflexivity |]). destruct H.
Qed.

Lemma export_lulc_tiles_facts (save_ok : string -> bool) (base_folder : string) (st : AppState) :
  tile_classifications st <> [] -> base_folder <> ""%string ->
  let pairs := combine (tiles st) (tile_classifications st) in
  exists counts,
    export_lulc_tiles save_ok base_folder st =
      LulcExported counts (length (filter (fun p => String.eqb (snd p) "Cloud") pairs))
        (map (fun p => (lulc_export_path base_folder p, tile_img (te_tile (fst p))))
           (filter (fun p => in_categories (snd p) && save_ok (lulc_export_path base_folder p)) pairs)) /\
    (forall c, In c CATEGORIES ->
       dict_get counts c =
       Some (Z.of_nat (length (filter (fun p => String.eqb (snd p) c &&
                                  save_ok (lulc_export_path base_folder p)) pairs)))).
Proof.
  intros Hcls Hb pairs. unfold export_lulc_tiles.
  rewrite match_list_nonempty by exact Hcls.
  destruct (String.eqb_spec base_folder "") as [E | _]; [contradiction |].
  destruct (export_lulc_loop_spec save_ok base_folder pairs zero_counts 0) as (H1 & H2 & H3).
  fold pairs.
  destruct (export_lulc_loop save_ok base_folder pairs zero_counts 0) as [[counts clouds] written].
  cbn [fst snd] in *. exists counts. split; [rewrite H1, H2; reflexivity |].
  intros c Hc. rewrite H3, dict_get_zero_counts by exact Hc. reflexivity.
Qed.

(** X12: [export_lulc_tiles] skips [Cloud] and unlabelled tiles, counts the
    clouds, writes every tile of a category to
    [base/<category>/<stem>_tile_r<row:03d>_c<col:03d>.png] when its save
    succeeds and counts per category the tiles written. *)
Theorem export_lulc_tiles_report (save_ok : string -> bool) (base_folder : string) (st : AppState) :
  tile_classifications st <> [] -> base_folder <> ""%string ->
  let pairs := combine (tiles st) (tile_classifications st) in
  exists counts,
    export_lulc_tiles save_ok base_folder st =
      LulcExported counts (length (filter (fun p => String.eqb (snd p) "Cloud") pairs))
        (map (fun p => (lulc_export_path base_folder p, tile_img (te_tile (fst p))))
           (filter (fun p => in_categories (snd p) && save_ok (lulc_export_path base_folder p)) pairs)) /\
    (forall c, In c CATEGORIES ->
       dict_get counts c =
       Some (Z.of_nat (length (filter (fun p => String.eqb (snd p) c &&
                                  save_ok (lulc_export_path base_folder p)) pairs)))).
Proof. apply export_lulc_tiles_facts. Qed.

Lemma category_shape (c : string) :
  In c CATEGORIES ->
  starts_with_slash c = false /\ c <> ""%string /\ ~ In slash (list_ascii_of_string c) /\
  (forall pre, ends_with_slash (pre ++ c) = false).
Proof.
  simpl. intros H.
  repeat (destruct H as [<- | H];
    [split; [reflexivity | split; [discriminate | split;
      [cbn; intuition discriminate |
       intros pre; unfold ends_with_slash; rewrite list_ascii_app, rev_app_distr; reflexivity]]] |]).
  destruct H.
Qed.

Lemma lulc_tile_filename_not_slash (s : string) (r c : nat) :
  starts_with_slash s = false -> starts_with_slash (lulc_tile_filename s r c) = false.
Proof. intros H. destruct s as [| x s]; [reflexivity | exact H]. Qed.

Lemma lulc_export_path_shape (base c f : string) :
  In c CATEGORIES -> starts_with_slash f = false ->
  path_join (path_join base c) f =
  ((if String.eqb base "" || ends_with_slash base then base else base ++ "/") ++ (c ++ "/" ++ f))%string.
Proof.
  intros Hc Hf. destruct (category_shape c Hc) as (Hc1 & Hc2 & _ & Hc4).
  rewrite (path_join_prefix base c Hc1).
  set (pre := if String.eqb base "" || ends_with_slash base then base else (base ++ "/")%string).
  unfold path_join. rewrite Hf, Hc4.
  replace (String.eqb (pre ++ c) "") with false.
  - cbn [orb]. rewrite !str_app_assoc. reflexivity.
  - symmetry. apply String.eqb_neq. intros E. apply Hc2.
    destruct pre; [exact E | discriminate].
Qed.

Lemma list_ascii_slash_app (f : string) : list_ascii_of_string ("/" ++ f) = slash :: list_ascii_of_string f.
Proof. reflexivity. Qed.

Lemma lulc_export_path_inj (base : string) (p q : TileEntry * string) :
  In (snd p) CATEGORIES -> In (snd q) CATEGORIES ->
  starts_with_slash (te_image_name (fst p)) = false -> starts_with_slash (te_image_name (fst q)) = false ->
  lulc_export_path base p = lulc_export_path base q ->
  te_image_name (fst p) = te_image_name (fst q) /\
  tile_row (te_tile (fst p)) = tile_row (te_tile (fst q)) /\
  tile_col (te_tile (fst p)) = tile_col (te_tile (fst q)).
Proof.
  intros Hp Hq Hnp Hnq E. unfold lulc_export_path in E.
  rewrite !lulc_export_path_shape in E
    by first [exact Hp | exact Hq | apply lulc_tile_filename_not_slash; assumption].
  apply str_app_inv_head in E.
  apply (f_equal list_ascii_of_string) in E. rewrite !list_ascii_app in E. cbn [list_ascii_of_string app] in E.
  destruct (category_shape _ Hp) as (_ & _ & Hsp & _). destruct (category_shape _ Hq) as (_ & _ & Hsq & _).
  destruct (first_sep slash _ _ _ _ Hsp Hsq E) as [_ Ef].
  apply lulc_tile_filename_inj, list_ascii_inj, Ef.
Qed.

Lemma nodup_map_combine {A B C} (f : A -> C) (l1 : list A) :
  NoDup (map f l1) -> forall l2 : list B, NoDup (map (fun p => f (fst p)) (combine l1 l2)).
Proof.
  induction l1 as [| a l1 IH]; intros H l2; [constructor |].
  destruct l2 as [| b l2]; [constructor |]. simpl. inversion H as [| ? ? Ha Hl]; subst.
  constructor; [| apply IH, Hl].
  intros Hin. apply Ha. rewrite in_map_iff in Hin. destruct Hin as ([a' b'] & Ea & Hin).
  apply in_combine_l in Hin. apply in_map_iff. exists a'. split; [exact Ea | exact Hin].
Qed.

Lemma nodup_map_filter {A C} (f : A -> C) (h : A -> bool) (l : list A) :
  NoDup (map f l) -> NoDup (map f (filter h l)).
Proof.
  induction l as [| a l IH]; intros H; simpl; [constructor |].
  inversion H as [| ? ? Ha Hl]; subst.
  destruct (h a); simpl; [constructor |]; try (apply IH, Hl).
  intros Hin. apply Ha. rewrite in_map_iff in *. destruct Hin as (x & Ex & Hx).
  exists x. split; [exact Ex | apply filter_In in Hx; apply Hx].
Qed.

Lemma nodup_map_transfer {A C D} (k : A -> C) (g : A -> D) (l : list A) :
  NoDup (map k l) -> (forall x y, In x l -> In y l -> g x = g y -> k x = k y) -> NoDup (map g l).
Proof.
  induction l as [| a l IH]; intros H Hg; simpl; [constructor |].
  inversion H as [| ? ? Ha Hl]; subst. constructor.
  - intros Hin. apply Ha. rewrite in_map_iff in *. destruct Hin as (x & Ex & Hx).
    exists x. split; [apply Hg; [right; exact Hx | left; reflexivity | exact Ex] | exact Hx].
  - apply IH; [exact Hl |]. intros x y Hx Hy. apply Hg; right; assumption.
Qed.

(** X13: [export_lulc_tiles] never writes two tiles to the same path when the
    tiles have distinct (image, row, column) keys and relative image names. *)
Theorem export_lulc_distinct_paths (save_ok : string -> bool) (base_folder : string) (st : AppState)
  (counts : dict) (clouds : nat) (written : list (string * Image)) :
  NoDup (map (fun te => (te_image_name te, tile_row (te_tile te), tile_col (te_tile te))) (tiles st)) ->
  (forall te, In te (tiles st) -> starts_with_slash (te_image_name te) = false) ->
  export_lulc_tiles save_ok base_folder st = LulcExported counts clouds written ->
  NoDup (map fst written).
Proof.
  intros Hnd Hns Hex.
  destruct (tile_classifications st) as [| c0 cs] eqn:Ecls.
  { unfold export_lulc_tiles in Hex. rewrite Ecls in Hex. discriminate. }
  destruct (String.eqb_spec base_folder "") as [Eb | Hb].
  { unfold export_lulc_tiles in Hex. rewrite Ecls, Eb in Hex. discriminate. }
  destruct (export_lulc_tiles_facts save_ok base_folder st) as (counts' & Hr & _);
    [rewrite Ecls; discriminate | exact Hb |].
  rewrite Hr in Hex. injection Hex as _ _ <-.
  rewrite map_map. cbn [fst].
  set (key := fun te : TileEntry => (te_image_name te, tile_row (te_tile te), tile_col (te_tile te))).
  apply (nodup_map_transfer (fun p => key (fst p))).
  - apply nodup_map_filter, nodup_map_combine, Hnd.
  - intros [tx cx0] [ty cy0] Hx Hy Exy. apply filter_In in Hx as [Hx Hxc]. apply filter_In in Hy as [Hy Hyc].
    apply andb_true_iff in Hxc as [Hxc _]. apply andb_true_iff in Hyc as [Hyc _].
    unfold in_categories in Hxc, Hyc. apply existsb_exists in Hxc as (cx & Hcx & Ex).
    apply existsb_exists in Hyc as (cy & Hcy & Ey).
    apply String.eqb_eq in Ex, Ey. rewrite <- Ex in Hcx. rewrite <- Ey in Hcy.
    destruct (lulc_export_path_inj base_folder (tx, cx0) (ty, cy0) Hcx Hcy) as (E1 & E2 & E3);
      [apply Hns, (in_combine_l _ _ _ _ Hx) | apply Hns, (in_combine_l _ _ _ _ Hy) | exact Exy |].
    unfold key. rewrite E1, E2, E3. reflexivity.
Qed.

Lemma length_set_label (i : nat) (c : string) (l : list string) :
  length (set_label i c l) = length l.
Proof. revert i. induction l as [| x l IH]; intros [| i]; simpl; try rewrite IH; reflexivity. Qed.

Lemma nth_error_set_label (i : nat) (c : string) (l : list string) (j : nat) :
  nth_error (set_label i c l) j =
  if j =? i then option_map (fun _ => c) (nth_error l i) else nth_error l j.
Proof.
  revert i j. induction l as [| x l IH]; intros [| i] [| j]; simpl; try reflexivity;
    try (destruct (j =? i); reflexivity); try (destruct i; reflexivity).
  apply IH.
Qed.

Lemma nth_error_none_ge {A} (l : list A) (i : nat) : length l <= i -> nth_error l i = None.
Proof. apply nth_error_None. Qed.

Lemma batch_assign_loop_spec (c : string) (sel : list nat) :
  forall cls count,
  let r := batch_assign_loop c sel cls count in
  length (fst r) = length cls /\
  snd r = count + length (filter (fun k => k <? length cls) sel) /\
  (forall j, nth_error (fst r) j =
     if set_mem j sel then option_map (fun _ => c) (nth_error cls j) else nth_error cls j).
Proof.
  induction sel as [| k rest IH]; intros cls count; cbn zeta.
  - simpl. split; [reflexivity | split; [lia | reflexivity]].
  - cbn [batch_assign_loop filter set_mem existsb].
    destruct (Nat.ltb_spec k (length cls)) as [Hk | Hk].
    + destruct (IH (set_label k c cls) (S count)) as (H1 & H2 & H3).
      rewrite length_set_label in H1, H2.
      split; [exact H1 | split; [rewrite H2; simpl; lia |]].
      intros j. rewrite H3, nth_error_set_label. unfold set_mem.
      destruct (Nat.eqb_spec j k) as [-> | Hjk]; cbn [orb].
      * destruct (existsb _ rest), (nth_error cls k); reflexivity.
      * reflexivity.
    + destruct (IH cls count) as (H1 & H2 & H3).
      split; [exact H1 | split; [exact H2 |]].
      intros j. rewrite H3. unfold set_mem.
      destruct (Nat.eqb_spec j k) as [-> | Hjk]; cbn [orb]; [| reflexivity].
      rewrite nth_error_none_ge by exact Hk. destruct (existsb _ rest); reflexivity.
Qed.

Lemma batch_assign_category_facts (new_category : string) (st : AppState) :
  let r := batch_assign_category new_category st in
  selected_tiles_for_category (fst r) = [] /\
  snd r = length (filter (fun k => k <? length (tile_classifications st))
                    (selected_tiles_for_category st)) /\
  length (tile_classifications (fst r)) = length (tile_classifications st) /\
  (forall j, nth_error (tile_classifications (fst r)) j =
     if set_mem j (selected_tiles_for_category st)
     then option_map (fun _ => new_category) (nth_error (tile_classifications st) j)
     else nth_error (tile_classifications st) j) /\
  tiles (fst r) = tiles st /\ selected_tiles (fst r) = selected_tiles st.
Proof.
  cbn zeta. unfold batch_assign_category.
  destruct (batch_assign_loop_spec new_category (selected_tiles_for_category st)
              (tile_classifications st) 0) as (H1 & H2 & H3).
  destruct (batch_assign_loop new_category (selected_tiles_for_category st)
              (tile_classifications st) 0) as [cls count].
  cbn [fst snd] in *. repeat split; assumption.
Qed.

(** X14: [_batch_assign_category] relabels exactly the selected tiles that
    have a label, reports how many, clears the category selection and leaves
    the tiles alone. *)
Theorem batch_assign_category_spec (new_category : string) (st : AppState) :
  let r := batch_assign_category new_category st in
  selected_tiles_for_category (fst r) = [] /\
  snd r = length (filter (fun k => k <? length (tile_classifications st))
                    (selected_tiles_for_category st)) /\
  length (tile_classifications (fst r)) = length (tile_classifications st) /\
  (forall j, nth_error (tile_classifications (fst r)) j =
     if set_mem j (selected_tiles_for_category st)
     then option_map (fun _ => new_category) (nth_error (tile_classifications st) j)
     else nth_error (tile_classifications st) j) /\
  tiles (fst r) = tiles st /\ selected_tiles (fst r) = selected_tiles st.
Proof. apply batch_assign_category_facts. Qed.

(** X15: [_change_tile_category] relabels only tile [tile_index], and changes
    nothing when that index is out of range. *)
Theorem change_tile_category_spec (tile_index : nat) (new_category : string) (st : AppState) :
  let st' := change_tile_category tile_index new_category st in
  (length (tile_classifications st) <= tile_index -> st' = st) /\
  length (tile_classifications st') = length (tile_classifications st) /\
  (forall j, nth_error (tile_classifications st') j =
     if j =? tile_index
     then option_map (fun _ => new_category) (nth_error (tile_classifications st) tile_index)
     else nth_error (tile_classifications st) j) /\
  tiles st' = tiles st /\ selected_tiles_for_category st' = selected_tiles_for_category st.
Proof.
  cbn zeta. unfold change_tile_category.
  destruct (Nat.ltb_spec tile_index (length (tile_classifications st))) as [Hi | Hi].
  - cbn [tile_classifications tiles selected_tiles_for_category].
    split; [intros; lia |]. split; [apply length_set_label |].
    split; [apply nth_error_set_label | split; reflexivity].
  - split; [reflexivity |]. split; [reflexivity |]. split; [| split; reflexivity].
    intros j. destruct (Nat.eqb_spec j tile_index) as [-> |]; [| reflexivity].
    rewrite nth_error_none_ge by exact Hi. reflexivity.
Qed.

Lemma mask_loop_error_overflow (W H T : nat) (vals : dict) (tiles : list Tile) :
  forall cls m e, mask_loop W H T vals m tiles cls = inl e -> e = OverflowError.
Proof.
  induction tiles as [| t tiles IH]; intros [| c cls] m e; simpl; try discriminate.
  destruct (skipped_label c); [apply IH |].
  unfold assign_rect. destruct (_ && _)%Z; [apply IH | congruence].
Qed.

Lemma mask_loop_bad_value (W H T : nat) (vals : dict) (c : string) (v : Z) :
  dict_get vals c = Some v -> (v < 0 \/ 255 < v)%Z -> skipped_label c = false ->
  forall tiles cls m k t,
  nth_error tiles k = Some t -> nth_error cls k = Some c ->
  exists e, mask_loop W H T vals m tiles cls = inl e.
Proof.
  intros Hv Hr Hs tiles. induction tiles as [| t0 tiles IH]; intros cls m k t Ht Hc;
    [destruct k; discriminate |].
  destruct cls as [| c0 cls]; [destruct k; discriminate |].
  destruct k as [| k]; cbn [nth_error] in Ht, Hc; cbn [mask_loop].
  - injection Hc as ->. rewrite Hs. unfold dict_get_default. rewrite Hv.
    unfold assign_rect. replace ((0 <=? v) && (v <=? 255))%Z with false.
    + eexists; reflexivity.
    + symmetry. apply andb_false_iff. destruct Hr; [left; apply Z.leb_gt | right; apply Z.leb_gt]; lia.
  - destruct (skipped_label c0); [exact (IH cls m k t Ht Hc) |].
    destruct (assign_rect _ _ _ _ _ _) as [e | m']; [eexists; reflexivity |].
    exact (IH cls m' k t Ht Hc).
Qed.

Lemma dict_get_odict_set_same (d : dict) (k : string) (v : Z) : dict_get (odict_set d k v) k = Some v.
Proof.
  induction d as [| [k' v'] d IH]; simpl; [rewrite String.eqb_refl; reflexivity |].
  destruct (String.eqb_spec k k') as [-> | Hne]; simpl; [rewrite String.eqb_refl; reflexivity |].
  destruct (String.eqb_spec k k'); [contradiction | exact IH].
Qed.

(** X16: a category value outside 0..255 entered for a category that some tile
    carries makes [save_mask_only] fail with an overflow. *)
Theorem update_category_value_overflow (padded : Image) (T : nat) (tiles : list Tile)
  (cls : list string) (category_values : dict) (category : string) (val : Z) (k : nat) (t : Tile) :
  (val < 0 \/ 255 < val)%Z -> skipped_label category = false ->
  nth_error tiles k = Some t -> nth_error cls k = Some category ->
  save_mask_only padded T tiles cls (update_category_value category (Some val) category_values) =
    Some (inl OverflowError).
Proof.
  intros Hr Hs Ht Hc. unfold save_mask_only.
  destruct cls as [| c0 cls0]; [destruct k; discriminate |].
  destruct (mask_loop_bad_value (img_width padded) (img_height padded) T
              (update_category_value category (Some val) category_values) category val
              (dict_get_odict_set_same _ _ _) Hr Hs tiles (c0 :: cls0) (fun _ _ => 255%Z) k t Ht Hc)
    as [e He].
  rewrite He. rewrite (mask_loop_error_overflow _ _ _ _ _ _ _ _ He). reflexivity.
Qed.

Lemma qlt_false_le (a b : Q) : qlt a b = false -> (b <= a)%Q.
Proof. intros H. destruct (Qlt_le_dec a b) as [Hl | Hl]; [apply qlt_spec in Hl; congruence | exact Hl]. Qed.

(** X17: zooming in, out and resetting keep the zoom level between 0.1 and 5;
    zooming in never decreases it and zooming out never increases it. *)
Theorem zoom_within_bounds (st : AppState) :
  (min_zoom <= zoom_level st <= max_zoom)%Q ->
  ((min_zoom <= zoom_level (zoom_in st) <= max_zoom)%Q /\ (zoom_level st <= zoom_level (zoom_in st))%Q) /\
  ((min_zoom <= zoom_level (zoom_out st) <= max_zoom)%Q /\ (zoom_level (zoom_out st) <= zoom_level st)%Q) /\
  (min_zoom <= zoom_level (zoom_reset st) <= max_zoom)%Q.
Proof.
  intros [Hlo Hhi]. unfold zoom_in, zoom_out, zoom_reset, py_min, py_max, min_zoom, max_zoom in *.
  split; [| split].
  - destruct (qlt (zoom_level st) 5) eqn:E; [| split; [split |]; [exact Hlo | exact Hhi | apply Qle_refl]].
    cbn [zoom_level set_zoom].
    assert (Hz : (zoom_level st <= zoom_level st * (6 # 5))%Q).
    { rewrite <- (Qmult_1_r (zoom_level st)) at 1. apply Qmult_le_l; [| unfold Qle; simpl; lia].
      apply Qlt_le_trans with (1 # 10); [reflexivity | exact Hlo]. }
    destruct (qlt 5 (zoom_level st * (6 # 5))) eqn:E2.
    + split; [split |]; cbn [zoom_level]; [unfold Qle; simpl; lia | apply Qle_refl | exact Hhi].
    + apply qlt_false_le in E2. split; [split |]; cbn [zoom_level]; [| exact E2 | exact Hz].
      apply Qle_trans with (zoom_level st); [exact Hlo | exact Hz].
  - destruct (qlt (1 # 10) (zoom_level st)) eqn:E; [| split; [split |]; [exact Hlo | exact Hhi | apply Qle_refl]].
    cbn [zoom_level set_zoom].
    assert (Hz : (zoom_level st / (6 # 5) <= zoom_level st)%Q).
    { apply Qle_shift_div_r; [reflexivity |].
      rewrite <- (Qmult_1_r (zoom_level st)) at 1. apply Qmult_le_l; [| unfold Qle; simpl; lia].
      apply Qlt_le_trans with (1 # 10); [reflexivity | exact Hlo]. }
    destruct (qlt (zoom_level st / (6 # 5)) (1 # 10)) eqn:E2.
    + split; [split |]; cbn [zoom_level]; [apply Qle_refl | | ].
      * apply Qle_trans with (zoom_level st); [apply Qlt_le_weak, qlt_spec, E | exact Hhi].
      * apply Qlt_le_weak, qlt_spec, E.
    + apply qlt_false_le in E2. split; [split |]; cbn [zoom_level]; [exact E2 | | exact Hz].
      apply Qle_trans with (zoom_level st); [exact Hz | exact Hhi].
  - cbn [zoom_level set_zoom]. split; unfold Qle; simpl; lia.
Qed.

Lemma map_fst_dict_add (k : string) (n : Z) (d : dict) : map fst (dict_add k n d) = map fst d.
Proof.
  induction d as [| [k' v] t IH]; simpl; [reflexivity |].
  destruct (String.eqb k k'); simpl; [reflexivity | rewrite IH; reflexivity].
Qed.

Lemma dict_total_dict_add (k : string) (n : Z) (d : dict) :
  In k (map fst d) -> dict_total (dict_add k n d) = (dict_total d + n)%Z.
Proof.
  unfold dict_total. induction d as [| [k' v] t IH]; simpl; [intros [] |].
  intros Hk. destruct (String.eqb_spec k k') as [-> | Hne]; simpl; [lia |].
  rewrite IH by (destruct Hk; [congruence | assumption]). lia.
Qed.

Lemma dict_get_in (d : dict) (k : string) : In k (map fst d) -> exists v, dict_get d k = Some v.
Proof.
  induction d as [| [k' v] t IH]; simpl; [intros [] |].
  intros Hk. destruct (String.eqb_spec k k') as [-> | Hne]; [eexists; reflexivity |].
  apply IH. destruct Hk; [congruence | assumption].
Qed.

Lemma process_tiles_spec (fc : bool) (name : string) (cloudy : nat * nat * nat * nat -> bool)
  (features : nat * nat * nat * nat -> TileFeatures) (tiles : list (nat * nat * nat * nat)) :
  forall counts clouds, map fst counts = CATEGORIES ->
  exists counts' clouds' saved,
    process_tiles fc name cloudy features tiles counts clouds = Some (counts', clouds', saved) /\
    map fst counts' = CATEGORIES /\
    (dict_total counts' + Z.of_nat clouds' = dict_total counts + Z.of_nat clouds + Z.of_nat (length tiles))%Z /\
    (forall c, In c CATEGORIES ->
       dict_get counts' c =
       option_map (fun v => (v + Z.of_nat (length (filter (fun s => String.eqb (fst s) c) saved)))%Z)
         (dict_get counts c)) /\
    (fc = false -> clouds' = clouds).
Proof.
  induction tiles as [| [[[row col] y] x] rest IH]; intros counts clouds Hk.
  - exists counts, clouds, []. split; [reflexivity |]. split; [exact Hk |].
    split; [simpl; lia |]. split; [| reflexivity].
    intros c _. destruct (dict_get counts c); simpl; [rewrite Z.add_0_r |]; reflexivity.
  - cbn [process_tiles].
    destruct (fc && cloudy (row, col, y, x)) eqn:Hcl.
    + destruct (IH counts (S clouds) Hk) as (c' & n' & sv & H1 & H2 & H3 & H4 & H5).
      exists c', n', sv. split; [exact H1 |]. split; [exact H2 |].
      split; [rewrite H3; cbn [length]; lia |]. split; [exact H4 |].
      intros Hf. rewrite Hf in Hcl. discriminate.
    + destruct (classify_tile_in_categories (features (row, col, y, x))) as (cat & Hc & Hin).
      rewrite Hc. assert (Hk' : In cat (map fst counts)) by (rewrite Hk; exact Hin).
      destruct (dict_get_in counts cat Hk') as [v0 Hv0]. rewrite Hv0.
      destruct (IH (dict_add cat 1 counts) clouds) as (c' & n' & sv & H1 & H2 & H3 & H4 & H5);
        [rewrite map_fst_dict_add; exact Hk |].
      rewrite H1. eexists c', n', _. split; [reflexivity |]. split; [exact H2 |].
      split; [rewrite H3, dict_total_dict_add by exact Hk'; cbn [length]; lia |].
      split; [| exact H5].
      intros c Hcc. rewrite H4 by exact Hcc. rewrite dict_get_dict_add.
      cbn [filter fst length]. destruct (String.eqb_spec cat c) as [-> | Hne].
      * rewrite String.eqb_refl, Hv0. simpl. f_equal. lia.
      * destruct (String.eqb_spec c cat); [congruence |]. reflexivity.
Qed.

Lemma extract_tiles_length (T : Z) (acc : bool) (src : SourceImage) :
  (0 < T)%Z ->
  exists l, snd (extract_tiles T acc (src_name src) (src_dims src)) = inr l /\
    length l = whole_tiles T src.
Proof.
  intros HT. unfold whole_tiles, extract_tiles.
  destruct (src_dims src) as [[w h] |]; [| exists []; split; reflexivity].
  unfold py_floordiv. replace (T =? 0)%Z with false by (symmetry; apply Z.eqb_neq; lia).
  eexists. split; [reflexivity |].
  rewrite (length_flat_map_uniform _ _ (length (py_range (Z.of_nat w / T)))) by (intros; apply length_map).
  unfold py_range. rewrite !length_seq.
  assert (E : forall n, Z.to_nat (Z.of_nat n / T) = n / Z.to_nat T).
  { intros n. rewrite <- (Z2Nat.id T) at 1 by lia. rewrite <- Nat2Z.inj_div. apply Nat2Z.id. }
  rewrite !E. reflexivity.
Qed.

Lemma process_images_spec (T : Z) (acc fc : bool) (files : list SourceImage) :
  (0 < T)%Z ->
  forall counts clouds, map fst counts = CATEGORIES ->
  exists counts' clouds' saved,
    process_images T acc fc files counts clouds = Some (counts', clouds', saved) /\
    map fst counts' = CATEGORIES /\
    (dict_total counts' + Z.of_nat clouds' =
       dict_total counts + Z.of_nat clouds + Z.of_nat (list_sum (map (whole_tiles T) files)))%Z /\
    (forall c, In c CATEGORIES ->
       dict_get counts' c =
       option_map (fun v => (v + Z.of_nat (length (filter (fun s => String.eqb (fst s) c) saved)))%Z)
         (dict_get counts c)) /\
    (fc = false -> clouds' = clouds).
Proof.
  intros HT. induction files as [| src rest IH]; intros counts clouds Hk.
  - exists counts, clouds, []. split; [reflexivity |]. split; [exact Hk |].
    split; [simpl; lia |]. split; [| reflexivity].
    intros c _. destruct (dict_get counts c); simpl; [rewrite Z.add_0_r |]; reflexivity.
  - cbn [process_images]. unfold process_image.
    destruct (extract_tiles_length T acc src HT) as (l & Hl & Hlen). rewrite Hl.
    destruct (process_tiles_spec fc (src_name src) (src_cloudy src) (src_features src) l counts clouds Hk)
      as (c1 & n1 & s1 & H1 & H2 & H3 & H4 & H5).
    rewrite H1.
    destruct (IH c1 n1 H2) as (c2 & n2 & s2 & G1 & G2 & G3 & G4 & G5).
    rewrite G1. exists c2, n2, (s1 ++ s2). split; [reflexivity |]. split; [exact G2 |].
    split; [rewrite G3, H3; cbn [map]; rewrite list_sum_cons, <- Hlen; lia |].
    split.
    + intros c Hc. rewrite G4, H4 by exact Hc. rewrite filter_app, length_app.
      destruct (dict_get counts c); simpl; [f_equal; lia | reflexivity].
    + intros Hf. rewrite G5, H5 by exact Hf. reflexivity.
Qed.

(** X18: the batch classifier accounts for every whole tile: the category
    counts plus the cloud-filtered tiles equal the number of whole tiles of
    the loaded images, each category count is the number of files saved in it,
    and no tile is filtered without cloud filtering. *)
Theorem batch_tile_accounting (tile_size : Z) (apply_color_correction filter_clouds : bool)
  (image_files : list SourceImage) :
  (0 < tile_size)%Z ->
  exists tile_counts cloud_filtered_count saved,
    process_images tile_size apply_color_correction filter_clouds image_files zero_counts 0 =
      Some (tile_counts, cloud_filtered_count, saved) /\
    map fst tile_counts = CATEGORIES /\
    (dict_total tile_counts + Z.of_nat cloud_filtered_count =
       Z.of_nat (list_sum (map (whole_tiles tile_size) image_files)))%Z /\
    (forall c, In c CATEGORIES ->
       dict_get tile_counts c = Some (Z.of_nat (length (filter (fun s => String.eqb (fst s) c) saved)))) /\
    (filter_clouds = false -> cloud_filtered_count = 0).
Proof.
  intros HT.
  destruct (process_images_spec tile_size apply_color_correction filter_clouds image_files HT
              zero_counts 0 eq_refl) as (c & n & s & H1 & H2 & H3 & H4 & H5).
  exists c, n, s. split; [exact H1 |]. split; [exact H2 |].
  split; [rewrite H3; reflexivity |]. split; [| exact H5].
  intros k Hk. rewrite H4, dict_get_zero_counts by exact Hk. reflexivity.
Qed.

Lemma map_te_tile_set_selected_flag (i : nat) (b : bool) (l : list TileEntry) :
  map te_tile (set_selected_flag i b l) = map te_tile l.
Proof. revert i; induction l as [| te l IH]; intros [| i]; simpl; try rewrite IH; reflexivity. Qed.

Lemma display_grid_sel (ov : bool) (st : AppState) (tiles' : list TileEntry) (sel sfc : list nat)
  (selecting : bool) (mode : option SelectionMode) :
  map te_tile tiles' = map te_tile (tiles st) ->
  display_grid ov (with_selection st tiles' sel sfc selecting mode) =
  match current_padded_image st with
  | None => NotDisplayed
  | Some padded =>
      let zoom := zoom_level st in
      let padded_width := Z.of_nat (img_width padded) in
      let padded_height := Z.of_nat (img_height padded) in
      let zoomed_width := py_int (inject_Z padded_width * zoom) in
      let zoomed_height := py_int (inject_Z padded_height * zoom) in
      if negb ((zoomed_width =? padded_width)%Z && (zoomed_height =? padded_height)%Z) &&
         ((zoomed_width <=? 0)%Z || (zoomed_height <=? 0)%Z)
      then DisplayValueError
      else
      let tile_size_zoomed := py_int (inject_Z (Z.of_nat (tile_size st)) * zoom) in
      let selected_set := if classified st then sfc else sel in
      Displayed (map (fun p =>
        let '(i, tile) := p in
        let x := py_int (inject_Z (Z.of_nat (tile_x tile)) * zoom) in
        let y := py_int (inject_Z (Z.of_nat (tile_y tile)) * zoom) in
        let overlay :=
          if classified st && ov then
            match nth_error (tile_classifications st) i with
            | Some category => if skipped_label category then None else Some category
            | None => None
            end
          else None in
        mkTileMark i x y (x + tile_size_zoomed) (y + tile_size_zoomed) overlay (set_mem i selected_set))
        (combine (seq 0 (length (tiles st))) (map te_tile (tiles st))))
  end.
Proof.
  intros Ht. unfold display_grid. cbn [current_padded_image zoom_level tile_size tiles
    selected_tiles selected_tiles_for_category tile_classifications with_selection].
  rewrite Ht. rewrite <- (length_map te_tile tiles'), Ht, length_map. reflexivity.
Qed.

(** X19: a click on tile [i] changes what [display_grid] ends in only by
    flipping tile [i]'s highlight: the early return and the [ValueError] of
    the resize are unchanged. *)
Theorem click_flips_highlight (overlay_visible : bool) (st : AppState) (x y : Q) (i : nat) :
  get_tile_at_position st x y = Some i ->
  display_grid overlay_visible (on_canvas_click x y st) =
    match display_grid overlay_visible st with
    | Displayed marks => Displayed (map (flip_mark i) marks)
    | r => r
    end.
Proof.
  intros Hi. unfold on_canvas_click. rewrite Hi.
  destruct (classified st) eqn:Ec;
    [destruct (set_mem i (selected_tiles_for_category st)) eqn:Em |
     destruct (set_mem i (selected_tiles st)) eqn:Em];
    rewrite display_grid_sel by (first [reflexivity | apply map_te_tile_set_selected_flag]);
    unfold display_grid; destruct (current_padded_image st) as [p |]; try reflexivity;
    rewrite Ec; cbn zeta;
    match goal with |- context [if ?c then DisplayValueError else _] => destruct c end;
    try reflexivity;
    f_equal; rewrite map_map; apply map_ext_in;
    intros [j t] _; unfold flip_mark; cbn [mark_index mark_x mark_y mark_x2 mark_y2 mark_overlay mark_highlight];
    rewrite ?set_mem_add, ?set_mem_remove;
    (destruct (Nat.eqb_spec j i) as [-> | Hji]; [rewrite Em; reflexivity | reflexivity]).
Qed.

Lemma py_int_small (q : Q) : (0 <= q)%Q -> (q < 1)%Q -> py_int q = 0%Z.
Proof.
  intros H0 H1. unfold py_int.
  replace (Qle_bool 0 q) with true by (symmetry; apply Qle_bool_iff, H0).
  pose proof (Qfloor_le q) as Hf. pose proof (Qlt_floor q) as Hl.
  assert (A : (Qfloor q < 1)%Z)
    by (rewrite Zlt_Qlt; change (inject_Z 1) with 1%Q; apply (Qle_lt_trans _ q); assumption).
  assert (B : (-1 < Qfloor q)%Z).
  { rewrite Zlt_Qlt. rewrite inject_Z_plus in Hl. change (inject_Z 1) with 1%Q in Hl.
    change (inject_Z (-1)) with (-1)%Q. apply (Qplus_lt_l _ _ 1). 
    apply (Qle_lt_trans _ q); [| exact Hl]. rewrite Qplus_comm, Qplus_opp_r. exact H0. }
  lia.
Qed.

Lemma zoom_out_level_small (st : AppState) :
  (min_zoom < zoom_level st <= 3 # 25)%Q ->
  (0 <= zoom_level (zoom_out st) <= min_zoom)%Q.
Proof.
  intros [Hlo Hhi]. unfold zoom_out.
  replace (qlt min_zoom (zoom_level st)) with true by (symmetry; apply qlt_spec, Hlo).
  cbn [zoom_level set_zoom]. unfold py_max.
  assert (Hz : (0 <= zoom_level st / (6 # 5))%Q).
  { apply Qle_shift_div_l; [unfold Qlt; simpl; lia |]. rewrite Qmult_0_l.
    apply Qlt_le_weak, (Qlt_trans _ min_zoom); [unfold min_zoom, Qlt; simpl; lia | exact Hlo]. }
  assert (Hm : (zoom_level st / (6 # 5) <= min_zoom)%Q).
  { apply Qle_shift_div_r; [unfold Qlt; simpl; lia |].
    apply (Qle_trans _ (3 # 25)); [exact Hhi | unfold min_zoom, Qle; simpl; lia]. }
  destruct (qlt (zoom_level st / (6 # 5)) min_zoom); split;
    first [assumption | apply Qle_refl | unfold min_zoom, Qle; simpl; lia].
Qed.

Lemma small_side_zoom_zero (n : nat) (z : Q) :
  n < 10 -> (0 <= z <= min_zoom)%Q -> py_int (inject_Z (Z.of_nat n) * z) = 0%Z.
Proof.
  intros Hn [H0 H1]. apply py_int_small.
  - apply Qmult_le_0_compat; [| exact H0]. change 0%Q with (inject_Z 0). rewrite <- Zle_Qle. lia.
  - apply (Qle_lt_trans _ (inject_Z (Z.of_nat n) * min_zoom)).
    + rewrite !(Qmult_comm (inject_Z _)). apply Qmult_le_compat_r; [exact H1 |].
      change 0%Q with (inject_Z 0). rewrite <- Zle_Qle. lia.
    + unfold min_zoom, Qlt, Qmult, inject_Z. simpl. lia.
Qed.

(** X23: zooming out from a level in (0.1, 0.12] on a session whose padded
    image has a side of fewer than 10 pixels makes [display_grid] raise
    [ValueError]: the side shrinks to [int(side * 0.1) = 0]. *)
Theorem zoom_out_small_image_error (overlay_visible : bool) (st : AppState) (padded : Image) :
  current_padded_image st = Some padded ->
  0 < img_width padded -> 0 < img_height padded ->
  img_width padded < 10 \/ img_height padded < 10 ->
  (min_zoom < zoom_level st <= 3 # 25)%Q ->
  display_grid overlay_visible (zoom_out st) = DisplayValueError.
Proof.
  intros Hp Hw Hh Hs Hz. apply zoom_out_level_small in Hz.
  assert (Hp' : current_padded_image (zoom_out st) = Some padded)
    by (unfold zoom_out; destruct (qlt _ _); exact Hp).
  unfold display_grid. rewrite Hp'.
  destruct Hs as [Hs | Hs].
  - rewrite (small_side_zoom_zero (img_width padded) _ Hs Hz).
    destruct (Z.eqb_spec 0 (Z.of_nat (img_width padded))) as [E | _]; [lia |]. reflexivity.
  - rewrite (small_side_zoom_zero (img_height padded) _ Hs Hz).
    destruct (Z.eqb_spec 0 (Z.of_nat (img_height padded))) as [E | _]; [lia |].
    rewrite andb_false_r. simpl. rewrite orb_true_r. reflexivity.
Qed.

Lemma brace_free_spec (s : string) : brace_free s = true -> lbrace_free (list_ascii_of_string s).
Proof.
  unfold brace_free, lbrace_free. rewrite forallb_forall. intros H c Hc.
  specialize (H c Hc). destruct (is_brace c); [discriminate | reflexivity].
Qed.

Lemma lstrip_braces_free (l : list Ascii.ascii) : lbrace_free l -> lstrip_braces l = l.
Proof.
  destruct l as [| c t]; intros H; [reflexivity |]. simpl. rewrite (H c (or_introl eq_refl)). reflexivity.
Qed.

Lemma lbrace_free_rev (l : list Ascii.ascii) : lbrace_free l -> lbrace_free (rev l).
Proof. intros H c Hc. apply H, in_rev, Hc. Qed.

Lemma strip_braces_free (s : string) : brace_free s = true -> strip_braces s = s.
Proof.
  intros H. apply brace_free_spec in H. unfold strip_braces.
  rewrite (lstrip_braces_free _ H), (lstrip_braces_free _ (lbrace_free_rev _ H)), rev_involutive.
  apply string_of_list_ascii_of_string.
Qed.

Lemma has_sep_free (l : list Ascii.ascii) : lbrace_free l -> has_sep l = false.
Proof.
  induction l as [| c t IH]; intros H; [reflexivity |].
  assert (Ht : lbrace_free t) by (intros x Hx; apply H; right; exact Hx).
  assert (Hc : is_brace c = false) by (apply H; left; reflexivity).
  destruct c as [[] [] [] [] [] [] [] []]; try (apply IH, Ht); discriminate Hc.
Qed.

Lemma split_sep_free (l cur : list Ascii.ascii) : lbrace_free l -> split_sep l cur = [rev cur ++ l].
Proof.
  revert cur. induction l as [| c t IH]; intros cur H; [simpl; rewrite app_nil_r; reflexivity |].
  assert (Ht : lbrace_free t) by (intros x Hx; apply H; right; exact Hx).
  assert (Hc : is_brace c = false) by (apply H; left; reflexivity).
  transitivity (split_sep t (c :: cur)).
  - destruct c as [[] [] [] [] [] [] [] []]; try reflexivity; discriminate Hc.
  - rewrite IH by exact Ht. simpl. rewrite <- app_assoc. reflexivity.
Qed.

Lemma split_sep_piece (l rest cur : list Ascii.ascii) :
  lbrace_free l ->
  split_sep (l ++ "}"%char :: " "%char :: "{"%char :: rest) cur = (rev cur ++ l) :: split_sep rest [].
Proof.
  revert cur. induction l as [| c t IH]; intros cur H; [simpl; rewrite app_nil_r; reflexivity |].
  assert (Ht : lbrace_free t) by (intros x Hx; apply H; right; exact Hx).
  assert (Hc : is_brace c = false) by (apply H; left; reflexivity).
  transitivity (split_sep (t ++ "}"%char :: " "%char :: "{"%char :: rest) (c :: cur)).
  - destruct c as [[] [] [] [] [] [] [] []]; try reflexivity; discriminate Hc.
  - rewrite IH by exact Ht. simpl. rewrite <- app_assoc. reflexivity.
Qed.

Lemma has_sep_cons (c : Ascii.ascii) (t : list Ascii.ascii) : has_sep t = true -> has_sep (c :: t) = true.
Proof.
  intros H. destruct t as [| c1 t1]; [discriminate H |].
  destruct c as [[] [] [] [] [] [] [] []]; try exact H.
  destruct c1 as [[] [] [] [] [] [] [] []]; try exact H.
  destruct t1 as [| c2 t2]; [exact H |].
  destruct c2 as [[] [] [] [] [] [] [] []]; try exact H; reflexivity.
Qed.

Lemma has_sep_app_sep (l rest : list Ascii.ascii) :
  has_sep (l ++ "}"%char :: " "%char :: "{"%char :: rest) = true.
Proof. induction l as [| c t IH]; [reflexivity | apply has_sep_cons, IH]. Qed.

Lemma concat_cons_cons (sep p q : string) (qs : list string) :
  String.concat sep (p :: q :: qs) = (p ++ sep ++ String.concat sep (q :: qs))%string.
Proof. reflexivity. Qed.

Lemma list_sep_app (rest : string) :
  list_ascii_of_string ("} {" ++ rest) = "}"%char :: " "%char :: "{"%char :: list_ascii_of_string rest.
Proof. reflexivity. Qed.

Lemma split_sep_join (ps : list string) :
  forall p, forallb brace_free (p :: ps) = true ->
  split_sep (list_ascii_of_string (String.concat "} {" (p :: ps))) [] =
  map list_ascii_of_string (p :: ps).
Proof.
  induction ps as [| q qs IH]; intros p H; cbn [forallb] in H.
  - rewrite andb_true_r in H. cbn [String.concat map].
    rewrite split_sep_free by (apply brace_free_spec, H). reflexivity.
  - apply andb_true_iff in H as [Hp H].
    rewrite concat_cons_cons, list_ascii_app, list_sep_app.
    rewrite split_sep_piece by (apply brace_free_spec, Hp).
    rewrite IH by exact H. reflexivity.
Qed.

Lemma str_app_empty_r (s : string) : (s ++ "")%string = s.
Proof. induction s as [| a s IH]; [reflexivity | simpl; rewrite IH; reflexivity]. Qed.

Lemma join_ends (ps : list string) :
  forall p, forallb (fun q => brace_free q && negb (String.eqb q "")) (p :: ps) = true ->
  (exists a J, list_ascii_of_string (String.concat "} {" (p :: ps)) = a :: J /\ is_brace a = false) /\
  (exists J z, list_ascii_of_string (String.concat "} {" (p :: ps)) = J ++ [z] /\ is_brace z = false).
Proof.
  assert (Hfirst : forall p rest, brace_free p && negb (String.eqb p "") = true ->
            exists a J, list_ascii_of_string (p ++ rest) = a :: J /\ is_brace a = false).
  { intros p rest Hp. apply andb_true_iff in Hp as [Hb Hne]. apply brace_free_spec in Hb.
    destruct p as [| a p']; [discriminate Hne |].
    exists a, (list_ascii_of_string (p' ++ rest)). split; [reflexivity |]. apply Hb. left. reflexivity. }
  induction ps as [| q qs IH]; intros p H; cbn [forallb] in H.
  - rewrite andb_true_r in H. change (String.concat "} {" [p]) with p. split.
    + rewrite <- (str_app_empty_r p). apply Hfirst, H.
    + apply andb_true_iff in H as [Hb Hne]. apply brace_free_spec in Hb.
      destruct (list_ascii_of_string p) as [| a l] eqn:E using rev_ind.
      * destruct p; [discriminate Hne | discriminate E].
      * exists l, a. split; [reflexivity |]. apply Hb. apply in_or_app. right. left. reflexivity.
  - apply andb_true_iff in H as [Hp H]. rewrite concat_cons_cons. split.
    + apply Hfirst, Hp.
    + destruct (IH q H) as [_ (J & z & EJ & Hz)].
      exists (list_ascii_of_string p ++ sep_chars ++ J), z.
      rewrite list_ascii_app, list_sep_app, EJ. split; [| exact Hz].
      unfold sep_chars. rewrite <- !app_assoc. reflexivity.
Qed.

Lemma strip_braces_wrapped (J : list Ascii.ascii) (a z : Ascii.ascii) (J1 J2 : list Ascii.ascii) :
  J = a :: J1 -> is_brace a = false -> J = J2 ++ [z] -> is_brace z = false ->
  strip_braces (string_of_list_ascii ("{"%char :: J ++ ["}"%char])) = string_of_list_ascii J.
Proof.
  intros E1 Ha E2 Hz. unfold strip_braces. rewrite list_ascii_of_string_of_list_ascii.
  cbn [lstrip_braces is_brace Ascii.eqb]. cbn.
  replace (lstrip_braces (J ++ ["}"%char])) with (J ++ ["}"%char])
    by (rewrite E1; simpl; rewrite Ha; reflexivity).
  rewrite rev_app_distr. cbn [rev app lstrip_braces is_brace]. cbn.
  replace (lstrip_braces (rev J)) with (rev J)
    by (rewrite E2, rev_app_distr; simpl; rewrite Hz; reflexivity).
  rewrite rev_involutive. reflexivity.
Qed.

(** X20: [_parse_drop_data] recovers the paths of a brace-wrapped drop list
    [{p1} {p2} ...] whose paths are non-empty and brace-free. *)
Theorem drop_data_braced_round_trip (p : string) (ps : list string) :
  forallb (fun q => brace_free q && negb (String.eqb q "")) (p :: ps) = true ->
  parse_drop_data (DropStr ("{" ++ String.concat "} {" (p :: ps) ++ "}")) = p :: ps.
Proof.
  intros H. destruct (join_ends ps p H) as [(a & J1 & E1 & Ha) (J2 & z & E2 & Hz)].
  set (C := String.concat "} {" (p :: ps)) in *.
  assert (Hfree : forallb brace_free (p :: ps) = true).
  { rewrite forallb_forall in *. intros q Hq. specialize (H q Hq). apply andb_true_iff in H. apply H. }
  unfold parse_drop_data.
  replace ("{" ++ C ++ "}")%string with
    (string_of_list_ascii ("{"%char :: list_ascii_of_string C ++ ["}"%char])).
  2:{ apply list_ascii_inj. rewrite list_ascii_of_string_of_list_ascii.
      cbn [list_ascii_of_string String.append]. rewrite list_ascii_app. reflexivity. }
  rewrite (strip_braces_wrapped _ a z J1 J2 E1 Ha E2 Hz), string_of_list_ascii_of_string.
  destruct ps as [| q qs].
  - subst C. change (String.concat "} {" [p]) with p in *.
    cbn [forallb] in Hfree. rewrite andb_true_r in Hfree.
    rewrite has_sep_free by (apply brace_free_spec, Hfree). reflexivity.
  - subst C. rewrite concat_cons_cons, list_ascii_app, list_sep_app, has_sep_app_sep.
    rewrite <- list_sep_app, <- list_ascii_app, <- concat_cons_cons.
    rewrite split_sep_join by exact Hfree. rewrite map_map.
    transitivity (map (fun q0 => q0) (p :: q :: qs)); [| apply map_id].
    apply map_ext_in. intros r Hr. rewrite string_of_list_ascii_of_string.
    apply strip_braces_free. rewrite forallb_forall in Hfree. apply Hfree, Hr.
Qed.

(** X21: [_parse_drop_data] returns a brace-free string as a single path, even
    when it contains spaces. *)
Theorem drop_data_unbraced_single (data : string) :
  brace_free data = true -> parse_drop_data (DropStr data) = [data].
Proof.
  intros H. unfold parse_drop_data. rewrite strip_braces_free by exact H.
  rewrite has_sep_free by (apply brace_free_spec, H). reflexivity.
Qed.

(** X22: [_clear_classifications] never clears [selected_tiles_for_category]:
    after moving to the next image and classifying it, a batch assignment
    relabels the tiles at the indices selected on the previous image. *)
Theorem batch_selection_survives_next_image {Arr} (to_bgr : Image -> Arr) (band_correct : Arr -> Arr)
  (cloudy : Arr -> bool) (features : Arr -> TileFeatures)
  (entry : option Z) (st : AppState) (path : string) (im : Image) (new_category : string) :
  nth_error (images st) (current_image_index st) = Some (path, im) ->
  0 < validate_tile_size entry (tile_size st) ->
  exists st1 st2,
    next_image entry st = Some st1 /\
    tile_classifications st1 = [] /\
    classify_tiles_lulc Arr to_bgr band_correct cloudy features st1 = Some st2 /\
    selected_tiles_for_category st2 = selected_tiles_for_category st /\
    (forall j, set_mem j (selected_tiles_for_category st) = true -> j < length (tiles st2) ->
       nth_error (tile_classifications (fst (batch_assign_category new_category st2))) j =
         Some new_category).
Proof.
  intros Hnth HT.
  assert (Hne : images st <> []).
  { intros E. rewrite E in Hnth. destruct (current_image_index st); discriminate. }
  set (i := current_image_index st) in *. set (n := length (images st)).
  assert (Hi : i < n) by (apply nth_error_Some; congruence).
  set (j := (i + 1) mod n).
  assert (Hj : j < n) by (apply Nat.mod_upper_bound; lia).
  destruct (nth_error (images st) j) as [[pj imj] |] eqn:Hnj;
    [| apply nth_error_None in Hnj; lia].
  set (s1 := switch_image path j st).
  destruct (apply_tile_size_app_facts entry s1 pj imj) as
    (st1 & Happ1 & _ & _ & _ & _ & _ & _ & Hcls1 & Hsfc1); [exact Hnj | exact HT |].
  cbn [s1 switch_image selected_tiles_for_category] in Hsfc1.
  assert (Hnext : next_image entry st = Some st1).
  { unfold next_image. change (current_image_index st) with i.
    rewrite match_list_nonempty by exact Hne. rewrite Hnth. exact Happ1. }
  destruct (tiles st1) as [| t0 ts] eqn:Ht1.
  - exists st1, st1. split; [exact Hnext |]. split; [exact Hcls1 |].
    split; [unfold classify_tiles_lulc; rewrite Ht1; reflexivity |].
    split; [exact Hsfc1 |]. intros k _ Hk. rewrite Ht1 in Hk. simpl in Hk. lia.
  - destruct (classify_tiles_from_spec to_bgr band_correct cloudy features true true
                (length (tiles st1)) (tiles st1) 0) as (cls & Hcls & Hlen & _).
    eexists st1, _. split; [exact Hnext |]. split; [exact Hcls1 |].
    split.
    { unfold classify_tiles_lulc, classify_tiles. rewrite match_list_nonempty by (rewrite Ht1; discriminate). rewrite Hcls. reflexivity. }
    cbn [selected_tiles_for_category tiles]. split; [exact Hsfc1 |].
    intros k Hk Hlt.
    destruct (batch_assign_category_facts new_category
      (mkAppState (images st1) (current_image_index st1) (tile_size st1) (current_padded_image st1)
         (tiles st1) (selected_tiles st1) (image_tile_selections st1) cls
         (selected_tiles_for_category st1) (preprocess_enabled st1) (preprocessed_image st1)
         (zoom_level st1) (is_selecting st1) (selection_mode st1))) as (_ & _ & _ & Hnthb & _).
    rewrite Hnthb. cbn [selected_tiles_for_category tile_classifications]. rewrite Hsfc1, Hk.
    destruct (nth_error cls k) eqn:E; [reflexivity |].
    apply nth_error_None in E. lia.
Qed.

Lemma sel_inv_unselected (st : AppState) :
  selected_tiles st = [] -> forallb (fun te => negb (te_selected te)) (tiles st) = true -> sel_inv st.
Proof.
  intros Hs Hf. unfold sel_inv. rewrite Hs. split; [| split; [intros k [] | constructor]].
  intros i te Hi. apply nth_error_In in Hi. rewrite forallb_forall in Hf.
  specialize (Hf te Hi). destruct (te_selected te); [discriminate | reflexivity].
Qed.

Lemma apply_tile_size_app_spec_witness :
  nth_error (images example_session) (current_image_index example_session) =
    Some ("a/x.png"%string, example_image) /\
  0 < validate_tile_size None (tile_size example_session) /\
  exists st', apply_tile_size_app None example_session = Some st' /\
    tile_size st' = 1 /\ sel_inv st' /\ tile_classifications st' = [].
Proof.
  split; [reflexivity |]. split; [cbn; lia |].
  destruct (apply_tile_size_app_spec None example_session "a/x.png" example_image)
    as (st' & E & Ht & _ & _ & _ & _ & Hinv & Hcls & _); [reflexivity | cbn; lia |].
  exists st'. split; [exact E |]. split; [exact Ht |]. split; [exact Hinv | exact Hcls].
Defined.

Lemma canvas_events_keep_sel_inv_witness :
  sel_inv (example_tiled []) /\
  sel_inv (on_canvas_click (1 # 2) (1 # 2) (example_tiled [])) /\
  sel_inv (on_canvas_drag (1 # 2) (1 # 2) (example_tiled [])) /\
  sel_inv (on_canvas_release (example_tiled [])).
Proof.
  assert (H : sel_inv (example_tiled [])) by (apply sel_inv_unselected; reflexivity).
  split; [exact H |]. apply canvas_events_keep_sel_inv. exact H.
Defined.

Lemma canvas_click_toggles_witness :
  get_tile_at_position (example_tiled []) (1 # 2) (1 # 2) = Some 0 /\
  is_selecting (on_canvas_click (1 # 2) (1 # 2) (example_tiled [])) = true /\
  (forall j, In j (selected_tiles (on_canvas_click (1 # 2) (1 # 2) (example_tiled []))) <->
     (if j =? 0 then ~ In 0 [] else In j [])).
Proof.
  assert (H : get_tile_at_position (example_tiled []) (1 # 2) (1 # 2) = Some 0) by reflexivity.
  split; [exact H |].
  destruct (canvas_click_toggles (example_tiled []) (1 # 2) (1 # 2) 0 H) as [Hs Hc].
  split; [exact Hs |]. exact (proj1 (proj2 Hc)).
Defined.

Lemma hit_test_grid_witness :
  zoom_level (example_tiled []) = 1%Q /\ 0 < tile_size (example_tiled []) /\
  0 < img_width example_image /\ 0 < img_height example_image /\
  map te_tile (tiles (example_tiled [])) = tiles_of example_image (tile_size (example_tiled [])) /\
  get_tile_at_position (example_tiled []) (inject_Z 2) (inject_Z 2) = Some 3 /\
  get_tile_at_position (example_tiled []) (inject_Z 3) (inject_Z 1) = None.
Proof.
  assert (Hz : zoom_level (example_tiled []) = 1%Q) by reflexivity.
  assert (HT : 0 < tile_size (example_tiled [])) by (cbn; lia).
  assert (Hw : 0 < img_width example_image) by (cbn; lia).
  assert (Hh : 0 < img_height example_image) by (cbn; lia).
  assert (Ht : map te_tile (tiles (example_tiled [])) = tiles_of example_image (tile_size (example_tiled [])))
    by reflexivity.
  do 5 (split; [assumption |]). split.
  - exact (hit_test_grid (example_tiled []) example_image 2 2 Hz HT Hw Hh Ht).
  - exact (hit_test_grid (example_tiled []) example_image 3 1 Hz HT Hw Hh Ht).
Defined.

Lemma next_prev_round_trip_witness :
  NoDup (map fst (images (example_tiled []))) /\
  sel_inv (example_tiled []) /\
  exists st1 st2, next_image None (example_tiled []) = Some st1 /\
    prev_image None st1 = Some st2 /\ current_image_index st2 = 0 /\
    map te_tile (tiles st2) = tiles_of example_image (tile_size st2) /\
    (forall k, In k (selected_tiles st2) <-> In k []) /\ sel_inv st2.
Proof.
  assert (Hd : NoDup (map fst (images (example_tiled []))))
    by (cbn; constructor; [intros [H | []]; discriminate | constructor; [intros [] | constructor]]).
  assert (Hi : sel_inv (example_tiled [])) by (apply sel_inv_unselected; reflexivity).
  split; [exact Hd |]. split; [exact Hi |].
  destruct (next_prev_round_trip None (example_tiled []) "a/x.png" example_image Hd eq_refl Hi)
    as (st1 & st2 & E1 & E2 & Hidx & _ & Ht & Hsel & Hinv); [cbn; lia | reflexivity |].
  exists st1, st2. split; [exact E1 |]. split; [exact E2 |]. split; [exact Hidx |].
  split; [exact Ht |]. split; [exact Hsel | exact Hinv].
Defined.

Lemma export_tiles_written_witness :
  let st := on_canvas_click (1 # 2) (1 # 2) (example_tiled []) in
  let E := export_tiles (fun _ => true) "out" st in
  images st <> [] /\ "out"%string <> ""%string /\ 0 < tile_size st /\
  fst (fst E) = store_current_selection st /\
  (forall fp timg, In (fp, timg) (snd (fst E)) <->
     exists p img row col, In (p, img) (images st) /\
       row < ceil_div (img_height img) (tile_size st) /\ col < ceil_div (img_width img) (tile_size st) /\
       In (row * ceil_div (img_width img) (tile_size st) + col) (sdict_get_default (fst (fst E)) p []) /\
       fp = path_join "out" (tile_filename (image_stem p) row col) /\ true = true /\
       timg = tile_img (tile_at (padded_image img (tile_size st)) (tile_size st) row col)) /\
  snd E = (if is_nil (snd (fst E)) then NoTilesWarning else ExportComplete (length (snd (fst E)))).
Proof.
  cbv zeta.
  assert (Hn : images (on_canvas_click (1 # 2) (1 # 2) (example_tiled [])) <> []) by discriminate.
  assert (Hf : "out"%string <> ""%string) by discriminate.
  assert (HT : 0 < tile_size (on_canvas_click (1 # 2) (1 # 2) (example_tiled []))) by (cbn; lia).
  split; [exact Hn |]. split; [exact Hf |]. split; [exact HT |].
  exact (export_tiles_written (fun _ => true) "out" (on_canvas_click (1 # 2) (1 # 2) (example_tiled [])) _ _ _
           Hn Hf HT eq_refl).
Defined.

Lemma export_tiles_distinct_paths_witness :
  let st := on_canvas_click (1 # 2) (1 # 2) (example_tiled []) in
  let E := export_tiles (fun _ => true) "out" st in
  NoDup (map (fun pi => image_stem (fst pi)) (images st)) /\ NoDup (map fst (snd (fst E))).
Proof.
  cbv zeta.
  assert (Hd : NoDup (map (fun pi => image_stem (fst pi))
                 (images (on_canvas_click (1 # 2) (1 # 2) (example_tiled [])))))
    by (cbn; constructor; [intros [H | []]; discriminate | constructor; [intros [] | constructor]]).
  split; [exact Hd |].
  exact (export_tiles_distinct_paths (fun _ => true) "out" (on_canvas_click (1 # 2) (1 # 2) (example_tiled []))
           _ _ _ Hd eq_refl).
Defined.

Lemma export_classification_partition_witness :
  let st := on_canvas_click (1 # 2) (1 # 2) (example_tiled []) in
  let E := export_classification (fun _ => true) "out/selected" st in
  images st <> [] /\ "out/selected"%string <> ""%string /\ 0 < tile_size st /\
  snd E = CEComplete (length (snd (fst (fst E)))) (length (snd (fst E))) /\
  length (snd (fst (fst E))) + length (snd (fst E)) =
    list_sum (map (fun pi => ceil_div (img_width (snd pi)) (tile_size st) *
                             ceil_div (img_height (snd pi)) (tile_size st)) (images st)).
Proof.
  cbv zeta.
  assert (Hn : images (on_canvas_click (1 # 2) (1 # 2) (example_tiled [])) <> []) by discriminate.
  assert (Hf : "out/selected"%string <> ""%string) by discriminate.
  assert (HT : 0 < tile_size (on_canvas_click (1 # 2) (1 # 2) (example_tiled []))) by (cbn; lia).
  split; [exact Hn |]. split; [exact Hf |]. split; [exact HT |].
  destruct (export_classification_partition "out/selected" (on_canvas_click (1 # 2) (1 # 2) (example_tiled []))
              _ _ _ _ Hn Hf HT eq_refl) as (_ & Ho & _ & Hsum).
  split; [exact Ho | exact Hsum].
Defined.

Lemma tile_then_classify_then_mask_witness :
  nth_error (images example_session) (current_image_index example_session) =
    Some ("a/x.png"%string, example_image) /\
  0 < validate_tile_size None (tile_size example_session) /\
  0 < img_width (current_image_of example_session example_image) /\
  0 < img_height (current_image_of example_session example_image) /\
  exists st1 st2 padded m,
    apply_tile_size_app None example_session = Some st1 /\
    classify_tiles_lulc Image (fun im => im) (fun a => a) (fun _ => false)
      (fun _ => example_feature_values) st1 = Some st2 /\
    current_padded_image st2 = Some padded /\
    length (tile_classifications st2) = length (tiles st2) /\
    save_mask_only padded (tile_size st2) (map te_tile (tiles st2)) (tile_classifications st2)
      default_category_values = Some (inr m).
Proof.
  assert (H1 : nth_error (images example_session) (current_image_index example_session) =
                 Some ("a/x.png"%string, example_image)) by reflexivity.
  assert (H2 : 0 < validate_tile_size None (tile_size example_session)) by (cbn; lia).
  assert (H3 : 0 < img_width (current_image_of example_session example_image)) by (cbn; lia).
  assert (H4 : 0 < img_height (current_image_of example_session example_image)) by (cbn; lia).
  split; [exact H1 |]. split; [exact H2 |]. split; [exact H3 |]. split; [exact H4 |].
  exact (tile_then_classify_then_mask (fun im => im) (fun a => a) (fun _ => false)
           (fun _ => example_feature_values) None example_session "a/x.png"%string example_image H1 H2 H3 H4).
Defined.

Lemma export_lulc_tiles_report_witness :
  let st := example_tiled ["Forest"; "Cloud"; ""; "River"]%string in
  let pairs := combine (tiles st) (tile_classifications st) in
  tile_classifications st <> [] /\ "lulc"%string <> ""%string /\
  exists counts,
    export_lulc_tiles (fun _ => true) "lulc" st =
      LulcExported counts (length (filter (fun p => String.eqb (snd p) "Cloud") pairs))
        (map (fun p => (lulc_export_path "lulc" p, tile_img (te_tile (fst p))))
           (filter (fun p => in_categories (snd p) && true) pairs)) /\
    (forall c, In c CATEGORIES ->
       dict_get counts c =
       Some (Z.of_nat (length (filter (fun p => String.eqb (snd p) c && true) pairs)))).
Proof.
  cbv zeta.
  assert (Hc : tile_classifications (example_tiled ["Forest"; "Cloud"; ""; "River"]%string) <> [])
    by discriminate.
  assert (Hb : "lulc"%string <> ""%string) by discriminate.
  split; [exact Hc |]. split; [exact Hb |].
  exact (export_lulc_tiles_report (fun _ => true) "lulc"
           (example_tiled ["Forest"; "Cloud"; ""; "River"]%string) Hc Hb).
Defined.

Lemma export_lulc_distinct_paths_witness :
  let st := example_tiled ["Forest"; "Cloud"; ""; "River"]%string in
  NoDup (map (fun te => (te_image_name te, tile_row (te_tile te), tile_col (te_tile te))) (tiles st)) /\
  (forall te, In te (tiles st) -> starts_with_slash (te_image_name te) = false) /\
  exists counts clouds written,
    export_lulc_tiles (fun _ => true) "lulc" st = LulcExported counts clouds written /\
    NoDup (map fst written).
Proof.
  cbv zeta.
  assert (Hd : NoDup (map (fun te => (te_image_name te, tile_row (te_tile te), tile_col (te_tile te)))
                 (tiles (example_tiled ["Forest"; "Cloud"; ""; "River"]%string)))).
  { vm_compute. repeat constructor; simpl; intuition discriminate. }
  assert (Hs : forall te, In te (tiles (example_tiled ["Forest"; "Cloud"; ""; "River"]%string)) ->
                 starts_with_slash (te_image_name te) = false).
  { intros te Hte. cbn [tiles example_tiled] in Hte. apply in_map_iff in Hte.
    destruct Hte as (t & <- & _). reflexivity. }
  split; [exact Hd |]. split; [exact Hs |].
  eexists _, _, _. split; [reflexivity |].
  eapply (export_lulc_distinct_paths (fun _ => true) "lulc"); [exact Hd | exact Hs | reflexivity].
Defined.

Lemma update_category_value_overflow_witness :
  (300 < 0 \/ 255 < 300)%Z /\ skipped_label "Forest" = false /\
  nth_error (tiles_of example_image 1) 0 = Some (tile_at (padded_image example_image 1) 1 0 0) /\
  nth_error ["Forest"]%string 0 = Some "Forest"%string /\
  save_mask_only (padded_image example_image 1) 1 (tiles_of example_image 1) ["Forest"]%string
    (update_category_value "Forest" (Some 300%Z) default_category_values) = Some (inl OverflowError).
Proof.
  assert (Hv : (300 < 0 \/ 255 < 300)%Z) by lia.
  assert (Hk : skipped_label "Forest" = false) by reflexivity.
  assert (Ht : nth_error (tiles_of example_image 1) 0 = Some (tile_at (padded_image example_image 1) 1 0 0))
    by reflexivity.
  assert (Hc : nth_error ["Forest"]%string 0 = Some "Forest"%string) by reflexivity.
  split; [exact Hv |]. split; [exact Hk |]. split; [exact Ht |]. split; [exact Hc |].
  exact (update_category_value_overflow _ _ _ _ _ _ _ _ _ Hv Hk Ht Hc).
Defined.

Lemma zoom_within_bounds_witness :
  (min_zoom <= zoom_level example_session <= max_zoom)%Q /\
  ((min_zoom <= zoom_level (zoom_in example_session) <= max_zoom)%Q /\
   (zoom_level example_session <= zoom_level (zoom_in example_session))%Q) /\
  ((min_zoom <= zoom_level (zoom_out example_session) <= max_zoom)%Q /\
   (zoom_level (zoom_out example_session) <= zoom_level example_session)%Q) /\
  (min_zoom <= zoom_level (zoom_reset example_session) <= max_zoom)%Q.
Proof.
  assert (H : (min_zoom <= zoom_level example_session <= max_zoom)%Q)
    by (split; apply Qle_bool_imp_le; reflexivity).
  split; [exact H |]. exact (zoom_within_bounds example_session H).
Defined.

Lemma batch_tile_accounting_witness :
  let files := [mkSourceImage "s" (Some (4, 6)) (fun _ => false) example_features;
                mkSourceImage "t" None (fun _ => false) example_features;
                mkSourceImage "u" (Some (5, 5)) (fun tile => let '(_, col, _, _) := tile in Nat.eqb col 0) example_features]%string in
  (0 < 2)%Z /\
  exists tile_counts cloud_filtered_count saved,
    process_images 2 true true files zero_counts 0 = Some (tile_counts, cloud_filtered_count, saved) /\
    map fst tile_counts = CATEGORIES /\
    (dict_total tile_counts + Z.of_nat cloud_filtered_count =
       Z.of_nat (list_sum (map (whole_tiles 2) files)))%Z /\
    (forall c, In c CATEGORIES ->
       dict_get tile_counts c = Some (Z.of_nat (length (filter (fun s => String.eqb (fst s) c) saved)))) /\
    (true = false -> cloud_filtered_count = 0).
Proof.
  cbv zeta. assert (H : (0 < 2)%Z) by lia. split; [exact H |].
  exact (batch_tile_accounting 2 true true _ H).
Defined.

Lemma click_flips_highlight_witness :
  get_tile_at_position (example_tiled []) (1 # 2) (1 # 2) = Some 0 /\
  display_grid true (on_canvas_click (1 # 2) (1 # 2) (example_tiled [])) =
    match display_grid true (example_tiled []) with
    | Displayed marks => Displayed (map (flip_mark 0) marks)
    | r => r
    end.
Proof.
  assert (Hg : get_tile_at_position (example_tiled []) (1 # 2) (1 # 2) = Some 0) by reflexivity.
  split; [exact Hg |].
  exact (click_flips_highlight true (example_tiled []) (1 # 2) (1 # 2) 0 Hg).
Defined.

Lemma drop_data_braced_round_trip_witness :
  forallb (fun q => brace_free q && negb (String.eqb q "")) ["C:/img/a.png"; "C:/my img/b.png"]%string = true /\
  parse_drop_data (DropStr ("{" ++ String.concat "} {" ["C:/img/a.png"; "C:/my img/b.png"] ++ "}")%string)
    = ["C:/img/a.png"; "C:/my img/b.png"]%string.
Proof.
  assert (H : forallb (fun q => brace_free q && negb (String.eqb q ""))
                ["C:/img/a.png"; "C:/my img/b.png"]%string = true) by reflexivity.
  split; [exact H |]. exact (drop_data_braced_round_trip _ _ H).
Defined.

Lemma drop_data_unbraced_single_witness :
  brace_free "/img/a.png /img/b.png" = true /\
  parse_drop_data (DropStr "/img/a.png /img/b.png") = ["/img/a.png /img/b.png"]%string.
Proof.
  assert (H : brace_free "/img/a.png /img/b.png" = true) by reflexivity.
  split; [exact H |]. exact (drop_data_unbraced_single _ H).
Defined.

Lemma batch_selection_survives_next_image_witness :
  let st := on_canvas_click (1 # 2) (1 # 2) (example_tiled ["Forest"; "Forest"; "Forest"; "Forest"]%string) in
  nth_error (images st) (current_image_index st) = Some ("a/x.png"%string, example_image) /\
  0 < validate_tile_size None (tile_size st) /\
  exists st1 st2,
    next_image None st = Some st1 /\
    tile_classifications st1 = [] /\
    classify_tiles_lulc Image (fun im => im) (fun a => a) (fun _ => false)
      (fun _ => example_feature_values) st1 = Some st2 /\
    selected_tiles_for_category st2 = selected_tiles_for_category st /\
    (forall j, set_mem j (selected_tiles_for_category st) = true -> j < length (tiles st2) ->
       nth_error (tile_classifications (fst (batch_assign_category "River" st2))) j =
         Some "River"%string).
Proof.
  cbv zeta.
  assert (H1 : nth_error (images (on_canvas_click (1 # 2) (1 # 2)
                 (example_tiled ["Forest"; "Forest"; "Forest"; "Forest"]%string)))
                 (current_image_index (on_canvas_click (1 # 2) (1 # 2)
                 (example_tiled ["Forest"; "Forest"; "Forest"; "Forest"]%string))) =
               Some ("a/x.png"%string, example_image)) by reflexivity.
  assert (H2 : 0 < validate_tile_size None (tile_size (on_canvas_click (1 # 2) (1 # 2)
                 (example_tiled ["Forest"; "Forest"; "Forest"; "Forest"]%string)))) by (cbn; lia).
  split; [exact H1 |]. split; [exact H2 |].
  exact (batch_selection_survives_next_image (fun im => im) (fun a => a) (fun _ => false)
           (fun _ => example_feature_values) None _ _ _ "River" H1 H2).
Defined.

Lemma canvas_drag_monotone_witness :
  let st := on_canvas_click (1 # 2) (1 # 2) (example_tiled []) in
  selection_mode st = Some SelAdd /\
  incl (selected_tiles st) (selected_tiles (on_canvas_drag (3 # 2) (1 # 2) st)) /\
  incl (selected_tiles_for_category st) (selected_tiles_for_category (on_canvas_drag (3 # 2) (1 # 2) st)).
Proof.
  cbv zeta.
  assert (Hm : selection_mode (on_canvas_click (1 # 2) (1 # 2) (example_tiled [])) = Some SelAdd)
    by reflexivity.
  split; [exact Hm |].
  exact (proj1 (canvas_drag_monotone (on_canvas_click (1 # 2) (1 # 2) (example_tiled [])) (3 # 2) (1 # 2)) Hm).
Defined.

Lemma change_tile_category_spec_witness :
  length (tile_classifications (example_tiled ["Forest"]%string)) <= 5 /\
  change_tile_category 5 "River" (example_tiled ["Forest"]%string) = example_tiled ["Forest"]%string.
Proof.
  assert (H : length (tile_classifications (example_tiled ["Forest"]%string)) <= 5) by (cbn; lia).
  split; [exact H |].
  exact (proj1 (change_tile_category_spec 5 "River" (example_tiled ["Forest"]%string)) H).
Defined.

Lemma zoom_out_small_image_error_witness :
  current_padded_image (set_zoom (example_tiled []) (1 # 9)) = Some (padded_image example_image 1) /\
  0 < img_width (padded_image example_image 1) /\ 0 < img_height (padded_image example_image 1) /\
  (img_width (padded_image example_image 1) < 10 \/ img_height (padded_image example_image 1) < 10) /\
  (min_zoom < zoom_level (set_zoom (example_tiled []) (1 # 9)) <= 3 # 25)%Q /\
  display_grid true (zoom_out (set_zoom (example_tiled []) (1 # 9))) = DisplayValueError.
Proof.
  assert (Hp : current_padded_image (set_zoom (example_tiled []) (1 # 9)) =
                 Some (padded_image example_image 1)) by reflexivity.
  assert (Hw : 0 < img_width (padded_image example_image 1)) by (cbn; lia).
  assert (Hh : 0 < img_height (padded_image example_image 1)) by (cbn; lia).
  assert (Hs : img_width (padded_image example_image 1) < 10 \/ img_height (padded_image example_image 1) < 10)
    by (left; cbn; lia).
  assert (Hz : (min_zoom < zoom_level (set_zoom (example_tiled []) (1 # 9)) <= 3 # 25)%Q)
    by (cbn; unfold min_zoom, Qlt, Qle; simpl; lia).
  split; [exact Hp |]. split; [exact Hw |]. split; [exact Hh |]. split; [exact Hs |]. split; [exact Hz |].
  exact (zoom_out_small_image_error true _ _ Hp Hw Hh Hs Hz).
Defined.
